(** * truescrub: the daily highlights digest ([truescrub/highlights.py])

    A shallow embedding of [highlights.py]: the five SQL statements it sends
    to the skill database are written as list programs over the tables they
    read, and the Python around them (record shaping, sorting, exceptions)
    as functions in a small monad that carries the log of statements issued
    and the exception raised, if any. *)

From Stdlib Require Import String Ascii DecimalString ZArith QArith Qround.
From Stdlib Require Import Bool List Lia.
From Stdlib Require Import Permutation Sorted.
Import ListNotations.

Set Implicit Arguments.
Local Open Scope Z_scope.

(** ** Numbers

    The rating columns are SQL [DOUBLE]s.  The development is generic in the
    number type: it needs the arithmetic of the rating formula and the
    comparison used by [MIN], [MAX], [IN] and the sorts.  SQLite stores no
    NaN, so the comparison is a total preorder. *)

Class Num (R : Type) : Type := {
  nzero : R;
  nadd : R -> R -> R;
  nmul : R -> R -> R;
  nopp : R -> R;
  ndiv : R -> R -> R;
  nof_nat : nat -> R;
  nleb : R -> R -> bool
}.

Class NumOrder (R : Type) {N : Num R} : Prop := {
  nleb_total : forall x y : R, nleb x y = true \/ nleb y x = true;
  nleb_trans : forall x y z : R,
      nleb x y = true -> nleb y z = true -> nleb x z = true
}.
Arguments NumOrder R {N}.

(** SQL's [=] on numbers. *)
Definition neqb {R} {N : Num R} (x y : R) : bool := nleb x y && nleb y x.

#[export] Instance Q_Num : Num Q := {
  nzero := 0%Q;
  nadd := Qplus;
  nmul := Qmult;
  nopp := Qopp;
  ndiv := Qdiv;
  nof_nat := fun n => inject_Z (Z.of_nat n);
  nleb := Qle_bool
}.

(** ** The tables of the skill database *)

Record RoundRow : Type := {
  round_id : Z;
  created_at : string;     (* the TEXT sqlite3 wrote for the datetime *)
  map_id : Z;
  mvp : option Z           (* NULL when the round has no MVP *)
}.

Record MapRow : Type := {
  maps_map_id : Z;
  map_name : string
}.

Record PlayerRow : Type := {
  players_player_id : Z;
  players_steam_name : string
}.

Record RatingComponentsRow (R : Type) : Type := {
  rc_player_id : Z;
  rc_round_id : Z;
  kill_rating : R;
  death_rating : R;
  damage_rating : R;
  kas_rating : R
}.

Record SeasonSkillHistoryRow (R : Type) : Type := {
  ssh_player_id : Z;
  ssh_round_id : Z;
  ssh_skill_mean : R;
  ssh_skill_stdev : R
}.

Record Db (R : Type) : Type := {
  rounds : list RoundRow;
  maps : list MapRow;
  players : list PlayerRow;
  rating_components : list (RatingComponentsRow R);
  season_skill_history : list (SeasonSkillHistoryRow R)
}.

(** Modelled from the spec: the [CREATE TABLE] statements are in [db.py],
    which is not part of the sources at hand.  The data model gives players
    and maps an identifier and lets rounds and rating components refer to
    players and maps by it: [player_id] is the key of [players], [map_id]
    the key of [maps], and [rating_components.player_id] and [rounds.mvp]
    (when not NULL) name a row of [players]. *)
Definition players_pk {R} (db : Db R) : Prop :=
  NoDup (map players_player_id (players db)).

Definition maps_pk {R} (db : Db R) : Prop :=
  NoDup (map maps_map_id (maps db)).

Definition rating_components_fk {R} (db : Db R) : Prop :=
  forall rc, In rc (rating_components db) ->
    exists p, In p (players db) /\ players_player_id p = rc_player_id rc.

Definition rounds_mvp_fk {R} (db : Db R) : Prop :=
  forall r pid, In r (rounds db) -> mvp r = Some pid ->
    exists p, In p (players db) /\ players_player_id p = pid.

(** ** SQL building blocks *)

(** [x BETWEEN lo AND hi]; a NULL bound makes the test NULL, hence not true. *)
Definition sql_between (x : Z) (lo hi : option Z) : bool :=
  match lo, hi with
  | Some l, Some h => (l <=? x) && (x <=? h)
  | _, _ => false
  end.

(** [x BETWEEN lo AND hi] on TEXT values: SQLite compares them byte by
    byte, a proper prefix coming first. *)
Definition sql_text_between (x lo hi : string) : bool :=
  String.leb lo x && String.leb x hi.

(** The pair of statement parameters [round_range]. *)
Definition RoundRange : Type := (option Z * option Z)%type.

Definition in_range (rr : RoundRange) (x : Z) : bool :=
  sql_between x (fst rr) (snd rr).

(** [MIN] and [MAX] of a column: NULL on no rows. *)
Definition sql_min {A} (leb : A -> A -> bool) (l : list A) : option A :=
  match l with
  | [] => None
  | x :: t => Some (fold_left (fun m y => if leb m y then m else y) t x)
  end.

Definition sql_max {A} (leb : A -> A -> bool) (l : list A) : option A :=
  match l with
  | [] => None
  | x :: t => Some (fold_left (fun m y => if leb m y then y else m) t x)
  end.

(** [x IN (c1, c2, ...)] where the candidates may be NULL. *)
Definition sql_in {R} {N : Num R} (x : R) (cands : list (option R)) : bool :=
  existsb (fun c => match c with Some v => neqb x v | None => false end) cands.

(** [column = (scalar subquery)]; not true when the subquery is NULL. *)
Definition sql_eq_opt (x : Z) (o : option Z) : bool :=
  match o with Some v => x =? v | None => false end.

(** [column <= ?] and [column >= ?] with a possibly NULL parameter. *)
Definition sql_le_param (x : Z) (o : option Z) : bool :=
  match o with Some v => x <=? v | None => false end.

Definition sql_ge_param (x : Z) (o : option Z) : bool :=
  match o with Some v => v <=? x | None => false end.

(** [GROUP BY]: rows are hashed into groups as they are scanned; a group is
    created at the first row carrying its key. *)
Section GroupBy.
Variables (K A : Type) (keqb : K -> K -> bool) (key : A -> K).

Fixpoint add_to_group (k : K) (a : A) (gs : list (K * list A))
  : list (K * list A) :=
  match gs with
  | [] => [(k, [a])]
  | (k', g) :: gs' =>
      if keqb k' k then (k', g ++ [a]) :: gs'
      else (k', g) :: add_to_group k a gs'
  end.

Definition group_by (rows : list A) : list (K * list A) :=
  fold_left (fun gs a => add_to_group (key a) a gs) rows [].
End GroupBy.

(** [AVG(column)] over the rows of a (non-empty) group. *)
Definition sql_sum {R} {N : Num R} (l : list R) : R := fold_left nadd l nzero.

Definition sql_avg {R A} {N : Num R} (col : A -> R) (g : list A) : R :=
  ndiv (sql_sum (map col g)) (nof_nat (length g)).

(** ** The database engine

    SQL leaves three things to the engine: the order of the rows of a
    statement without [ORDER BY], the order in which the groups of a
    [GROUP BY] are produced, and the order of rows with equal keys under an
    [ORDER BY].  [group_order] receives the order of the grouping key and
    whether the statement's [ORDER BY] has as many terms as its [GROUP BY]
    and is [DESC]. *)
Class Engine : Type := {
  fetch : forall A : Type, list A -> list A;
  group_order : forall K A : Type,
      (K -> K -> bool) -> bool -> list (K * list A) -> list (K * list A);
  order_by : forall A : Type, (A -> A -> bool) -> list A -> list A
}.

Class EngineOk (E : Engine) : Prop := {
  fetch_perm : forall (A : Type) (l : list A), Permutation l (fetch l);
  group_order_perm :
    forall (K A : Type) (kleb : K -> K -> bool) (desc : bool)
           (gs : list (K * list A)),
      Permutation gs (group_order kleb desc gs);
  order_by_perm : forall (A : Type) (leb : A -> A -> bool) (l : list A),
      Permutation l (order_by leb l);
  order_by_sorted : forall (A : Type) (leb : A -> A -> bool) (l : list A),
      (forall x y, leb x y = true \/ leb y x = true) ->
      (forall x y z, leb x y = true -> leb y z = true -> leb x z = true) ->
      StronglySorted (fun x y => leb x y = true) (order_by leb l)
}.

(** A stable insertion sort: Python's [list.sort] is stable, and so is the
    sorter of SQLite. *)
Section StableSort.
Variables (A : Type) (leb : A -> A -> bool).

Fixpoint insert_sorted (x : A) (l : list A) : list A :=
  match l with
  | [] => [x]
  | y :: t => if leb x y then x :: y :: t else y :: insert_sorted x t
  end.

Fixpoint stable_sort (l : list A) : list A :=
  match l with
  | [] => []
  | x :: t => insert_sorted x (stable_sort t)
  end.
End StableSort.

(** SQLite: a statement without [ORDER BY] returns its rows in scan order.
    A [GROUP BY] on columns without an index runs a sorter on the grouping
    key and the groups come out in the order of the key; when the
    [ORDER BY] of the statement has as many terms as the [GROUP BY], the
    sorter takes its direction from the [ORDER BY] terms, so the groups come
    by descending key under a one-term [ORDER BY ... DESC].  The sorter of
    [ORDER BY] keeps rows of equal key in the order they arrive. *)
Definition group_key_order {K A} (kleb : K -> K -> bool) (desc : bool)
    (a b : K * list A) : bool :=
  if desc then kleb (fst b) (fst a) else kleb (fst a) (fst b).

Definition sqlite_engine : Engine := {|
  fetch := fun A l => l;
  group_order := fun K A kleb desc gs =>
                   stable_sort (group_key_order kleb desc) gs;
  order_by := fun A leb l => stable_sort leb l
|}.

(** ** Statements issued and exceptions raised *)

Inductive Statement : Type :=
| SelectRoundRange
| SelectRatingExtremes
| SelectMostMvps
| SelectSkillChanges
| SelectMostPlayedMaps.

Inductive Exn : Type := StopIteration | IndexError.

Inductive Outcome (A : Type) : Type :=
| Returned (a : A)
| Raised (e : Exn).
Arguments Raised {A} e.

(** A computation takes the statements issued so far and gives its outcome
    and the statements issued when it ends. *)
Definition Py (A : Type) : Type := list Statement -> Outcome A * list Statement.

Definition ret {A} (a : A) : Py A := fun log => (Returned a, log).

Definition raise {A} (e : Exn) : Py A := fun log => (Raised e, log).

Definition bind {A B} (m : Py A) (k : A -> Py B) : Py B :=
  fun log =>
    match m log with
    | (Returned a, log') => k a log'
    | (Raised e, log') => (Raised e, log')
    end.

(** [try: m except StopIteration: h] *)
Definition try_except_StopIteration {A} (m : Py A) (h : Py A) : Py A :=
  fun log =>
    match m log with
    | (Raised StopIteration, log') => h log'
    | r => r
    end.

Notation "x <- m ;; k" := (bind m (fun x => k))
  (at level 61, m at next level, right associativity).

(** Modelled from the spec: [db.execute] and [db.execute_one] are imported
    from [db.py], which is not part of the sources at hand.  [execute] sends
    one statement to the store and gives its rows; [execute_one] gives the
    first row of the result and raises [StopIteration] when there is none
    (the signal [get_highlights] catches around the MVP query). *)
Definition execute {A} (s : Statement) (rows : list A) : Py (list A) :=
  fun log => (Returned rows, log ++ [s]).

Definition execute_one {A} (s : Statement) (rows : list A) : Py A :=
  l <- execute s rows ;;
  match l with
  | [] => raise StopIteration
  | row :: _ => ret row
  end.

Notation "' pat <- m ;; k" :=
  (bind m (fun x => match x with pat => k end))
  (at level 61, pat pattern, m at next level, right associativity).

(** ** What [highlights.py] imports *)

(** [db.COEFFICIENTS]: the five numbers spliced into the rating statement by
    [str.format]; their values are configuration. *)
Class Coefficients (R : Type) : Type := {
  COEFFICIENTS : R * R * R * R * R
}.

(** Modelled from the spec: [models.Player] is defined in [models.py], which
    is not part of the sources at hand.  A [Player] is an immutable snapshot
    built from an identifier, a display name, a skill mean, a skill standard
    deviation and an impact rating; its rating value [mmr] and its skill
    group label [skill_group] are derived from the skill mean and standard
    deviation.  How they are derived is left open. *)
Record Player (R : Type) : Type := {
  player_id : Z;
  steam_name : string;
  skill_mean : R;
  skill_stdev : R;
  impact_rating : R
}.

Class SkillModel (R : Type) : Type := {
  mmr_of : R -> R -> Z;
  skill_group_of : R -> R -> string
}.

Definition mmr {R} {S : SkillModel R} (p : Player R) : Z :=
  mmr_of (skill_mean p) (skill_stdev p).

Definition skill_group {R} {S : SkillModel R} (p : Player R) : string :=
  skill_group_of (skill_mean p) (skill_stdev p).

(** ** The records [get_highlights] builds (Python dicts with fixed keys) *)

Record RatingExtreme (R : Type) : Type := {
  re_player_id : Z;
  re_steam_name : string;
  re_impact_rating : R;
  re_average_kills : R;
  re_average_deaths : R;
  re_average_damage : R;
  re_average_kas : R;
  re_rounds_played : nat
}.

Record MostMvps : Type := {
  mm_player_id : Z;
  mm_steam_name : string;
  mm_mvps : nat
}.

Record Skill : Type := {
  sk_mmr : Z;
  sk_skill_group : string
}.

Record SkillGroupChange : Type := {
  sgc_player_id : Z;
  sgc_steam_name : string;
  sgc_previous_skill : Skill;
  sgc_next_skill : Skill
}.

Record Digest (R : Type) : Type := {
  time_window : string * string;
  rounds_played : nat;
  lowest_rating : RatingExtreme R;
  highest_rating : RatingExtreme R;
  season_skill_group_changes : list SkillGroupChange;
  most_played_maps : list (string * nat);
  most_mvps : option MostMvps
}.

(** A Python [dict] built from a sequence of pairs: a later pair with a key
    already present replaces the value in place; keys keep insertion
    order. *)
Fixpoint dict_set {V} (k : string) (v : V) (d : list (string * V))
  : list (string * V) :=
  match d with
  | [] => [(k, v)]
  | (k', v') :: t =>
      if String.eqb k' k then (k', v) :: t else (k', v') :: dict_set k v t
  end.

Definition dict {V} (items : list (string * V)) : list (string * V) :=
  fold_left (fun d kv => dict_set (fst kv) (snd kv) d) items [].

(** Python's [datetime], through the operations [highlights.py] applies to
    the day it is given: [day + datetime.timedelta(days=1)],
    [day.isoformat()], and the text the [sqlite3] module binds for a
    [datetime] parameter (its adapter writes [isoformat(" ")]).  The
    [OverflowError] of the addition in the last day of year 9999 is left
    out. *)
Class PyDatetime (Dt : Type) : Type := {
  plus_one_day : Dt -> Dt;
  isoformat : Dt -> string;
  adapt_datetime : Dt -> string
}.

(** ** [highlights.py] *)

Section Highlights.
Context {R : Type} {N : Num R} {E : Engine}
        {C : Coefficients R} {S : SkillModel R}
        {Dt : Type} {D : PyDatetime Dt}.

(** *** [get_round_range_for_day] *)

Definition created_in (day next_day : Dt) (r : RoundRow) : bool :=
  sql_text_between (created_at r)
    (adapt_datetime day) (adapt_datetime next_day).

(** SELECT MIN(round_id), MAX(round_id), COUNT( * ) FROM rounds
    WHERE created_at BETWEEN ? AND ? *)
Definition select_round_range (skill_db : Db R) (day next_day : Dt)
  : list (option Z * option Z * nat) :=
  let w := filter (created_in day next_day) (rounds skill_db) in
  fetch [(sql_min Z.leb (map round_id w),
          sql_max Z.leb (map round_id w),
          length w)].

Definition get_round_range_for_day (skill_db : Db R) (day : Dt)
  : Py (RoundRange * nat) :=
  let next_day := plus_one_day day in
  '(first_round, last_round, round_count) <-
      execute_one SelectRoundRange
        (select_round_range skill_db day next_day) ;;
  ret ((first_round, last_round), round_count).

(** *** [get_most_played_maps_between_rounds] *)

(** rounds JOIN maps ON rounds.map_id = maps.map_id
    WHERE round_id BETWEEN ? AND ? *)
Definition rounds_join_maps (skill_db : Db R) (rr : RoundRange)
  : list (RoundRow * MapRow) :=
  filter (fun rm => in_range rr (round_id (fst rm)))
    (flat_map
       (fun r => map (pair r)
                   (filter (fun m => map_id r =? maps_map_id m)
                      (maps skill_db)))
       (rounds skill_db)).

Definition count_desc {K} (a b : K * nat) : bool := (snd b <=? snd a)%nat.

(** SELECT map_name, COUNT( * ) AS round_count ...
    GROUP BY map_name ORDER BY round_count DESC *)
Definition select_most_played_maps (skill_db : Db R) (rr : RoundRange)
  : list (string * nat) :=
  order_by count_desc
    (map (fun kg => (fst kg, length (snd kg)))
       (group_order String.leb true
          (group_by String.eqb (fun rm => map_name (snd rm))
             (rounds_join_maps skill_db rr)))).

Definition get_most_played_maps_between_rounds
    (skill_db : Db R) (round_range : RoundRange)
  : Py (list (string * nat)) :=
  rows <- execute SelectMostPlayedMaps
            (select_most_played_maps skill_db round_range) ;;
  ret (dict rows).

(** *** [get_rating_extremes_between_rounds] *)

(** A row of the [components] common table expression. *)
Record Components : Type := {
  c_player_id : Z;
  average_kills : R;
  average_deaths : R;
  average_damage : R;
  average_kas : R;
  c_rounds_played : nat
}.

(** SELECT rc.player_id, AVG(rc.kill_rating), AVG(rc.death_rating),
           AVG(rc.damage_rating), AVG(rc.kas_rating), COUNT( * )
    FROM rating_components rc WHERE rc.round_id BETWEEN ? AND ?
    GROUP BY rc.player_id *)
Definition components (skill_db : Db R) (rr : RoundRange)
  : list Components :=
  map (fun kg =>
         {| c_player_id := fst kg;
            average_kills := sql_avg (@kill_rating R) (snd kg);
            average_deaths := sql_avg (@death_rating R) (snd kg);
            average_damage := sql_avg (@damage_rating R) (snd kg);
            average_kas := sql_avg (@kas_rating R) (snd kg);
            c_rounds_played := length (snd kg) |})
    (group_by Z.eqb (@rc_player_id R)
       (filter (fun rc => in_range rr (rc_round_id rc))
          (rating_components skill_db))).

(** c1 * average_kills + c2 * average_deaths + c3 * average_damage
    + c4 * average_kas + c5, with SQL's left-to-right sums. *)
Definition rating_formula (c : Components) : R :=
  let '(c1, c2, c3, c4, c5) := COEFFICIENTS in
  nadd (nadd (nadd (nadd (nmul c1 (average_kills c))
                         (nmul c2 (average_deaths c)))
                   (nmul c3 (average_damage c)))
             (nmul c4 (average_kas c)))
       c5.

(** The [impact_ratings] common table expression: the rating and c.* *)
Definition impact_ratings (skill_db : Db R) (rr : RoundRange)
  : list (R * Components) :=
  map (fun c => (rating_formula c, c)) (components skill_db rr).

(** The main SELECT: players JOIN impact_ratings ir
    ON players.player_id = ir.player_id
    AND ir.rating IN ((SELECT MIN(rating) ...), (SELECT MAX(rating) ...)) *)
Definition select_rating_extremes (skill_db : Db R) (rr : RoundRange)
  : list (Z * string * R * R * R * R * R * nat) :=
  let irs := impact_ratings skill_db rr in
  let lowest := sql_min nleb (map fst irs) in
  let highest := sql_max nleb (map fst irs) in
  fetch
    (flat_map
       (fun p =>
          map (fun ir =>
                 (players_player_id p, players_steam_name p, fst ir,
                  average_kills (snd ir), nopp (average_deaths (snd ir)),
                  average_damage (snd ir), average_kas (snd ir),
                  c_rounds_played (snd ir)))
            (filter (fun ir =>
                       (players_player_id p =? c_player_id (snd ir))
                       && sql_in (fst ir) [lowest; highest])
               irs))
       (players skill_db)).

Definition rating_extreme_of_row
    (rating_row : Z * string * R * R * R * R * R * nat) : RatingExtreme R :=
  let '(r0, r1, r2, r3, r4, r5, r6, r7) := rating_row in
  {| re_player_id := r0;
     re_steam_name := r1;
     re_impact_rating := r2;
     re_average_kills := r3;
     re_average_deaths := r4;
     re_average_damage := r5;
     re_average_kas := r6;
     re_rounds_played := r7 |}.

Definition by_impact_rating (a b : RatingExtreme R) : bool :=
  nleb (re_impact_rating a) (re_impact_rating b).

Definition get_rating_extremes_between_rounds
    (skill_db : Db R) (round_range : RoundRange)
  : Py (RatingExtreme R * RatingExtreme R) :=
  rating_extreme_rows <-
    execute SelectRatingExtremes
      (select_rating_extremes skill_db round_range) ;;
  let rating_extremes :=
    stable_sort by_impact_rating
      (map rating_extreme_of_row rating_extreme_rows) in
  match rating_extremes with
  | [] => raise IndexError
  | first :: _ => ret (first, last rating_extremes first)
  end.

(** *** [get_player_with_most_mvps_between_rounds] *)

Definition mvp_is (pid : Z) (r : RoundRow) : bool :=
  match mvp r with Some m => pid =? m | None => false end.

(** players JOIN rounds ON players.player_id = rounds.mvp
    WHERE rounds.round_id BETWEEN ? AND ? *)
Definition players_join_rounds (skill_db : Db R) (rr : RoundRange)
  : list (PlayerRow * RoundRow) :=
  filter (fun pr => in_range rr (round_id (snd pr)))
    (flat_map
       (fun p => map (pair p)
                   (filter (mvp_is (players_player_id p))
                      (rounds skill_db)))
       (players skill_db)).

Definition id_name_eqb (a b : Z * string) : bool :=
  (fst a =? fst b) && String.eqb (snd a) (snd b).

(** The order of the grouping key [(player_id, steam_name)]. *)
Definition id_name_leb (a b : Z * string) : bool :=
  (fst a <? fst b) || ((fst a =? fst b) && String.leb (snd a) (snd b)).

(** SELECT players.player_id, players.steam_name, COUNT( * ) AS mvps ...
    GROUP BY players.player_id, players.steam_name ORDER BY mvps DESC *)
Definition select_most_mvps (skill_db : Db R) (rr : RoundRange)
  : list (Z * string * nat) :=
  order_by count_desc
    (map (fun kg => (fst kg, length (snd kg)))
       (group_order id_name_leb false
          (group_by id_name_eqb
             (fun pr => (players_player_id (fst pr),
                         players_steam_name (fst pr)))
             (players_join_rounds skill_db rr)))).

Definition get_player_with_most_mvps_between_rounds
    (skill_db : Db R) (round_range : RoundRange) : Py MostMvps :=
  '(mvp0, mvp1, mvp2) <-
      execute_one SelectMostMvps (select_most_mvps skill_db round_range) ;;
  ret {| mm_player_id := mvp0; mm_steam_name := mvp1; mm_mvps := mvp2 |}.

(** *** [get_skill_changes_between_rounds] *)

(** ( SELECT MAX(ssh_before.round_id) FROM season_skill_history ssh_before
      WHERE ssh_before.round_id <= ? AND ssh_before.player_id = ... ) *)
Definition ssh_before (skill_db : Db R) (first : option Z) (pid : Z)
  : option Z :=
  sql_max Z.leb
    (map (@ssh_round_id R)
       (filter (fun s => sql_le_param (ssh_round_id s) first
                         && (ssh_player_id s =? pid))
          (season_skill_history skill_db))).

(** ( SELECT MIN(ssh_after.round_id) FROM season_skill_history ssh_after
      WHERE ssh_after.round_id >= ? AND ssh_after.player_id = ... ) *)
Definition ssh_after (skill_db : Db R) (last : option Z) (pid : Z)
  : option Z :=
  sql_min Z.leb
    (map (@ssh_round_id R)
       (filter (fun s => sql_ge_param (ssh_round_id s) last
                         && (ssh_player_id s =? pid))
          (season_skill_history skill_db))).

Definition earlier_ssh_of (skill_db : Db R) (rr : RoundRange)
    (p : PlayerRow) : list (SeasonSkillHistoryRow R) :=
  filter (fun e => (players_player_id p =? ssh_player_id e)
                   && sql_eq_opt (ssh_round_id e)
                        (ssh_before skill_db (fst rr) (players_player_id p)))
    (season_skill_history skill_db).

Definition later_ssh_of (skill_db : Db R) (rr : RoundRange)
    (p : PlayerRow) : list (SeasonSkillHistoryRow R) :=
  filter (fun l => (players_player_id p =? ssh_player_id l)
                   && sql_eq_opt (ssh_round_id l)
                        (ssh_after skill_db (snd rr) (players_player_id p)))
    (season_skill_history skill_db).

(** players JOIN season_skill_history earlier_ssh ON ...
            JOIN season_skill_history later_ssh ON ... *)
Definition select_skill_changes (skill_db : Db R) (rr : RoundRange)
  : list (Z * string * R * R * R * R) :=
  fetch
    (flat_map
       (fun p =>
          flat_map
            (fun e =>
               map (fun l =>
                      (players_player_id p, players_steam_name p,
                       ssh_skill_mean e, ssh_skill_stdev e,
                       ssh_skill_mean l, ssh_skill_stdev l))
                 (later_ssh_of skill_db rr p))
            (earlier_ssh_of skill_db rr p))
       (players skill_db)).

Definition skill_change_of_row (row : Z * string * R * R * R * R)
  : Player R * Player R :=
  let '(pid, name, earlier_mean, earlier_stdev, later_mean, later_stdev) :=
    row in
  ({| player_id := pid; steam_name := name; skill_mean := earlier_mean;
      skill_stdev := earlier_stdev; impact_rating := nzero |},
   {| player_id := pid; steam_name := name; skill_mean := later_mean;
      skill_stdev := later_stdev; impact_rating := nzero |}).

(** The sort key [-change[1].mmr], compared ascending. *)
Definition by_neg_later_mmr (a b : Player R * Player R) : bool :=
  (- mmr (snd a) <=? - mmr (snd b)).

Definition skill_group_differs (change : Player R * Player R) : bool :=
  negb (String.eqb (skill_group (fst change)) (skill_group (snd change))).

Definition get_skill_changes_between_rounds
    (skill_db : Db R) (round_range : RoundRange)
  : Py (list (Player R * Player R)) :=
  skill_change_rows <-
    execute SelectSkillChanges
      (select_skill_changes skill_db round_range) ;;
  let skill_changes :=
    stable_sort by_neg_later_mmr
      (map skill_change_of_row skill_change_rows) in
  ret (filter skill_group_differs skill_changes).

(** *** [get_highlights] *)

Definition shape_skill_change (change : Player R * Player R)
  : SkillGroupChange :=
  let '(previous_skill, next_skill) := change in
  {| sgc_player_id := player_id previous_skill;
     sgc_steam_name := steam_name previous_skill;
     sgc_previous_skill :=
       {| sk_mmr := mmr previous_skill;
          sk_skill_group := skill_group previous_skill |};
     sgc_next_skill :=
       {| sk_mmr := mmr next_skill;
          sk_skill_group := skill_group next_skill |} |}.

Definition get_highlights (skill_db : Db R) (day : Dt) : Py (Digest R) :=
  '(round_range, rounds_played) <- get_round_range_for_day skill_db day ;;
  if (rounds_played =? 0)%nat then raise StopIteration
  else
    '(lowest_rating, highest_rating) <-
        get_rating_extremes_between_rounds skill_db round_range ;;
    most_mvps <-
        try_except_StopIteration
          (m <- get_player_with_most_mvps_between_rounds
                  skill_db round_range ;;
           ret (Some m))
          (ret None) ;;
    skill_group_changes <-
        get_skill_changes_between_rounds skill_db round_range ;;
    most_played_maps <-
        get_most_played_maps_between_rounds skill_db round_range ;;
    let skill_group_changes :=
      map shape_skill_change skill_group_changes in
    let time_window := (isoformat day, isoformat (plus_one_day day)) in
    ret {| time_window := time_window;
           rounds_played := rounds_played;
           lowest_rating := lowest_rating;
           highest_rating := highest_rating;
           season_skill_group_changes := skill_group_changes;
           most_played_maps := most_played_maps;
           most_mvps := most_mvps |}.
End Highlights.

(** * Vocabulary of the properties *)

(** ** Days *)

(** The closed day: the stored text of the round's creation lies between
    the texts bound for [day] and for [day + 1 day], both included. *)
Definition in_closed_day {Dt} {D : PyDatetime Dt} (day : Dt) (r : RoundRow)
  : Prop :=
  String.leb (adapt_datetime day) (created_at r) = true
  /\ String.leb (created_at r) (adapt_datetime (plus_one_day day)) = true.

Definition closed_dayb {Dt} {D : PyDatetime Dt} (day : Dt) (r : RoundRow)
  : bool :=
  String.leb (adapt_datetime day) (created_at r)
  && String.leb (created_at r) (adapt_datetime (plus_one_day day)).

(** The half-open day [[day, day+1)] of the specification. *)
Definition in_half_open_day {Dt} {D : PyDatetime Dt} (day : Dt)
    (r : RoundRow) : Prop :=
  String.leb (adapt_datetime day) (created_at r) = true
  /\ String.ltb (created_at r) (adapt_datetime (plus_one_day day)) = true.

(** Strictly between the two bounds. *)
Definition strictly_in_day {Dt} {D : PyDatetime Dt} (day : Dt)
    (r : RoundRow) : Prop :=
  String.ltb (adapt_datetime day) (created_at r) = true
  /\ String.ltb (created_at r) (adapt_datetime (plus_one_day day)) = true.

(** ** Snapshots bracketing a window *)

(** The snapshot of player [pid] with the greatest round identifier at or
    before [first]. *)
Definition is_earlier_snapshot {R} (skill_db : Db R) (first pid : Z)
    (e : SeasonSkillHistoryRow R) : Prop :=
  In e (season_skill_history skill_db)
  /\ ssh_player_id e = pid
  /\ ssh_round_id e <= first
  /\ forall s, In s (season_skill_history skill_db) ->
               ssh_player_id s = pid -> ssh_round_id s <= first ->
               ssh_round_id s <= ssh_round_id e.

(** The snapshot of player [pid] with the least round identifier at or
    after [last]. *)
Definition is_later_snapshot {R} (skill_db : Db R) (last pid : Z)
    (l : SeasonSkillHistoryRow R) : Prop :=
  In l (season_skill_history skill_db)
  /\ ssh_player_id l = pid
  /\ last <= ssh_round_id l
  /\ forall s, In s (season_skill_history skill_db) ->
               ssh_player_id s = pid -> last <= ssh_round_id s ->
               ssh_round_id l <= ssh_round_id s.

(** The record the detector is to report for player [p] at snapshot [s]:
    the player's identifier and name, the snapshot's skill mean and
    standard deviation, and an impact rating of zero. *)
Definition player_at_snapshot {R} {N : Num R} (p : PlayerRow)
    (s : SeasonSkillHistoryRow R) : Player R :=
  {| player_id := players_player_id p;
     steam_name := players_steam_name p;
     skill_mean := ssh_skill_mean s;
     skill_stdev := ssh_skill_stdev s;
     impact_rating := nzero |}.

(** The skill group label of a snapshot. *)
Definition snapshot_label {R} {S : SkillModel R}
    (s : SeasonSkillHistoryRow R) : string :=
  skill_group_of (ssh_skill_mean s) (ssh_skill_stdev s).

(** ** Rating components of a player *)

(** The rating-component rows of player [pid] in the range. *)
Definition player_rows {R} (skill_db : Db R) (rr : RoundRange) (pid : Z)
  : list (RatingComponentsRow R) :=
  filter (fun rc => in_range rr (rc_round_id rc) && (pid =? rc_player_id rc))
    (rating_components skill_db).

Definition components_of {R} {N : Num R} (pid : Z)
    (g : list (RatingComponentsRow R)) : @Components R :=
  {| c_player_id := pid;
     average_kills := sql_avg (@kill_rating R) g;
     average_deaths := sql_avg (@death_rating R) g;
     average_damage := sql_avg (@damage_rating R) g;
     average_kas := sql_avg (@kas_rating R) g;
     c_rounds_played := length g |}.

(** The record built from a joined pair of rows. *)
Definition extreme_of {R} {N : Num R} (p : PlayerRow)
    (ir : R * @Components R) : RatingExtreme R :=
  {| re_player_id := players_player_id p;
     re_steam_name := players_steam_name p;
     re_impact_rating := fst ir;
     re_average_kills := average_kills (snd ir);
     re_average_deaths := nopp (average_deaths (snd ir));
     re_average_damage := average_damage (snd ir);
     re_average_kas := average_kas (snd ir);
     re_rounds_played := c_rounds_played (snd ir) |}.

(** ** Counts *)

(** The number of rounds in the range whose MVP is player [pid]. *)
Definition mvp_count {R} (skill_db : Db R) (rr : RoundRange) (pid : Z) : nat :=
  length (filter (fun r => in_range rr (round_id r)
                           && match mvp r with
                              | Some m => m =? pid
                              | None => false
                              end)
            (rounds skill_db)).

Definition mvp_key (pr : PlayerRow * RoundRow) : Z * string :=
  (players_player_id (fst pr), players_steam_name (fst pr)).

(** The number of rounds in the range played on a map called [name]. *)
Definition rounds_on_map {R} (skill_db : Db R) (rr : RoundRange)
    (name : string) : nat :=
  length
    (filter (fun r =>
               in_range rr (round_id r)
               && existsb (fun m => (map_id r =? maps_map_id m)
                                    && String.eqb name (map_name m))
                    (maps skill_db))
       (rounds skill_db)).

Definition map_key (rm : RoundRow * MapRow) : string := map_name (snd rm).


(** ** The scan of [GROUP BY] *)

Section Grouped.
Variables (K A : Type) (keqb : K -> K -> bool) (key : A -> K).

(** The invariant of the scan. *)
Definition grouped (l : list A) (gs : list (K * list A)) : Prop :=
  NoDup (map fst gs)
  /\ (forall k g, In (k, g) gs -> g = filter (fun a => keqb k (key a)) l /\ g <> [])
  /\ (forall a, In a l -> In (key a) (map fst gs)).
End Grouped.

(** ** Further constraints of the data model *)

(** Modelled from the spec: the data model lets a round refer to its map,
    keys a skill-history snapshot by player and round, and says that round
    identifiers increase with creation order (here: with the order of the
    stored creation texts, which is the order of time when all are written
    in one format). *)
Definition rounds_map_fk {R} (skill_db : Db R) : Prop :=
  forall r, In r (rounds skill_db) ->
    exists m, In m (maps skill_db) /\ maps_map_id m = map_id r.

Definition skill_history_pk {R} (skill_db : Db R) : Prop :=
  NoDup (map (fun s => (ssh_player_id s, ssh_round_id s))
           (season_skill_history skill_db)).

Definition round_ids_follow_time {R} (skill_db : Db R) : Prop :=
  forall r1 r2, In r1 (rounds skill_db) -> In r2 (rounds skill_db) ->
    round_id r1 <= round_id r2 ->
    String.leb (created_at r1) (created_at r2) = true.

(** The key of a skill-history snapshot and the player column of a row of
    the skill-change statement. *)
Definition ssh_key {R} (s : SeasonSkillHistoryRow R) : Z * Z :=
  (ssh_player_id s, ssh_round_id s).

Definition row_player_id {R} (row : Z * string * R * R * R * R) : Z :=
  fst (fst (fst (fst (fst row)))).

(** The five statements of a digest, in the order they are sent. *)
Definition digest_statements : list Statement :=
  [SelectRoundRange; SelectRatingExtremes; SelectMostMvps;
   SelectSkillChanges; SelectMostPlayedMaps].

(** The [most_mvps] field built from the rows of the MVP statement. *)
Definition most_mvps_of_rows (rows : list (Z * string * nat))
  : option MostMvps :=
  match rows with
  | [] => None
  | (pid, name, n) :: _ =>
      Some {| mm_player_id := pid; mm_steam_name := name; mm_mvps := n |}
  end.

(** ** A [datetime] to run the functions on

    Naive or with a fixed UTC offset, with the calendar arithmetic and the
    ISO 8601 rendering of Python's [datetime]: four digits for the year,
    two for the other fields, the microseconds only when they are not zero,
    then the offset of an aware value. *)

Module Datetime.
Record t : Type := {
  year : nat;
  month : nat;
  day : nat;
  hour : nat;
  minute : nat;
  second : nat;
  microsecond : nat;
  utcoffset : option string   (* as rendered: "+00:00", "-05:00", ... *)
}.

Definition decimal (n : nat) : string :=
  NilZero.string_of_uint (Nat.to_uint n).

Fixpoint zeros (k : nat) : string :=
  match k with
  | O => EmptyString
  | Datatypes.S k' => String "0" (zeros k')
  end.

Definition pad (width n : nat) : string :=
  (zeros (width - String.length (decimal n)) ++ decimal n)%string.

Definition is_leap (y : nat) : bool :=
  ((y mod 4 =? 0) && (negb (y mod 100 =? 0) || (y mod 400 =? 0)))%nat.

Definition days_in_month (y m : nat) : nat :=
  match m with
  | 2 => if is_leap y then 29 else 28
  | 4 | 6 | 9 | 11 => 30
  | _ => 31
  end%nat.

(** [d + datetime.timedelta(days=1)]: the next calendar day, same time of
    day, same [tzinfo]. *)
Definition add_one_day (d : t) : t :=
  if (day d <? days_in_month (year d) (month d))%nat then
    {| year := year d; month := month d; day := Datatypes.S (day d);
       hour := hour d; minute := minute d; second := second d;
       microsecond := microsecond d; utcoffset := utcoffset d |}
  else if (month d <? 12)%nat then
    {| year := year d; month := Datatypes.S (month d); day := 1;
       hour := hour d; minute := minute d; second := second d;
       microsecond := microsecond d; utcoffset := utcoffset d |}
  else
    {| year := Datatypes.S (year d); month := 1; day := 1;
       hour := hour d; minute := minute d; second := second d;
       microsecond := microsecond d; utcoffset := utcoffset d |}.

(** [d.isoformat(sep)] *)
Definition isoformat_sep (sep : string) (d : t) : string :=
  (pad 4 (year d) ++ "-" ++ pad 2 (month d) ++ "-" ++ pad 2 (day d)
   ++ sep
   ++ pad 2 (hour d) ++ ":" ++ pad 2 (minute d) ++ ":" ++ pad 2 (second d)
   ++ (if (microsecond d =? 0)%nat then ""
       else "." ++ pad 6 (microsecond d))
   ++ match utcoffset d with Some o => o | None => "" end)%string.

#[global] Instance py : PyDatetime t := {|
  plus_one_day := add_one_day;
  isoformat := isoformat_sep "T";
  adapt_datetime := isoformat_sep " "
|}.

(** Midnight of a calendar day, naive or at UTC. *)
Definition midnight (y m d : nat) : t :=
  {| year := y; month := m; day := d; hour := 0; minute := 0; second := 0;
     microsecond := 0; utcoffset := None |}.

(** [d.replace(tzinfo=None)] *)
Definition as_naive (d : t) : t :=
  {| year := year d; month := month d; day := day d; hour := hour d;
     minute := minute d; second := second d;
     microsecond := microsecond d; utcoffset := None |}.

Definition midnight_utc (y m d : nat) : t :=
  {| year := y; month := m; day := d; hour := 0; minute := 0; second := 0;
     microsecond := 0; utcoffset := Some "+00:00"%string |}.
End Datetime.

(** ** A small database over the rationals, used to run the functions *)

Module Example.
#[global] Instance coefficients : Coefficients Q :=
  {| COEFFICIENTS := (2#1, (-1)#1, 1#2, 1#1, 1#10)%Q |}.

#[global] Instance skill_model : SkillModel Q :=
  {| mmr_of := fun mean stdev => Qfloor (mean - (2#1) * stdev)%Q;
     skill_group_of := fun mean stdev =>
       if Qfloor (mean - (2#1) * stdev)%Q <? 1000
       then "Silver"%string else "Gold"%string |}.

Definition alice : PlayerRow :=
  {| players_player_id := 1; players_steam_name := "alice" |}.
Definition bob : PlayerRow :=
  {| players_player_id := 2; players_steam_name := "bob" |}.
Definition carol : PlayerRow :=
  {| players_player_id := 3; players_steam_name := "carol" |}.

Definition dust2 : MapRow :=
  {| maps_map_id := 10; map_name := "de_dust2" |}.
Definition mirage : MapRow :=
  {| maps_map_id := 11; map_name := "de_mirage" |}.

Definition rc (p r : Z) (k d dmg kas : Q) : RatingComponentsRow Q :=
  {| rc_player_id := p; rc_round_id := r; kill_rating := k;
     death_rating := d; damage_rating := dmg; kas_rating := kas |}.

Definition ssh (p r : Z) (mean stdev : Q) : SeasonSkillHistoryRow Q :=
  {| ssh_player_id := p; ssh_round_id := r;
     ssh_skill_mean := mean; ssh_skill_stdev := stdev |}.

(** The days of the examples: 1, 2 and 6 January 1970, naive. *)
Definition day0 : Datetime.t := Datetime.midnight 1970 1 1.
Definition day1 : Datetime.t := Datetime.midnight 1970 1 2.
Definition day5 : Datetime.t := Datetime.midnight 1970 1 6.

(** Three rounds on day 0; alice moves from Silver to Gold, bob's skill
    mean moves inside Gold, carol has a single snapshot inside the
    window. *)
Definition db : Db Q := {|
  rounds :=
    [ {| round_id := 1; created_at := "1970-01-01 00:16:40"; map_id := 10;
         mvp := Some 1 |};
      {| round_id := 2; created_at := "1970-01-01 00:33:20"; map_id := 11;
         mvp := Some 2 |};
      {| round_id := 3; created_at := "1970-01-01 00:50:00"; map_id := 10;
         mvp := Some 1 |} ];
  maps := [dust2; mirage];
  players := [alice; bob; carol];
  rating_components :=
    [ rc 1 1 (1#1) (1#2) (2#1) (1#1);
      rc 2 1 (1#2) (1#1) (1#1) (0#1);
      rc 1 3 (3#1) (1#2) (4#1) (0#1);
      rc 2 2 (1#2) (1#1) (1#1) (1#1) ]%Q;
  season_skill_history :=
    [ ssh 1 0 (1000#1) (10#1);
      ssh 2 1 (1500#1) (10#1);
      ssh 3 2 (700#1) (10#1);
      ssh 1 3 (1100#1) (10#1);
      ssh 2 3 (1600#1) (10#1) ]%Q
|}.

(** One round created exactly at midnight between day 0 and day 1. *)
Definition boundary_db : Db Q := {|
  rounds :=
    [ {| round_id := 7; created_at := "1970-01-02 00:00:00"; map_id := 10;
         mvp := None |} ];
  maps := [dust2];
  players := [alice];
  rating_components := [];
  season_skill_history := []
|}.

(** Rounds were played but nobody has rating components. *)
Definition no_ratings_db : Db Q := {|
  rounds :=
    [ {| round_id := 1; created_at := "1970-01-01 00:16:40"; map_id := 10;
         mvp := Some 1 |} ];
  maps := [dust2];
  players := [alice];
  rating_components := [];
  season_skill_history := []
|}.

(** Rounds with rating components and no MVP. *)
Definition no_mvp_db : Db Q := {|
  rounds :=
    [ {| round_id := 1; created_at := "1970-01-01 00:16:40"; map_id := 10;
         mvp := None |};
      {| round_id := 2; created_at := "1970-01-01 00:33:20"; map_id := 11;
         mvp := None |} ];
  maps := [dust2; mirage];
  players := [alice; bob];
  rating_components :=
    [ rc 1 1 (1#1) (1#2) (2#1) (1#1);
      rc 2 2 (1#2) (1#1) (1#1) (1#1) ]%Q;
  season_skill_history := []
|}.
End Example.

(** * Properties *)

(** ** [MIN] and [MAX] *)

Section MinMax.
Variables (A : Type) (leb : A -> A -> bool).
Hypothesis leb_total : forall x y, leb x y = true \/ leb y x = true.
Hypothesis leb_trans :
  forall x y z, leb x y = true -> leb y z = true -> leb x z = true.

Lemma leb_refl : forall x, leb x x = true.
Proof. intro x. destruct (leb_total x x); assumption. Qed.

Lemma fold_min_spec : forall t x,
    let m := fold_left (fun m y => if leb m y then m else y) t x in
    In m (x :: t) /\ forall y, In y (x :: t) -> leb m y = true.
Proof.
  induction t as [|a t IH]; intros x; simpl.
  - split; [now left|]. intros y [<-|[]]. apply leb_refl.
  - destruct (leb x a) eqn:Hxa.
    + destruct (IH x) as [Hin Hle]. simpl in Hin. split.
      * destruct Hin as [Hin|Hin]; [left; exact Hin|right; right; exact Hin].
      * intros y [<-|[<-|Hy]].
        -- apply Hle. now left.
        -- apply leb_trans with x; [apply Hle; now left|assumption].
        -- apply Hle. now right.
    + destruct (IH a) as [Hin Hle]. simpl in Hin. split.
      * destruct Hin as [Hin|Hin]; [right; left; exact Hin|right; right; exact Hin].
      * assert (Hax : leb a x = true)
          by (destruct (leb_total a x); congruence).
        intros y [<-|[<-|Hy]].
        -- apply leb_trans with a; [apply Hle; now left|assumption].
        -- apply Hle. now left.
        -- apply Hle. now right.
Qed.

Lemma fold_max_spec : forall t x,
    let m := fold_left (fun m y => if leb m y then y else m) t x in
    In m (x :: t) /\ forall y, In y (x :: t) -> leb y m = true.
Proof.
  induction t as [|a t IH]; intros x; simpl.
  - split; [now left|]. intros y [<-|[]]. apply leb_refl.
  - destruct (leb x a) eqn:Hxa.
    + destruct (IH a) as [Hin Hle]. simpl in Hin. split.
      * destruct Hin as [Hin|Hin]; [right; left; exact Hin|right; right; exact Hin].
      * intros y [<-|[<-|Hy]].
        -- apply leb_trans with a; [assumption|apply Hle; now left].
        -- apply Hle. now left.
        -- apply Hle. now right.
    + destruct (IH x) as [Hin Hle]. simpl in Hin. split.
      * destruct Hin as [Hin|Hin]; [left; exact Hin|right; right; exact Hin].
      * assert (Hax : leb a x = true)
          by (destruct (leb_total a x); congruence).
        intros y [<-|[<-|Hy]].
        -- apply Hle. now left.
        -- apply leb_trans with x; [assumption|apply Hle; now left].
        -- apply Hle. now right.
Qed.

Lemma sql_min_some : forall l m,
    sql_min leb l = Some m ->
    In m l /\ forall y, In y l -> leb m y = true.
Proof.
  intros [|x t] m H; [discriminate|].
  injection H as <-. apply fold_min_spec.
Qed.

Lemma sql_max_some : forall l m,
    sql_max leb l = Some m ->
    In m l /\ forall y, In y l -> leb y m = true.
Proof.
  intros [|x t] m H; [discriminate|].
  injection H as <-. apply fold_max_spec.
Qed.

Lemma sql_min_none : forall l, sql_min leb l = None <-> l = [].
Proof. intros [|x t]; simpl; split; congruence. Qed.

Lemma sql_max_none : forall l, sql_max leb l = None <-> l = [].
Proof. intros [|x t]; simpl; split; congruence. Qed.

Lemma sql_min_nonempty : forall l, l <> [] -> exists m, sql_min leb l = Some m.
Proof. intros [|x t] H; [congruence|]. simpl. eauto. Qed.

Lemma sql_max_nonempty : forall l, l <> [] -> exists m, sql_max leb l = Some m.
Proof. intros [|x t] H; [congruence|]. simpl. eauto. Qed.

(** ** The stable sort *)

Lemma insert_sorted_perm : forall x l,
    Permutation (x :: l) (insert_sorted leb x l).
Proof.
  intros x l. induction l as [|y t IH]; simpl.
  - apply Permutation_refl.
  - destruct (leb x y).
    + apply Permutation_refl.
    + eapply perm_trans; [apply perm_swap|].
      now apply perm_skip.
Qed.

Lemma stable_sort_perm : forall l, Permutation l (stable_sort leb l).
Proof.
  induction l as [|x t IH]; simpl.
  - apply perm_nil.
  - eapply perm_trans; [apply perm_skip, IH|apply insert_sorted_perm].
Qed.

Lemma insert_sorted_sorted : forall x l,
    StronglySorted (fun a b => leb a b = true) l ->
    StronglySorted (fun a b => leb a b = true) (insert_sorted leb x l).
Proof.
  intros x l Hs. induction Hs as [|y t Hs IH Hall]; simpl.
  - constructor; constructor.
  - destruct (leb x y) eqn:Hxy.
    + constructor.
      * now constructor.
      * constructor; [assumption|].
        rewrite Forall_forall in *. intros z Hz.
        apply leb_trans with y; auto.
    + constructor; [assumption|].
      rewrite Forall_forall in *. intros z Hz.
      apply Permutation_in with (l' := x :: t) in Hz;
        [|apply Permutation_sym, insert_sorted_perm].
      destruct Hz as [<-|Hz]; auto.
      destruct (leb_total x y); congruence.
Qed.

Lemma stable_sort_sorted : forall l,
    StronglySorted (fun a b => leb a b = true) (stable_sort leb l).
Proof.
  induction l as [|x t IH]; simpl.
  - constructor.
  - now apply insert_sorted_sorted.
Qed.

(** The first element of a sorted list is below, and the last above,
    every element. *)
Lemma sorted_head_least : forall x l y,
    StronglySorted (fun a b => leb a b = true) (x :: l) ->
    In y (x :: l) -> leb x y = true.
Proof.
  intros x l y Hs [<-|Hy]; [apply leb_refl|].
  inversion Hs as [|? ? _ Hall]; subst.
  rewrite Forall_forall in Hall. auto.
Qed.

Lemma sorted_last_greatest : forall l d y,
    StronglySorted (fun a b => leb a b = true) l ->
    In y l -> leb y (last l d) = true.
Proof.
  intros l d y Hs. revert y.
  induction Hs as [|x t Hs IH Hall]; intros y Hy; [destruct Hy|].
  destruct t as [|z t'].
  - destruct Hy as [<-|[]]. simpl. apply leb_refl.
  - change (last (x :: z :: t') d) with (last (z :: t') d).
    destruct Hy as [<-|Hy].
    + rewrite Forall_forall in Hall. apply Hall.
      clear. generalize z. induction t' as [|w t' IH]; intro z0.
      * now left.
      * change (last (z0 :: w :: t') d) with (last (w :: t') d).
        right. apply IH.
    + now apply IH.
Qed.
End MinMax.

Lemma strongly_sorted_map :
  forall (A B : Type) (f : A -> B) (le : B -> B -> Prop) (l : list A),
    StronglySorted (fun a b => le (f a) (f b)) l ->
    StronglySorted le (map f l).
Proof.
  intros A B f le l H. induction H as [|a l H IH Hall]; simpl;
    constructor; [exact IH|].
  rewrite Forall_forall in *. intros b Hb.
  apply in_map_iff in Hb as (x & <- & Hx). now apply Hall.
Qed.

Lemma strongly_sorted_impl :
  forall (A : Type) (P Q : A -> A -> Prop) (l : list A),
    (forall a b, P a b -> Q a b) ->
    StronglySorted P l -> StronglySorted Q l.
Proof.
  intros A P Q l HPQ H. induction H as [|a l H IH Hall]; constructor;
    [exact IH|].
  rewrite Forall_forall in *. intros b Hb. apply HPQ. now apply Hall.
Qed.



(** The sort is stable: elements that compare equal keep the order they had
    in the input. *)
Section Stability.
Variables (A : Type) (leb : A -> A -> bool) (before : A -> A -> Prop).
Hypothesis leb_total : forall x y, leb x y = true \/ leb y x = true.
Hypothesis leb_trans :
  forall x y z, leb x y = true -> leb y z = true -> leb x z = true.


End Stability.

Lemma last_in : forall (A : Type) (l : list A) (d : A),
    l <> [] -> In (last l d) l.
Proof.
  induction l as [|x t IH]; intros d H; [congruence|].
  destruct t as [|y t'].
  - now left.
  - change (last (x :: y :: t') d) with (last (y :: t') d).
    right. apply IH. discriminate.
Qed.

Lemma filter_none : forall (A : Type) (f : A -> bool) (l : list A),
    (forall a, In a l -> f a = false) -> filter f l = [].
Proof.
  intros A f l. induction l as [|x t IH]; simpl; intros H; [reflexivity|].
  rewrite (H x) by now left. apply IH. intros a Ha. apply H. now right.
Qed.

(** ** [GROUP BY]: one group per key, holding exactly the rows of that key *)

Section GroupByFacts.
Variables (K A : Type) (keqb : K -> K -> bool) (key : A -> K).
Hypothesis keqb_spec : forall x y, keqb x y = true <-> x = y.

Lemma keqb_false : forall x y, x <> y -> keqb x y = false.
Proof.
  intros x y H. destruct (keqb x y) eqn:Hk; [|reflexivity].
  apply keqb_spec in Hk. contradiction.
Qed.

Lemma add_to_group_keys : forall k (a : A) gs,
    In k (map fst gs) ->
    map fst (add_to_group keqb k a gs) = map fst gs.
Proof.
  intros k a gs. induction gs as [|[k' g] gs IH]; simpl; intros Hin.
  - destruct Hin.
  - destruct (keqb k' k) eqn:Hk; simpl; [reflexivity|].
    f_equal. apply IH. destruct Hin as [->|Hin]; [|assumption].
    rewrite (proj2 (keqb_spec k k) eq_refl) in Hk. discriminate.
Qed.

Lemma add_to_group_new_key : forall k (a : A) gs,
    ~ In k (map fst gs) ->
    add_to_group keqb k a gs = gs ++ [(k, [a])].
Proof.
  intros k a gs. induction gs as [|[k' g] gs IH]; simpl; intros Hnin.
  - reflexivity.
  - rewrite keqb_false by (intros ->; apply Hnin; now left).
    f_equal. apply IH. tauto.
Qed.

Lemma add_to_group_in : forall k (a : A) gs k' g',
    In k (map fst gs) -> NoDup (map fst gs) ->
    In (k', g') (add_to_group keqb k a gs) ->
    (k' = k /\ exists g0, In (k, g0) gs /\ g' = g0 ++ [a])
    \/ (k' <> k /\ In (k', g') gs).
Proof.
  intros k a gs k' g'.
  induction gs as [|[k1 g1] gs IH]; simpl; intros Hin Hnd H.
  - destruct Hin.
  - inversion Hnd as [|? ? Hn1 Hnd']; subst.
    destruct (keqb k1 k) eqn:Hk.
    + apply keqb_spec in Hk. subst k1.
      destruct H as [H|H].
      * injection H as <- <-. left. split; [reflexivity|].
        exists g1. split; [now left|reflexivity].
      * right. split; [|now right].
        intros ->. apply Hn1. now apply (in_map fst) in H.
    + assert (Hne : k1 <> k)
        by (intros ->; rewrite (proj2 (keqb_spec k k) eq_refl) in Hk;
            discriminate).
      destruct H as [H|H].
      * injection H as <- <-. right. split; [assumption|now left].
      * destruct Hin as [Hin|Hin]; [contradiction|].
        destruct (IH Hin Hnd' H) as [[-> [g0 [Hg0 ->]]]|[Hk' Hin']].
        -- left. split; [reflexivity|]. exists g0. split; [now right|reflexivity].
        -- right. split; [assumption|now right].
Qed.

Lemma grouped_step : forall l gs a,
    grouped keqb key l gs ->
    grouped keqb key (l ++ [a]) (add_to_group keqb (key a) a gs).
Proof.
  intros l gs a (Hnd & Hg & Hc).
  destruct (in_dec
              (fun x y : K =>
                 match bool_dec (keqb x y) true with
                 | left e => left (proj1 (keqb_spec x y) e)
                 | right n => right (fun e => n (proj2 (keqb_spec x y) e))
                 end)
              (key a) (map fst gs)) as [Hin|Hnin].
  - repeat split.
    + now rewrite add_to_group_keys.
    + destruct (@add_to_group_in (key a) a gs k g Hin Hnd H)
        as [[-> [g0 [Hg0 ->]]]|[Hne Hin']].
      * rewrite filter_app. simpl.
        rewrite (proj2 (keqb_spec _ _) eq_refl).
        now rewrite <- (proj1 (Hg _ _ Hg0)).
      * rewrite filter_app. simpl.
        rewrite keqb_false by assumption.
        rewrite app_nil_r. apply (Hg _ _ Hin').
    + destruct (@add_to_group_in (key a) a gs k g Hin Hnd H)
        as [[-> [g0 [Hg0 ->]]]|[Hne Hin']].
      * intro Hnil. now apply app_eq_nil in Hnil as [_ Hnil].
      * apply (Hg _ _ Hin').
    + intros b Hb. rewrite add_to_group_keys by assumption.
      apply in_app_or in Hb as [Hb|[<-|[]]]; auto.
  - rewrite add_to_group_new_key by assumption. repeat split.
    + rewrite map_app. simpl.
      apply Permutation_NoDup with (l := key a :: map fst gs).
      * apply Permutation_cons_append.
      * now constructor.
    + apply in_app_or in H as [H|[H|[]]].
      * rewrite filter_app. simpl.
        rewrite keqb_false.
        -- rewrite app_nil_r. apply (Hg _ _ H).
        -- intros ->. apply Hnin. now apply (in_map fst) in H.
      * injection H as <- <-. rewrite filter_app. simpl.
        rewrite (proj2 (keqb_spec _ _) eq_refl).
        rewrite filter_none; [reflexivity|].
        intros b Hb. apply keqb_false.
        intros Heq. apply Hnin. rewrite Heq. now apply Hc.
    + apply in_app_or in H as [H|[H|[]]].
      * apply (Hg _ _ H).
      * injection H as <- <-. discriminate.
    + intros b Hb. rewrite map_app. apply in_or_app.
      apply in_app_or in Hb as [Hb|[<-|[]]]; [left; auto|right; now left].
Qed.

Lemma group_by_grouped : forall l,
    grouped keqb key l (group_by keqb key l).
Proof.
  intros l. induction l as [|a l IH] using rev_ind.
  - repeat split; simpl; try constructor; intros; contradiction.
  - unfold group_by in *. rewrite fold_left_app. simpl.
    now apply grouped_step.
Qed.

Lemma group_by_keys_nodup : forall l,
    NoDup (map fst (group_by keqb key l)).
Proof. intros l. apply (group_by_grouped l). Qed.

Lemma group_by_in : forall l k g,
    In (k, g) (group_by keqb key l) ->
    g = filter (fun a => keqb k (key a)) l /\ g <> [].
Proof. intros l k g H. now apply (group_by_grouped l). Qed.

Lemma group_by_complete : forall l a,
    In a l -> exists g, In (key a, g) (group_by keqb key l).
Proof.
  intros l a Ha.
  destruct (group_by_grouped l) as (_ & _ & Hc).
  specialize (Hc a Ha). apply in_map_iff in Hc as [[k g] [Hk Hin]].
  simpl in Hk. subst k. now exists g.
Qed.

End GroupByFacts.

(** ** The engines and the rationals meet their contracts *)

Lemma sqlite_engine_ok : EngineOk sqlite_engine.
Proof.
  constructor; simpl.
  - intros A l. apply Permutation_refl.
  - intros K A kleb desc gs. apply stable_sort_perm.
  - intros A leb l. apply stable_sort_perm.
  - intros A leb l Htot Htr. now apply stable_sort_sorted.
Defined.

Lemma Q_NumOrder : NumOrder Q.
Proof.
  constructor; simpl.
  - intros x y. destruct (Qlt_le_dec x y) as [H|H].
    + left. apply Qle_bool_iff. now apply Qlt_le_weak.
    + right. now apply Qle_bool_iff.
  - intros x y z Hxy Hyz. apply Qle_bool_iff.
    apply Qle_bool_iff in Hxy. apply Qle_bool_iff in Hyz.
    now apply Qle_trans with y.
Defined.

Lemma Zleb_total : forall x y : Z, (x <=? y) = true \/ (y <=? x) = true.
Proof. intros x y. rewrite !Z.leb_le. lia. Qed.

Lemma Zleb_trans : forall x y z : Z,
    (x <=? y) = true -> (y <=? z) = true -> (x <=? z) = true.
Proof. intros x y z. rewrite !Z.leb_le. lia. Qed.

(** ** Rows survive the engine *)

Section EngineFacts.
Context {E : Engine} {EOk : EngineOk E}.

Lemma fetch_in : forall (A : Type) (l : list A) (x : A),
    In x (fetch l) <-> In x l.
Proof.
  intros A l x. split; apply Permutation_in;
    [apply Permutation_sym|]; apply fetch_perm.
Qed.

Lemma fetch_one : forall (A : Type) (x : A), fetch [x] = [x].
Proof.
  intros A x. apply Permutation_length_1_inv. apply fetch_perm.
Qed.

Lemma fetch_nil : forall (A : Type), fetch (@nil A) = [].
Proof. intros A. apply Permutation_nil. apply fetch_perm. Qed.

Lemma order_by_in : forall (A : Type) (leb : A -> A -> bool) l (x : A),
    In x (order_by leb l) <-> In x l.
Proof.
  intros A leb l x. split; apply Permutation_in;
    [apply Permutation_sym|]; apply order_by_perm.
Qed.

Lemma order_by_nil : forall (A : Type) (leb : A -> A -> bool),
    order_by leb (@nil A) = [].
Proof. intros A leb. apply Permutation_nil. apply order_by_perm. Qed.

Lemma group_order_in :
  forall (K A : Type) (kleb : K -> K -> bool) (desc : bool)
         (gs : list (K * list A)) (x : K * list A),
    In x (group_order kleb desc gs) <-> In x gs.
Proof.
  intros K A kleb desc gs x. split; apply Permutation_in;
    [apply Permutation_sym|]; apply group_order_perm.
Qed.

Lemma group_order_nil :
  forall (K A : Type) (kleb : K -> K -> bool) (desc : bool),
    group_order kleb desc (@nil (K * list A)) = [].
Proof.
  intros K A kleb desc. apply Permutation_nil. apply group_order_perm.
Qed.
End EngineFacts.

(** ** SQLite's order on TEXT *)

Lemma ascii_compare_refl : forall a : ascii, Ascii.compare a a = Eq.
Proof. intros a. unfold Ascii.compare. apply N.compare_refl. Qed.

Lemma string_compare_refl : forall s : string, String.compare s s = Eq.
Proof.
  induction s as [|a s IH]; simpl; [reflexivity|].
  now rewrite ascii_compare_refl.
Qed.

Lemma string_compare_le_trans : forall a b c : string,
    String.compare a b <> Gt -> String.compare b c <> Gt ->
    String.compare a c <> Gt.
Proof.
  induction a as [|x a IH]; intros [|y b] [|z c]; simpl; try congruence.
  unfold Ascii.compare.
  destruct (N.compare_spec (N_of_ascii x) (N_of_ascii y)) as [Hxy|Hxy|Hxy];
    destruct (N.compare_spec (N_of_ascii y) (N_of_ascii z)) as [Hyz|Hyz|Hyz];
    destruct (N.compare_spec (N_of_ascii x) (N_of_ascii z)) as [Hxz|Hxz|Hxz];
    try congruence; try lia.
  apply IH.
Qed.

Lemma string_leb_compare : forall a b : string,
    String.leb a b = true <-> String.compare a b <> Gt.
Proof.
  intros a b. unfold String.leb.
  destruct (String.compare a b); split; congruence.
Qed.

Lemma string_leb_refl : forall a : string, String.leb a a = true.
Proof. intros a. apply string_leb_compare. now rewrite string_compare_refl. Qed.

Lemma string_leb_trans : forall a b c : string,
    String.leb a b = true -> String.leb b c = true -> String.leb a c = true.
Proof.
  intros a b c. rewrite !string_leb_compare. apply string_compare_le_trans.
Qed.


Lemma string_ltb_not_leb : forall a b : string,
    String.ltb a b = true -> String.leb b a = false.
Proof.
  intros a b. unfold String.ltb, String.leb.
  rewrite (String.compare_antisym a b).
  destruct (String.compare b a); simpl; congruence.
Qed.


Lemma string_compare_append : forall p x y : string,
    String.compare (p ++ x) (p ++ y) = String.compare x y.
Proof.
  induction p as [|a p IH]; intros x y; simpl; [reflexivity|].
  now rewrite ascii_compare_refl.
Qed.

(** A text is below every proper extension of itself. *)
Lemma string_leb_extension : forall s o : string,
    o <> EmptyString -> String.leb (s ++ o) s = false.
Proof.
  intros s o Ho. unfold String.leb.
  replace (String.compare (s ++ o) s)
    with (String.compare (s ++ o) (s ++ EmptyString)).
  - rewrite string_compare_append. destruct o; [congruence|reflexivity].
  - f_equal. induction s as [|a s IH]; simpl; [reflexivity|now rewrite IH].
Qed.

(** ** The Round Window Resolver *)

Section RoundWindow.
Context {R : Type} {N : Num R} {E : Engine} {EOk : EngineOk E}
        {Dt : Type} {D : PyDatetime Dt}.

Lemma created_in_closed_day : forall day r,
    created_in day (plus_one_day day) r = true <-> in_closed_day day r.
Proof.
  intros day r. unfold created_in, sql_text_between, in_closed_day.
  rewrite andb_true_iff. tauto.
Qed.

Lemma get_round_range_for_day_run : forall (skill_db : Db R) day log,
    let w := filter (created_in day (plus_one_day day)) (rounds skill_db) in
    get_round_range_for_day skill_db day log =
    (Returned ((sql_min Z.leb (map round_id w),
                sql_max Z.leb (map round_id w)), length w),
     log ++ [SelectRoundRange]).
Proof.
  intros skill_db day log w.
  unfold get_round_range_for_day, select_round_range, execute_one,
    execute, bind.
  rewrite fetch_one. reflexivity.
Qed.

(** What the resolver returns, in terms of the rounds of the closed
    day. *)
Lemma round_window_spec : forall (skill_db : Db R) day log,
  exists first last n,
    get_round_range_for_day skill_db day log =
      (Returned ((first, last), n), log ++ [SelectRoundRange])
    /\ n = length (filter (closed_dayb day) (rounds skill_db))
    /\ (n = 0%nat -> first = None /\ last = None)
    /\ (forall r, In r (rounds skill_db) -> in_closed_day day r ->
          exists f l, first = Some f /\ last = Some l
                      /\ f <= round_id r <= l /\ (0 < n)%nat)
    /\ (forall f, first = Some f ->
          exists r, In r (rounds skill_db) /\ in_closed_day day r
                    /\ round_id r = f)
    /\ (forall l, last = Some l ->
          exists r, In r (rounds skill_db) /\ in_closed_day day r
                    /\ round_id r = l).
Proof.
  intros skill_db day log.
  pose proof (get_round_range_for_day_run skill_db day log) as Hrun.
  cbv zeta in Hrun.
  set (w := filter (created_in day (plus_one_day day)) (rounds skill_db))
    in Hrun.
  assert (Hw : forall r, In r w <->
                         In r (rounds skill_db) /\ in_closed_day day r).
  { intros r. unfold w. rewrite filter_In, created_in_closed_day.
    tauto. }
  exists (sql_min Z.leb (map round_id w)),
         (sql_max Z.leb (map round_id w)), (length w).
  split; [exact Hrun|]. split; [reflexivity|].
  split; [|split; [|split]].
  - intros Hn. apply length_zero_iff_nil in Hn. now rewrite Hn.
  - intros r Hr Hday.
    assert (Hin : In r w) by (apply Hw; tauto).
    assert (Hne : map round_id w <> []).
    { intro Hnil. apply map_eq_nil in Hnil. rewrite Hnil in Hin.
      destruct Hin. }
    destruct (sql_min_nonempty Z.leb Hne) as [f Hf].
    destruct (sql_max_nonempty Z.leb Hne) as [l Hl].
    exists f, l. rewrite Hf, Hl. repeat split.
    + apply (sql_min_some _ Zleb_total Zleb_trans) in Hf as [_ Hf].
      apply Z.leb_le, Hf. now apply in_map.
    + apply (sql_max_some _ Zleb_total Zleb_trans) in Hl as [_ Hl].
      apply Z.leb_le, Hl. now apply in_map.
    + destruct w; [destruct Hin|simpl; lia].
  - intros f Hf.
    apply (sql_min_some _ Zleb_total Zleb_trans) in Hf as [Hf _].
    apply in_map_iff in Hf as [r [Hid Hr]]. exists r.
    apply Hw in Hr. tauto.
  - intros l Hl.
    apply (sql_max_some _ Zleb_total Zleb_trans) in Hl as [Hl _].
    apply in_map_iff in Hl as [r [Hid Hr]]. exists r.
    apply Hw in Hr. tauto.
Qed.

End RoundWindow.

(** C2 (amended): the resolver selects the rounds whose stored creation
    text lies between the texts bound for [day] and for [day + 1 day], both
    bounds included (SQL [BETWEEN], compared the way SQLite compares TEXT).
    It returns the least and the greatest identifier of those rounds and
    their number (no bounds when there is none).  A round strictly between
    the two bounds is selected for no day whose lower bound is at or above
    the upper bound of [day], the next day among them, and for no day whose
    upper bound is at or below the lower bound of [day], the day before
    among them.  A round whose stored text is the bound of [day + 1 day] is
    selected for [day] when the bound of [day] is not above it, and also
    for [day + 1 day] when the bound of the day after is not below it. *)
Theorem round_window_closed_interval :
  forall (R : Type) (N : Num R) (E : Engine) (EOk : EngineOk E)
         (Dt : Type) (D : PyDatetime Dt)
         (skill_db : Db R) (day : Dt) (log : list Statement),
  exists first last n,
    get_round_range_for_day skill_db day log =
      (Returned ((first, last), n), log ++ [SelectRoundRange])
    /\ n = length (filter (closed_dayb day) (rounds skill_db))
    /\ (n = 0%nat -> first = None /\ last = None)
    /\ (forall r, In r (rounds skill_db) -> in_closed_day day r ->
          exists f l, first = Some f /\ last = Some l
                      /\ f <= round_id r <= l)
    /\ (forall f, first = Some f ->
          exists r, In r (rounds skill_db) /\ in_closed_day day r
                    /\ round_id r = f)
    /\ (forall l, last = Some l ->
          exists r, In r (rounds skill_db) /\ in_closed_day day r
                    /\ round_id r = l)
    /\ (forall r other, strictly_in_day day r ->
          String.leb (adapt_datetime (plus_one_day day))
            (adapt_datetime other) = true
          \/ String.leb (adapt_datetime (plus_one_day other))
               (adapt_datetime day) = true ->
          created_in other (plus_one_day other) r = false)
    /\ (forall r, strictly_in_day day r ->
          created_in (plus_one_day day) (plus_one_day (plus_one_day day)) r
          = false
          /\ forall before, plus_one_day before = day ->
               created_in before (plus_one_day before) r = false)
    /\ (forall r, In r (rounds skill_db) ->
          created_at r = adapt_datetime (plus_one_day day) ->
          String.leb (adapt_datetime day) (adapt_datetime (plus_one_day day))
          = true ->
          (exists f l, first = Some f /\ last = Some l
                       /\ f <= round_id r <= l /\ (0 < n)%nat)
          /\ (String.leb (adapt_datetime (plus_one_day day))
                (adapt_datetime (plus_one_day (plus_one_day day))) = true ->
              exists f' l' n',
                get_round_range_for_day skill_db (plus_one_day day) log =
                  (Returned ((Some f', Some l'), n'),
                   log ++ [SelectRoundRange])
                /\ f' <= round_id r <= l' /\ (0 < n')%nat)).
Proof.
  intros R N E EOk Dt D skill_db day log.
  destruct (round_window_spec skill_db day log)
    as (first & last & n & Hrun & Hn & Hzero & Hin & Hfirst & Hlast).
  exists first, last, n.
  repeat (split; [assumption|]).
  split; [|split; [assumption|split; [assumption|split; [|split]]]].
  - intros r Hr Hday. destruct (Hin r Hr Hday) as (f & l & ? & ? & ? & _).
    now exists f, l.
  - intros r other [Hlo Hhi] [Hafter|Hbefore];
      unfold created_in, sql_text_between.
    + destruct (String.leb (adapt_datetime other) (created_at r)) eqn:Hc;
        [|reflexivity].
      pose proof (string_leb_trans _ _ _ Hafter Hc) as Hle.
      rewrite (string_ltb_not_leb _ _ Hhi) in Hle. discriminate.
    + destruct (String.leb (created_at r)
                  (adapt_datetime (plus_one_day other))) eqn:Hc;
        [|apply andb_false_r].
      pose proof (string_leb_trans _ _ _ Hc Hbefore) as Hle.
      rewrite (string_ltb_not_leb _ _ Hlo) in Hle. discriminate.
  - intros r [Hlo Hhi]. split.
    + unfold created_in, sql_text_between.
      now rewrite (string_ltb_not_leb _ _ Hhi).
    + intros before <-. unfold created_in, sql_text_between.
      rewrite (string_ltb_not_leb _ _ Hlo). apply andb_false_r.
  - intros r Hr Hat Hle. split.
    + destruct (Hin r Hr) as (f & l & -> & -> & Hfl & Hpos).
      { unfold in_closed_day. rewrite Hat.
        split; [exact Hle|apply string_leb_refl]. }
      exists f, l. tauto.
    + intros Hle'.
      destruct (round_window_spec skill_db (plus_one_day day) log)
        as (first' & last' & n' & Hrun' & _ & _ & Hin' & _).
      destruct (Hin' r Hr) as (f' & l' & -> & -> & Hfl' & Hpos').
      { unfold in_closed_day. rewrite Hat.
        split; [apply string_leb_refl|exact Hle']. }
      exists f', l', n'. tauto.
Qed.

(** 1 January 1970 on [Example.boundary_db]: its only round is stored as
    "1970-01-02 00:00:00". *)
Lemma round_window_closed_interval_witness :
  exists first last n,
    get_round_range_for_day (E := sqlite_engine) Example.boundary_db
      Example.day0 [] =
      (Returned ((first, last), n), [SelectRoundRange])
    /\ n = 1%nat /\ first = Some 7 /\ last = Some 7
    /\ exists f' l' n',
         get_round_range_for_day (E := sqlite_engine) Example.boundary_db
           Example.day1 [] =
           (Returned ((Some f', Some l'), n'), [SelectRoundRange])
         /\ f' <= 7 <= l' /\ (0 < n')%nat.
Proof.
  destruct (@round_window_closed_interval Q Q_Num sqlite_engine
              sqlite_engine_ok Datetime.t Datetime.py
              Example.boundary_db Example.day0 [])
    as (first & last & n & Hrun & Hn & _ & _ & _ & _ & _ & _ & Hbound).
  exists first, last, n. split; [exact Hrun|].
  destruct (Hbound {| round_id := 7; created_at := "1970-01-02 00:00:00";
                      map_id := 10; mvp := None |}
              (or_introl eq_refl) eq_refl eq_refl) as [_ Hnext].
  destruct (Hnext eq_refl) as (f' & l' & n' & Hrun' & Hfl & Hpos).
  vm_compute in Hrun. injection Hrun as <- <- <-.
  repeat split; try reflexivity.
  exists f', l', n'. split; [exact Hrun'|]. split; assumption.
Defined.

(** C2, as stated, fails: the round of [Example.boundary_db], stored as
    "1970-01-02 00:00:00", is outside the half-open day of 1 January 1970,
    yet the resolver selects it for 1 January, and also for 2 January. *)
Lemma round_window_not_half_open :
  let r := {| round_id := 7; created_at := "1970-01-02 00:00:00";
              map_id := 10; mvp := None |} in
  rounds Example.boundary_db = [r]
  /\ ~ in_half_open_day Example.day0 r
  /\ get_round_range_for_day (E := sqlite_engine) Example.boundary_db
       Example.day0 [] =
       (Returned ((Some 7, Some 7), 1%nat), [SelectRoundRange])
  /\ get_round_range_for_day (E := sqlite_engine) Example.boundary_db
       (plus_one_day Example.day0) [] =
       (Returned ((Some 7, Some 7), 1%nat), [SelectRoundRange]).
Proof.
  cbv zeta. split; [reflexivity|]. split.
  - intros [_ H]. vm_compute in H. discriminate.
  - split; vm_compute; reflexivity.
Qed.

(** ** The Digest Assembler *)

Section Assembler.
Context {R : Type} {N : Num R} {E : Engine} {EOk : EngineOk E}
        {C : Coefficients R} {S : SkillModel R}
        {Dt : Type} {D : PyDatetime Dt}.

Lemma get_rating_extremes_no_rows : forall (skill_db : Db R) rr log,
    select_rating_extremes skill_db rr = [] ->
    get_rating_extremes_between_rounds skill_db rr log =
    (Raised IndexError, log ++ [SelectRatingExtremes]).
Proof.
  intros skill_db rr log H.
  unfold get_rating_extremes_between_rounds, execute, bind.
  now rewrite H.
Qed.

Lemma select_rating_extremes_no_components : forall (skill_db : Db R) rr,
    (forall rc, In rc (rating_components skill_db) ->
                in_range rr (rc_round_id rc) = false) ->
    select_rating_extremes skill_db rr = [].
Proof.
  intros skill_db rr H.
  unfold select_rating_extremes, impact_ratings, components.
  rewrite (filter_none _ _ H). simpl.
  replace (flat_map _ (players skill_db)) with
    (@nil (Z * string * R * R * R * R * R * nat)).
  - apply fetch_nil.
  - induction (players skill_db) as [|p ps IH]; [reflexivity|exact IH].
Qed.

Lemma select_rating_extremes_some_components :
  forall (skill_db : Db R) rr,
    select_rating_extremes skill_db rr <> [] ->
    exists rc, In rc (rating_components skill_db)
               /\ in_range rr (rc_round_id rc) = true.
Proof.
  intros skill_db rr Hne.
  destruct (filter (fun rc => in_range rr (rc_round_id rc))
              (rating_components skill_db)) as [|rc t] eqn:Hf.
  - exfalso. apply Hne. apply select_rating_extremes_no_components.
    intros rc Hrc.
    destruct (in_range rr (rc_round_id rc)) eqn:Hin; [|reflexivity].
    assert (Hin' : In rc (filter (fun rc => in_range rr (rc_round_id rc))
                            (rating_components skill_db)))
      by (apply filter_In; tauto).
    rewrite Hf in Hin'. destruct Hin'.
  - exists rc.
    assert (Hin : In rc (filter (fun rc => in_range rr (rc_round_id rc))
                           (rating_components skill_db)))
      by (rewrite Hf; now left).
    apply filter_In in Hin. exact Hin.
Qed.

Lemma select_most_mvps_no_mvp : forall (skill_db : Db R) rr,
    (forall r, In r (rounds skill_db) ->
               in_range rr (round_id r) = true -> mvp r = None) ->
    select_most_mvps skill_db rr = [].
Proof.
  intros skill_db rr H. unfold select_most_mvps, players_join_rounds.
  rewrite filter_none;
    [unfold group_by; simpl; rewrite group_order_nil; apply order_by_nil|].
  intros [p r] Hpr. simpl.
  apply in_flat_map in Hpr as [p' [_ Hpr]].
  apply in_map_iff in Hpr as [r' [Heq Hr]].
  injection Heq as <- <-. apply filter_In in Hr as [Hr Hmvp].
  destruct (in_range rr (round_id r')) eqn:Hin; [|reflexivity].
  unfold mvp_is in Hmvp. rewrite (H _ Hr Hin) in Hmvp. discriminate.
Qed.

Lemma get_most_mvps_no_rows : forall (skill_db : Db R) rr log,
    select_most_mvps skill_db rr = [] ->
    get_player_with_most_mvps_between_rounds skill_db rr log =
    (Raised StopIteration, log ++ [SelectMostMvps]).
Proof.
  intros skill_db rr log H.
  unfold get_player_with_most_mvps_between_rounds, execute_one, execute,
    bind.
  now rewrite H.
Qed.

Lemma get_skill_changes_run : forall (skill_db : Db R) rr log,
    get_skill_changes_between_rounds skill_db rr log =
    (Returned
       (filter skill_group_differs
          (stable_sort by_neg_later_mmr
             (map skill_change_of_row (select_skill_changes skill_db rr)))),
     log ++ [SelectSkillChanges]).
Proof. reflexivity. Qed.

Lemma get_most_played_maps_run : forall (skill_db : Db R) rr log,
    get_most_played_maps_between_rounds skill_db rr log =
    (Returned (dict (select_most_played_maps skill_db rr)),
     log ++ [SelectMostPlayedMaps]).
Proof. reflexivity. Qed.

(** [get_highlights], one step at a time. *)
Lemma get_highlights_no_rounds : forall (skill_db : Db R) day log rr log1,
    get_round_range_for_day skill_db day log = (Returned (rr, 0%nat), log1) ->
    get_highlights skill_db day log = (Raised StopIteration, log1).
Proof.
  intros skill_db day log rr log1 H.
  unfold get_highlights, bind. now rewrite H.
Qed.

Lemma get_highlights_extremes_raise :
  forall (skill_db : Db R) day log rr n log1 e log2,
    get_round_range_for_day skill_db day log = (Returned (rr, n), log1) ->
    n <> 0%nat ->
    get_rating_extremes_between_rounds skill_db rr log1 = (Raised e, log2) ->
    get_highlights skill_db day log = (Raised e, log2).
Proof.
  intros skill_db day log rr n log1 e log2 H Hn He.
  unfold get_highlights, bind. rewrite H.
  apply Nat.eqb_neq in Hn. rewrite Hn. now rewrite He.
Qed.

Lemma get_highlights_no_mvp :
  forall (skill_db : Db R) day log rr n log1 lowest highest log2,
    get_round_range_for_day skill_db day log = (Returned (rr, n), log1) ->
    n <> 0%nat ->
    get_rating_extremes_between_rounds skill_db rr log1 =
      (Returned (lowest, highest), log2) ->
    select_most_mvps skill_db rr = [] ->
    get_highlights skill_db day log =
    (Returned
       {| time_window := (isoformat day, isoformat (plus_one_day day));
          rounds_played := n;
          lowest_rating := lowest;
          highest_rating := highest;
          season_skill_group_changes :=
            map shape_skill_change
              (filter skill_group_differs
                 (stable_sort by_neg_later_mmr
                    (map skill_change_of_row
                       (select_skill_changes skill_db rr))));
          most_played_maps := dict (select_most_played_maps skill_db rr);
          most_mvps := None |},
     log2 ++ [SelectMostMvps] ++ [SelectSkillChanges]
          ++ [SelectMostPlayedMaps]).
Proof.
  intros skill_db day log rr n log1 lowest highest log2 H Hn He Hm.
  unfold get_highlights, bind. rewrite H.
  apply Nat.eqb_neq in Hn. rewrite Hn. rewrite He.
  unfold try_except_StopIteration, bind.
  rewrite (get_most_mvps_no_rows _ _ _ Hm). unfold ret.
  rewrite get_skill_changes_run, get_most_played_maps_run.
  rewrite <- !app_assoc. reflexivity.
Qed.
End Assembler.

(** C1: when no round was created in the day's window, [get_highlights]
    raises [StopIteration] (the no-activity signal, which is not a digest)
    and the only statement it has sent to the store is the round-range one:
    the rating-extremes, MVP, skill-change and map-popularity statements
    are not issued. *)
Theorem no_activity_stops_after_round_range :
  forall (R : Type) (N : Num R) (E : Engine) (EOk : EngineOk E)
         (C : Coefficients R) (S : SkillModel R)
         (Dt : Type) (D : PyDatetime Dt)
         (skill_db : Db R) (day : Dt) (log : list Statement),
    (forall r, In r (rounds skill_db) ->
               created_in day (plus_one_day day) r = false) ->
    get_highlights skill_db day log =
    (Raised StopIteration, log ++ [SelectRoundRange]).
Proof.
  intros R N E EOk C S Dt D skill_db day log H.
  pose proof (get_round_range_for_day_run skill_db day log) as Hrun.
  cbv zeta in Hrun. rewrite (filter_none _ _ H) in Hrun.
  exact (get_highlights_no_rounds _ _ _ Hrun).
Qed.

(** Day 5 of [Example.db], whose rounds were all created on day 0. *)
Lemma no_activity_stops_after_round_range_witness :
  get_highlights (E := sqlite_engine) Example.db Example.day5 [] =
  (Raised StopIteration, [SelectRoundRange]).
Proof.
  apply (@no_activity_stops_after_round_range Q Q_Num sqlite_engine
           sqlite_engine_ok Example.coefficients Example.skill_model
           Datetime.t Datetime.py Example.db Example.day5 []).
  intros r Hr. simpl in Hr.
  destruct Hr as [<-|[<-|[<-|[]]]]; reflexivity.
Defined.

(** C10: when the day's window holds at least one round and no
    rating-component row lies in the resolved round range,
    [get_rating_extremes_between_rounds] raises [IndexError] (it indexes an
    empty list) and so does [get_highlights]: neither a digest nor the
    no-activity signal.  Hence a digest is returned only if some
    rating-component row lies in the range. *)
Theorem rating_extremes_need_components :
  forall (R : Type) (N : Num R) (E : Engine) (EOk : EngineOk E)
         (C : Coefficients R) (S : SkillModel R)
         (Dt : Type) (D : PyDatetime Dt)
         (skill_db : Db R) (day : Dt) (log log1 : list Statement)
         (rr : RoundRange) (n : nat),
    get_round_range_for_day skill_db day log = (Returned (rr, n), log1) ->
    n <> 0%nat ->
    ((forall rc, In rc (rating_components skill_db) ->
                 in_range rr (rc_round_id rc) = false) ->
     get_rating_extremes_between_rounds skill_db rr log1 =
       (Raised IndexError, log1 ++ [SelectRatingExtremes])
     /\ get_highlights skill_db day log =
       (Raised IndexError, log1 ++ [SelectRatingExtremes]))
    /\ (forall d log2,
          get_highlights skill_db day log = (Returned d, log2) ->
          exists rc, In rc (rating_components skill_db)
                     /\ in_range rr (rc_round_id rc) = true).
Proof.
  intros R N E EOk C S Dt D skill_db day log log1 rr n Hrun Hn. split.
  - intros Hnone.
    pose proof (get_rating_extremes_no_rows skill_db rr log1
                  (select_rating_extremes_no_components skill_db rr Hnone))
      as He.
    split; [exact He|].
    exact (get_highlights_extremes_raise _ _ _ Hrun Hn He).
  - intros d log2 Hd.
    apply select_rating_extremes_some_components.
    intros Hnil.
    pose proof (get_rating_extremes_no_rows skill_db rr log1 Hnil) as He.
    rewrite (get_highlights_extremes_raise _ _ _ Hrun Hn He) in Hd.
    discriminate.
Qed.

(** Day 0 of [Example.no_ratings_db]: one round, no rating components. *)
Lemma rating_extremes_need_components_witness :
  get_rating_extremes_between_rounds (E := sqlite_engine)
    Example.no_ratings_db (Some 1, Some 1) [SelectRoundRange] =
    (Raised IndexError, [SelectRoundRange; SelectRatingExtremes])
  /\ get_highlights (E := sqlite_engine) Example.no_ratings_db Example.day0 [] =
    (Raised IndexError, [SelectRoundRange; SelectRatingExtremes]).
Proof.
  refine (proj1 (@rating_extremes_need_components Q Q_Num sqlite_engine
                   sqlite_engine_ok Example.coefficients Example.skill_model
                   Datetime.t Datetime.py Example.no_ratings_db Example.day0 [] [SelectRoundRange]
                   (Some 1, Some 1) 1%nat _ _) _).
  - reflexivity.
  - discriminate.
  - intros rc Hrc. destruct Hrc.
Defined.

(** C8: when the window holds rounds and none of the rounds in the range
    has an MVP, the MVP query signals [StopIteration], [get_highlights]
    catches it and, the rating extremes being available, returns a digest
    in which [most_mvps] is absent and every other field carries the result
    of its component; [get_highlights] does not raise [StopIteration]. *)
Theorem missing_mvp_is_absent_field :
  forall (R : Type) (N : Num R) (E : Engine) (EOk : EngineOk E)
         (C : Coefficients R) (S : SkillModel R)
         (Dt : Type) (D : PyDatetime Dt)
         (skill_db : Db R) (day : Dt) (log log1 : list Statement)
         (rr : RoundRange) (n : nat),
    get_round_range_for_day skill_db day log = (Returned (rr, n), log1) ->
    n <> 0%nat ->
    (forall r, In r (rounds skill_db) ->
               in_range rr (round_id r) = true -> mvp r = None) ->
    (forall l, get_player_with_most_mvps_between_rounds skill_db rr l =
               (Raised StopIteration, l ++ [SelectMostMvps]))
    /\ fst (get_highlights skill_db day log) <> Raised StopIteration
    /\ (forall lowest highest log2,
          get_rating_extremes_between_rounds skill_db rr log1 =
            (Returned (lowest, highest), log2) ->
          exists changes maps log3 log4 log5,
            get_skill_changes_between_rounds skill_db rr log3 =
              (Returned changes, log4)
            /\ get_most_played_maps_between_rounds skill_db rr log4 =
              (Returned maps, log5)
            /\ get_highlights skill_db day log =
              (Returned
                 {| time_window := (isoformat day, isoformat (plus_one_day day));
                    rounds_played := n;
                    lowest_rating := lowest;
                    highest_rating := highest;
                    season_skill_group_changes :=
                      map shape_skill_change changes;
                    most_played_maps := maps;
                    most_mvps := None |},
               log5)).
Proof.
  intros R N E EOk C S Dt D skill_db day log log1 rr n Hrun Hn Hnone.
  pose proof (select_most_mvps_no_mvp skill_db rr Hnone) as Hm.
  split; [|split].
  - intros l. now apply get_most_mvps_no_rows.
  - destruct (get_rating_extremes_between_rounds skill_db rr log1)
      as [[[lowest highest]|e] log2] eqn:He.
    + rewrite (get_highlights_no_mvp _ _ _ Hrun Hn He Hm). discriminate.
    + rewrite (get_highlights_extremes_raise _ _ _ Hrun Hn He). simpl.
      unfold get_rating_extremes_between_rounds, execute, bind in He.
      destruct (stable_sort _ _) in He; [|discriminate].
      injection He as <- _. discriminate.
  - intros lowest highest log2 He.
    eexists _, _, (log2 ++ [SelectMostMvps]), _, _.
    split; [apply get_skill_changes_run|].
    split; [apply get_most_played_maps_run|].
    rewrite (get_highlights_no_mvp _ _ _ Hrun Hn He Hm).
    rewrite <- !app_assoc. reflexivity.
Qed.

(** Day 0 of [Example.no_mvp_db]: two rounds, none with an MVP. *)
Lemma missing_mvp_is_absent_field_witness :
  exists d log',
    get_highlights (E := sqlite_engine) Example.no_mvp_db Example.day0 [] =
      (Returned d, log')
    /\ most_mvps d = None /\ rounds_played d = 2%nat.
Proof.
  destruct (@missing_mvp_is_absent_field Q Q_Num sqlite_engine
              sqlite_engine_ok Example.coefficients Example.skill_model
              Datetime.t Datetime.py Example.no_mvp_db Example.day0 [] [SelectRoundRange]
              (Some 1, Some 2) 2%nat) as (_ & _ & H).
  - reflexivity.
  - discriminate.
  - intros r Hr _. simpl in Hr. destruct Hr as [<-|[<-|[]]]; reflexivity.
  - edestruct H as (changes & maps & l3 & l4 & l5 & _ & _ & Hd).
    + vm_compute. reflexivity.
    + eexists _, _. split; [exact Hd|]. split; reflexivity.
Defined.

(** ** Filtering keeps permutations and sortedness *)

Lemma filter_permutation : forall (A : Type) (f : A -> bool) (l l' : list A),
    Permutation l l' -> Permutation (filter f l) (filter f l').
Proof.
  intros A f l l' H. induction H as [|x l l' H IH|x y l|l l' l'' H1 IH1 H2 IH2];
    simpl.
  - apply perm_nil.
  - destruct (f x); [now apply perm_skip|assumption].
  - destruct (f x), (f y);
      first [apply perm_swap|apply Permutation_refl].
  - now apply perm_trans with (filter f l').
Qed.

Lemma filter_strongly_sorted :
  forall (A : Type) (le : A -> A -> Prop) (f : A -> bool) (l : list A),
    StronglySorted le l -> StronglySorted le (filter f l).
Proof.
  intros A le f l H. induction H as [|x l H IH Hall]; simpl.
  - constructor.
  - destruct (f x); [|assumption].
    constructor; [assumption|].
    rewrite Forall_forall in *. intros y Hy.
    apply filter_In in Hy. now apply Hall.
Qed.

(** ** The Skill Group Transition Detector *)

Section SkillChanges.
Context {R : Type} {N : Num R} {E : Engine} {EOk : EngineOk E}
        {S : SkillModel R}.

Lemma earlier_ssh_of_spec :
  forall (skill_db : Db R) first olast p e,
    In e (earlier_ssh_of skill_db (Some first, olast) p) <->
    is_earlier_snapshot skill_db first (players_player_id p) e.
Proof.
  intros skill_db first olast p e.
  unfold earlier_ssh_of, is_earlier_snapshot, ssh_before. simpl fst.
  set (pid := players_player_id p).
  set (cands := filter (fun s => sql_le_param (ssh_round_id s) (Some first)
                                 && (ssh_player_id s =? pid))
                  (season_skill_history skill_db)).
  assert (Hc : forall s, In s cands <->
                 In s (season_skill_history skill_db)
                 /\ ssh_round_id s <= first /\ ssh_player_id s = pid).
  { intros s. unfold cands. rewrite filter_In, andb_true_iff.
    unfold sql_le_param, sql_ge_param. rewrite Z.leb_le, Z.eqb_eq.
    tauto. }
  rewrite filter_In, andb_true_iff, Z.eqb_eq. split.
  - intros (He & Hp & Hr).
    destruct (sql_max Z.leb (map (@ssh_round_id R) cands)) as [v|] eqn:Hv;
      [|discriminate].
    simpl in Hr. apply Z.eqb_eq in Hr.
    apply (sql_max_some _ Zleb_total Zleb_trans) in Hv as [Hin Hmax].
    apply in_map_iff in Hin as [s [Hs Hin]]. apply Hc in Hin.
    repeat split; try tauto; try lia.
    intros s' Hs' Hp' Hr'. rewrite Hr. apply Z.leb_le, Hmax.
    apply in_map. apply Hc. tauto.
  - intros (He & Hp & Hr & Hmax).
    repeat split; try tauto; try congruence.
    assert (Hin : In e cands) by (apply Hc; tauto).
    assert (Hne : map (@ssh_round_id R) cands <> []).
    { intro Hnil. apply map_eq_nil in Hnil. rewrite Hnil in Hin.
      destruct Hin. }
    destruct (sql_max_nonempty Z.leb Hne) as [v Hv]. rewrite Hv. simpl.
    apply (sql_max_some _ Zleb_total Zleb_trans) in Hv as [Hvin Hvmax].
    apply Z.eqb_eq.
    apply in_map_iff in Hvin as [s [Hs Hsin]]. apply Hc in Hsin.
    specialize (Hvmax _ (in_map (@ssh_round_id R) _ _ Hin)).
    apply Z.leb_le in Hvmax.
    assert (ssh_round_id s <= ssh_round_id e) by (apply Hmax; tauto).
    lia.
Qed.

Lemma later_ssh_of_spec :
  forall (skill_db : Db R) ofirst last p l,
    In l (later_ssh_of skill_db (ofirst, Some last) p) <->
    is_later_snapshot skill_db last (players_player_id p) l.
Proof.
  intros skill_db ofirst last p l.
  unfold later_ssh_of, is_later_snapshot, ssh_after. simpl snd.
  set (pid := players_player_id p).
  set (cands := filter (fun s => sql_ge_param (ssh_round_id s) (Some last)
                                 && (ssh_player_id s =? pid))
                  (season_skill_history skill_db)).
  assert (Hc : forall s, In s cands <->
                 In s (season_skill_history skill_db)
                 /\ last <= ssh_round_id s /\ ssh_player_id s = pid).
  { intros s. unfold cands. rewrite filter_In, andb_true_iff.
    unfold sql_le_param, sql_ge_param. rewrite Z.leb_le, Z.eqb_eq.
    tauto. }
  rewrite filter_In, andb_true_iff, Z.eqb_eq. split.
  - intros (Hl & Hp & Hr).
    destruct (sql_min Z.leb (map (@ssh_round_id R) cands)) as [v|] eqn:Hv;
      [|discriminate].
    simpl in Hr. apply Z.eqb_eq in Hr.
    apply (sql_min_some _ Zleb_total Zleb_trans) in Hv as [Hin Hmin].
    apply in_map_iff in Hin as [s [Hs Hin]]. apply Hc in Hin.
    repeat split; try tauto; try lia.
    intros s' Hs' Hp' Hr'. rewrite Hr. apply Z.leb_le, Hmin.
    apply in_map. apply Hc. tauto.
  - intros (Hl & Hp & Hr & Hmin).
    repeat split; try tauto; try congruence.
    assert (Hin : In l cands) by (apply Hc; tauto).
    assert (Hne : map (@ssh_round_id R) cands <> []).
    { intro Hnil. apply map_eq_nil in Hnil. rewrite Hnil in Hin.
      destruct Hin. }
    destruct (sql_min_nonempty Z.leb Hne) as [v Hv]. rewrite Hv. simpl.
    apply (sql_min_some _ Zleb_total Zleb_trans) in Hv as [Hvin Hvmin].
    apply Z.eqb_eq.
    apply in_map_iff in Hvin as [s [Hs Hsin]]. apply Hc in Hsin.
    specialize (Hvmin _ (in_map (@ssh_round_id R) _ _ Hin)).
    apply Z.leb_le in Hvmin.
    assert (ssh_round_id l <= ssh_round_id s) by (apply Hmin; tauto).
    lia.
Qed.

(** The rows of the statement are the bracketed players. *)
Lemma select_skill_changes_spec :
  forall (skill_db : Db R) first last pid name em es lm ls,
    In (pid, name, em, es, lm, ls)
       (select_skill_changes skill_db (Some first, Some last)) <->
    exists p e l,
      In p (players skill_db)
      /\ players_player_id p = pid /\ players_steam_name p = name
      /\ is_earlier_snapshot skill_db first pid e
      /\ is_later_snapshot skill_db last pid l
      /\ em = ssh_skill_mean e /\ es = ssh_skill_stdev e
      /\ lm = ssh_skill_mean l /\ ls = ssh_skill_stdev l.
Proof.
  intros skill_db first last pid name em es lm ls.
  unfold select_skill_changes. rewrite fetch_in, in_flat_map. split.
  - intros (p & Hp & H). apply in_flat_map in H as (e & He & H).
    apply in_map_iff in H as (l & Heq & Hl).
    apply earlier_ssh_of_spec in He. apply later_ssh_of_spec in Hl.
    injection Heq as <- <- <- <- <- <-.
    exists p, e, l. tauto.
  - intros (p & e & l & Hp & <- & <- & He & Hl & -> & -> & -> & ->).
    exists p. split; [assumption|].
    apply in_flat_map. exists e. split; [now apply earlier_ssh_of_spec|].
    apply in_map_iff. exists l. split; [reflexivity|].
    now apply later_ssh_of_spec.
Qed.
End SkillChanges.

Section SkillChangeOrder.
Context {R : Type} {N : Num R} {S : SkillModel R}.

Lemma by_neg_later_mmr_total : forall a b : Player R * Player R,
    by_neg_later_mmr a b = true \/ by_neg_later_mmr b a = true.
Proof. intros a b. unfold by_neg_later_mmr. rewrite !Z.leb_le. lia. Qed.

Lemma by_neg_later_mmr_trans : forall a b c : Player R * Player R,
    by_neg_later_mmr a b = true -> by_neg_later_mmr b c = true ->
    by_neg_later_mmr a c = true.
Proof. intros a b c. unfold by_neg_later_mmr. rewrite !Z.leb_le. lia. Qed.

Lemma skill_group_differs_spec : forall c : Player R * Player R,
    skill_group_differs c = true <->
    skill_group (fst c) <> skill_group (snd c).
Proof.
  intros c. unfold skill_group_differs.
  rewrite negb_true_iff. split.
  - intros H Heq. apply String.eqb_eq in Heq. congruence.
  - intros H. destruct (String.eqb _ _) eqn:Heq; [|reflexivity].
    apply String.eqb_eq in Heq. contradiction.
Qed.
End SkillChangeOrder.

(** C5: for a window [(first, last)], every pair the detector reports for
    a player is built from that player's snapshot with the greatest round
    identifier [<= first] and the snapshot with the least round identifier
    [>= last], found for each player on its own; the statement returns a
    row for every player of [players] that has both; a player without a
    snapshot on one side yields no pair, and the detector raises nothing. *)
Theorem skill_snapshots_bracket_window :
  forall (R : Type) (N : Num R) (E : Engine) (EOk : EngineOk E)
         (S : SkillModel R)
         (skill_db : Db R) (first last : Z) (log : list Statement),
  exists changes,
    get_skill_changes_between_rounds skill_db (Some first, Some last) log =
      (Returned changes, log ++ [SelectSkillChanges])
    /\ (forall pid name em es lm ls,
          In (pid, name, em, es, lm, ls)
             (select_skill_changes skill_db (Some first, Some last)) <->
          exists p e l,
            In p (players skill_db)
            /\ players_player_id p = pid /\ players_steam_name p = name
            /\ is_earlier_snapshot skill_db first pid e
            /\ is_later_snapshot skill_db last pid l
            /\ em = ssh_skill_mean e /\ es = ssh_skill_stdev e
            /\ lm = ssh_skill_mean l /\ ls = ssh_skill_stdev l)
    /\ (forall previous next,
          In (previous, next) changes ->
          exists e l,
            player_id next = player_id previous
            /\ is_earlier_snapshot skill_db first (player_id previous) e
            /\ is_later_snapshot skill_db last (player_id previous) l
            /\ skill_mean previous = ssh_skill_mean e
            /\ skill_stdev previous = ssh_skill_stdev e
            /\ skill_mean next = ssh_skill_mean l
            /\ skill_stdev next = ssh_skill_stdev l)
    /\ (forall pid,
          (forall s, In s (season_skill_history skill_db) ->
                     ssh_player_id s = pid -> ~ ssh_round_id s <= first)
          \/ (forall s, In s (season_skill_history skill_db) ->
                        ssh_player_id s = pid -> ~ last <= ssh_round_id s) ->
          forall previous next,
            In (previous, next) changes -> player_id previous <> pid).
Proof.
  intros R N E EOk S skill_db first last log.
  eexists. split; [apply get_skill_changes_run|].
  split; [intros; apply select_skill_changes_spec|].
  assert (Hfrom : forall previous next,
             In (previous, next)
                (filter skill_group_differs
                   (stable_sort by_neg_later_mmr
                      (map skill_change_of_row
                         (select_skill_changes skill_db
                            (Some first, Some last))))) ->
             exists e l,
               player_id next = player_id previous
               /\ is_earlier_snapshot skill_db first (player_id previous) e
               /\ is_later_snapshot skill_db last (player_id previous) l
               /\ skill_mean previous = ssh_skill_mean e
               /\ skill_stdev previous = ssh_skill_stdev e
               /\ skill_mean next = ssh_skill_mean l
               /\ skill_stdev next = ssh_skill_stdev l).
  { intros previous next H. apply filter_In in H as [H _].
    apply (Permutation_in _ (Permutation_sym (stable_sort_perm _ _))) in H.
    apply in_map_iff in H as ([[[[[pid name] em] es] lm] ls] & Heq & Hrow).
    apply select_skill_changes_spec in Hrow
      as (p & e & l & _ & _ & _ & He & Hl & -> & -> & -> & ->).
    injection Heq as <- <-. simpl. exists e, l. tauto. }
  split; [exact Hfrom|].
  intros pid Hlack previous next H Heq.
  destruct (Hfrom _ _ H) as (e & l & _ & He & Hl & _).
  rewrite Heq in He, Hl.
  destruct He as (He & Hpe & Hre & _). destruct Hl as (Hl & Hpl & Hrl & _).
  destruct Hlack as [Hlack|Hlack].
  - exact (Hlack e He Hpe Hre).
  - exact (Hlack l Hl Hpl Hrl).
Qed.

(** The window of rounds 1 to 3 of [Example.db]: carol's only snapshot is
    at round 2, so she is not in the result. *)
Lemma skill_snapshots_bracket_window_witness :
  exists changes,
    get_skill_changes_between_rounds (E := sqlite_engine) Example.db
      (Some 1, Some 3) [] = (Returned changes, [SelectSkillChanges])
    /\ forall previous next,
         In (previous, next) changes -> player_id previous <> 3.
Proof.
  destruct (@skill_snapshots_bracket_window Q Q_Num sqlite_engine
              sqlite_engine_ok Example.skill_model Example.db 1 3 [])
    as (changes & Hrun & _ & _ & Hlack).
  exists changes. split; [exact Hrun|].
  apply Hlack. left. intros s Hs Hp. simpl in Hs.
  destruct Hs as [<-|[<-|[<-|[<-|[<-|[]]]]]]; simpl in *; lia.
Defined.

(** C6: for a window [(first, last)], the detector reports a pair exactly
    for each player of [players] together with that player's earlier and
    later bracketing snapshots whose skill group labels differ, and the
    pair holds the two snapshots' means and deviations under the player's
    identifier and name; a player whose two bracketing snapshots carry the
    same label is not reported, whatever their means and deviations are;
    the pairs come by decreasing rating value of the later snapshot. *)
Theorem skill_changes_keep_label_changes_sorted :
  forall (R : Type) (N : Num R) (E : Engine) (EOk : EngineOk E)
         (S : SkillModel R)
         (skill_db : Db R) (first last : Z) (log : list Statement),
  exists changes,
    get_skill_changes_between_rounds skill_db (Some first, Some last) log =
      (Returned changes, log ++ [SelectSkillChanges])
    /\ (forall previous next,
          In (previous, next) changes <->
          exists p e l,
            In p (players skill_db)
            /\ is_earlier_snapshot skill_db first (players_player_id p) e
            /\ is_later_snapshot skill_db last (players_player_id p) l
            /\ snapshot_label e <> snapshot_label l
            /\ previous = player_at_snapshot p e
            /\ next = player_at_snapshot p l)
    /\ (forall p e l,
          In p (players skill_db) ->
          is_earlier_snapshot skill_db first (players_player_id p) e ->
          is_later_snapshot skill_db last (players_player_id p) l ->
          snapshot_label e = snapshot_label l ->
          ~ In (player_at_snapshot p e, player_at_snapshot p l) changes)
    /\ StronglySorted (fun a b => mmr (snd b) <= mmr (snd a)) changes.
Proof.
  intros R N E EOk S skill_db first last log.
  eexists. split; [apply get_skill_changes_run|].
  set (bracketed := map skill_change_of_row
                      (select_skill_changes skill_db (Some first, Some last))).
  pose proof (stable_sort_perm by_neg_later_mmr bracketed) as Hperm.
  assert (Hiff : forall previous next,
             In (previous, next)
                (filter skill_group_differs
                   (stable_sort by_neg_later_mmr bracketed)) <->
             exists p e l,
               In p (players skill_db)
               /\ is_earlier_snapshot skill_db first (players_player_id p) e
               /\ is_later_snapshot skill_db last (players_player_id p) l
               /\ snapshot_label e <> snapshot_label l
               /\ previous = player_at_snapshot p e
               /\ next = player_at_snapshot p l).
  { intros previous next. rewrite filter_In, skill_group_differs_spec.
    split.
    - intros [Hin Hd].
      apply (Permutation_in _ (Permutation_sym Hperm)) in Hin.
      apply in_map_iff in Hin
        as ([[[[[pid name] em] es] lm] ls] & Heq & Hrow).
      apply select_skill_changes_spec in Hrow
        as (p & e & l & Hp & <- & <- & He & Hl & -> & -> & -> & ->).
      injection Heq as <- <-. exists p, e, l.
      repeat split; try assumption; apply He || apply Hl.
    - intros (p & e & l & Hp & He & Hl & Hd & -> & ->).
      split; [|exact Hd].
      apply (Permutation_in _ Hperm). apply in_map_iff.
      exists (players_player_id p, players_steam_name p,
              ssh_skill_mean e, ssh_skill_stdev e,
              ssh_skill_mean l, ssh_skill_stdev l).
      split; [reflexivity|].
      apply select_skill_changes_spec. exists p, e, l. tauto. }
  assert (Hsorted : StronglySorted (fun a b => mmr (snd b) <= mmr (snd a))
                      (filter skill_group_differs
                         (stable_sort by_neg_later_mmr bracketed))).
  { apply filter_strongly_sorted.
    pose proof (stable_sort_sorted _ by_neg_later_mmr_total
                  by_neg_later_mmr_trans bracketed) as Hs.
    eapply strongly_sorted_impl; [|exact Hs].
    intros a b Hab. unfold by_neg_later_mmr in Hab.
    apply Z.leb_le in Hab. lia. }
  split; [exact Hiff|]. split; [|exact Hsorted].
  intros p e l Hp He Hl Hsame Hin.
    apply Hiff in Hin as (p' & e' & l' & _ & _ & _ & Hd & Heqe & Heql).
  apply Hd. unfold snapshot_label.
  pose proof (f_equal (@skill_mean R) Heqe) as H1.
  pose proof (f_equal (@skill_stdev R) Heqe) as H2.
  pose proof (f_equal (@skill_mean R) Heql) as H3.
  pose proof (f_equal (@skill_stdev R) Heql) as H4.
  simpl in H1, H2, H3, H4. rewrite <- H1, <- H2, <- H3, <- H4.
  exact Hsame.
Qed.

(** Rounds 1 to 3 of [Example.db]: alice's snapshots at rounds 0 and 3 are
    Silver and Gold, so she is reported; bob's snapshots at rounds 1 and 3
    are both Gold with different means, so he is not. *)
Lemma skill_changes_keep_label_changes_sorted_witness :
  exists changes,
    get_skill_changes_between_rounds (E := sqlite_engine) Example.db
      (Some 1, Some 3) [] = (Returned changes, [SelectSkillChanges])
    /\ In (player_at_snapshot Example.alice (Example.ssh 1 0 (1000#1) (10#1)),
           player_at_snapshot Example.alice (Example.ssh 1 3 (1100#1) (10#1)))
          changes
    /\ ~ In (player_at_snapshot Example.bob (Example.ssh 2 1 (1500#1) (10#1)),
             player_at_snapshot Example.bob (Example.ssh 2 3 (1600#1) (10#1)))
            changes.
Proof.
  destruct (@skill_changes_keep_label_changes_sorted Q Q_Num sqlite_engine
              sqlite_engine_ok Example.skill_model Example.db 1 3 [])
    as (changes & Hrun & Hiff & Hsame & _).
  exists changes. split; [exact Hrun|]. split.
  - apply Hiff.
    exists Example.alice, (Example.ssh 1 0 (1000#1) (10#1)),
           (Example.ssh 1 3 (1100#1) (10#1)).
    split; [now left|]. split; [|split; [|split]].
    + split; [now left|]. split; [reflexivity|]. split; [simpl; lia|].
      intros s Hs. simpl in Hs.
      destruct Hs as [<-|[<-|[<-|[<-|[<-|[]]]]]]; simpl; lia.
    + split; [simpl; tauto|]. split; [reflexivity|]. split; [simpl; lia|].
      intros s Hs. simpl in Hs.
      destruct Hs as [<-|[<-|[<-|[<-|[<-|[]]]]]]; simpl; lia.
    + vm_compute. discriminate.
    + split; reflexivity.
  - apply Hsame.
    + right. now left.
    + split; [simpl; tauto|]. split; [reflexivity|]. split; [simpl; lia|].
      intros s Hs. simpl in Hs.
      destruct Hs as [<-|[<-|[<-|[<-|[<-|[]]]]]]; simpl; lia.
    + split; [simpl; tauto|]. split; [reflexivity|]. split; [simpl; lia|].
      intros s Hs. simpl in Hs.
      destruct Hs as [<-|[<-|[<-|[<-|[<-|[]]]]]]; simpl; lia.
    + vm_compute. reflexivity.
Defined.

(** ** Impact Rating Extremes *)

Lemma filter_filter_and : forall (A : Type) (f g : A -> bool) (l : list A),
    filter f (filter g l) = filter (fun x => g x && f x) l.
Proof.
  intros A f g l. induction l as [|x t IH]; simpl; [reflexivity|].
  destruct (g x); simpl; [destruct (f x)|]; now rewrite IH.
Qed.

Lemma Zeqb_spec : forall x y : Z, (x =? y) = true <-> x = y.
Proof. exact Z.eqb_eq. Qed.

Lemma nodup_key_injective :
  forall (A B : Type) (f : A -> B) (l : list A) (a b : A),
    NoDup (map f l) -> In a l -> In b l -> f a = f b -> a = b.
Proof.
  intros A B f l a b. induction l as [|x t IH]; simpl; intros Hnd Ha Hb Hf.
  - destruct Ha.
  - inversion Hnd as [|? ? Hn Hnd']; subst.
    destruct Ha as [->|Ha], Hb as [->|Hb]; auto.
    + exfalso. apply Hn. rewrite Hf. now apply in_map.
    + exfalso. apply Hn. rewrite <- Hf. now apply in_map.
Qed.

Section RatingExtremes.
Context {R : Type} {N : Num R} {C : Coefficients R}.

Lemma in_components : forall (skill_db : Db R) rr c,
    In c (components skill_db rr) <->
    player_rows skill_db rr (c_player_id c) <> []
    /\ c = components_of (c_player_id c)
             (player_rows skill_db rr (c_player_id c)).
Proof.
  intros skill_db rr c. unfold components, player_rows.
  rewrite in_map_iff. split.
  - intros ([k g] & <- & Hin). simpl.
    apply (group_by_in _ _ Zeqb_spec) in Hin as [-> Hne].
    rewrite filter_filter_and in *. split; [exact Hne|reflexivity].
  - intros [Hne Hc].
    destruct (filter _ (rating_components skill_db)) as [|rc t] eqn:Hf;
      [congruence|].
    assert (Hin : In rc (filter (fun rc => in_range rr (rc_round_id rc))
                           (rating_components skill_db))).
    { assert (H : In rc (rc :: t)) by now left.
      rewrite <- Hf in H. apply filter_In in H as [H1 H2].
      apply andb_true_iff in H2. apply filter_In. tauto. }
    assert (Hk : rc_player_id rc = c_player_id c).
    { assert (H : In rc (rc :: t)) by now left.
      rewrite <- Hf in H. apply filter_In in H as [_ H2].
      apply andb_true_iff in H2 as [_ H2]. apply Z.eqb_eq in H2.
      congruence. }
    destruct (group_by_complete Z.eqb (@rc_player_id R) Zeqb_spec _ _ Hin)
      as [g Hg].
    rewrite Hk in Hg. exists (c_player_id c, g). split; [|exact Hg].
    apply (group_by_in _ _ Zeqb_spec) in Hg as [-> _].
    rewrite filter_filter_and, Hf. symmetry. exact Hc.
Qed.

Lemma components_same_player : forall (skill_db : Db R) rr c c',
    In c (components skill_db rr) -> In c' (components skill_db rr) ->
    c_player_id c = c_player_id c' -> c = c'.
Proof.
  intros skill_db rr c c' Hc Hc' Heq.
  apply in_components in Hc as [_ Hc]. apply in_components in Hc' as [_ Hc'].
  rewrite Hc, Hc', Heq. reflexivity.
Qed.

Lemma in_impact_ratings : forall (skill_db : Db R) rr x,
    In x (impact_ratings skill_db rr) <->
    In (snd x) (components skill_db rr) /\ fst x = rating_formula (snd x).
Proof.
  intros skill_db rr [r c]. unfold impact_ratings. rewrite in_map_iff.
  simpl. split.
  - intros (c' & Heq & Hin). injection Heq as <- <-. tauto.
  - intros [Hin ->]. now exists c.
Qed.
End RatingExtremes.

(** C3: a player with at least one rating-component row in the range has
    exactly one row in [impact_ratings]; its four averages are the sums of
    the player's sub-scores over those rows divided by their number, its
    count is that number, and its rating is
    [c1 * average_kills + c2 * average_deaths + c3 * average_damage
     + c4 * average_kas + c5] for the five configured coefficients. *)
Theorem impact_rating_is_linear_in_averages :
  forall (R : Type) (N : Num R) (C : Coefficients R)
         (skill_db : Db R) (rr : RoundRange) (pid : Z),
    player_rows skill_db rr pid <> [] ->
    exists c,
      In (rating_formula c, c) (impact_ratings skill_db rr)
      /\ (forall x, In x (impact_ratings skill_db rr) ->
                    c_player_id (snd x) = pid -> x = (rating_formula c, c))
      /\ c_player_id c = pid
      /\ average_kills c =
           ndiv (sql_sum (map (@kill_rating R) (player_rows skill_db rr pid)))
                (nof_nat (length (player_rows skill_db rr pid)))
      /\ average_deaths c =
           ndiv (sql_sum (map (@death_rating R) (player_rows skill_db rr pid)))
                (nof_nat (length (player_rows skill_db rr pid)))
      /\ average_damage c =
           ndiv (sql_sum (map (@damage_rating R) (player_rows skill_db rr pid)))
                (nof_nat (length (player_rows skill_db rr pid)))
      /\ average_kas c =
           ndiv (sql_sum (map (@kas_rating R) (player_rows skill_db rr pid)))
                (nof_nat (length (player_rows skill_db rr pid)))
      /\ c_rounds_played c = length (player_rows skill_db rr pid)
      /\ (forall c1 c2 c3 c4 c5,
            COEFFICIENTS = (c1, c2, c3, c4, c5) ->
            rating_formula c =
            nadd (nadd (nadd (nadd (nmul c1 (average_kills c))
                                   (nmul c2 (average_deaths c)))
                             (nmul c3 (average_damage c)))
                       (nmul c4 (average_kas c)))
                 c5).
Proof.
  intros R N C skill_db rr pid Hne.
  set (c := components_of pid (player_rows skill_db rr pid)).
  assert (Hc : In c (components skill_db rr)).
  { apply in_components. split; [exact Hne|reflexivity]. }
  exists c. split; [|split].
  - apply in_impact_ratings. split; [exact Hc|reflexivity].
  - intros [r c'] Hx Hp. simpl in Hp.
    apply in_impact_ratings in Hx as [Hc' Hr]. simpl in Hc', Hr.
    assert (c' = c) by (eapply components_same_player; eassumption).
    subst c'. now rewrite Hr.
  - repeat split.
    intros c1 c2 c3 c4 c5 Hcoef. unfold rating_formula. now rewrite Hcoef.
Qed.

(** alice in rounds 1 to 3 of [Example.db]: kill ratings 1 and 3. *)
Lemma impact_rating_is_linear_in_averages_witness :
  exists c,
    In (rating_formula c, c) (impact_ratings Example.db (Some 1, Some 3))
    /\ c_player_id c = 1
    /\ average_kills c = ((0 + 1 + 3) / inject_Z 2)%Q
    /\ c_rounds_played c = 2%nat.
Proof.
  destruct (@impact_rating_is_linear_in_averages Q Q_Num
              Example.coefficients Example.db (Some 1, Some 3) 1)
    as (c & Hin & _ & Hid & Hk & _ & _ & _ & Hn & _).
  - vm_compute. discriminate.
  - exists c. repeat split; assumption.
Defined.

Section Extremes.
Context {R : Type} {N : Num R} {NO : NumOrder R}
        {E : Engine} {EOk : EngineOk E} {C : Coefficients R}.

Lemma by_impact_rating_total : forall a b : RatingExtreme R,
    by_impact_rating a b = true \/ by_impact_rating b a = true.
Proof. intros a b. apply nleb_total. Qed.

Lemma by_impact_rating_trans : forall a b c : RatingExtreme R,
    by_impact_rating a b = true -> by_impact_rating b c = true ->
    by_impact_rating a c = true.
Proof. intros a b c. apply nleb_trans. Qed.

Lemma neqb_refl : forall x : R, neqb x x = true.
Proof.
  intros x. unfold neqb.
  now rewrite (leb_refl nleb nleb_total x).
Qed.

Lemma in_rating_extremes : forall (skill_db : Db R) rr x,
    In x (map rating_extreme_of_row (select_rating_extremes skill_db rr))
    <->
    exists p ir,
      In p (players skill_db) /\ In ir (impact_ratings skill_db rr)
      /\ players_player_id p = c_player_id (snd ir)
      /\ sql_in (fst ir)
           [sql_min nleb (map fst (impact_ratings skill_db rr));
            sql_max nleb (map fst (impact_ratings skill_db rr))] = true
      /\ x = extreme_of p ir.
Proof.
  intros skill_db rr x. rewrite in_map_iff.
  unfold select_rating_extremes. cbv zeta. split.
  - intros (row & <- & H). rewrite fetch_in, in_flat_map in H.
    destruct H as (p & Hp & H). apply in_map_iff in H as (ir & <- & Hir).
    apply filter_In in Hir as [Hir Hb].
    apply andb_true_iff in Hb as [Hid Hin]. apply Z.eqb_eq in Hid.
    exists p, ir. repeat split; assumption.
  - intros (p & ir & Hp & Hir & Hid & Hin & ->).
    eexists. split; [|rewrite fetch_in, in_flat_map; exists p; split;
                       [exact Hp|apply in_map_iff; exists ir; split;
                                 [reflexivity|]]].
    + reflexivity.
    + apply filter_In. split; [exact Hir|].
      apply andb_true_iff. split; [now apply Z.eqb_eq|exact Hin].
Qed.

Lemma get_rating_extremes_run : forall (skill_db : Db R) rr log,
    get_rating_extremes_between_rounds skill_db rr log =
    match stable_sort by_impact_rating
            (map rating_extreme_of_row
               (select_rating_extremes skill_db rr)) with
    | [] => (Raised IndexError, log ++ [SelectRatingExtremes])
    | first :: rest =>
        (Returned (first, last (first :: rest) first),
         log ++ [SelectRatingExtremes])
    end.
Proof.
  intros skill_db rr log.
  unfold get_rating_extremes_between_rounds, execute, bind.
  destruct (stable_sort _ _); reflexivity.
Qed.

(** Under the foreign key, every rated player joins a [players] row. *)
Lemma impact_rating_joins_player : forall (skill_db : Db R) rr ir,
    rating_components_fk skill_db ->
    In ir (impact_ratings skill_db rr) ->
    exists p, In p (players skill_db)
              /\ players_player_id p = c_player_id (snd ir).
Proof.
  intros skill_db rr ir Hfk Hir.
  apply in_impact_ratings in Hir as [Hc _].
  apply in_components in Hc as [Hne _].
  destruct (player_rows skill_db rr (c_player_id (snd ir)))
    as [|rc t] eqn:Hf; [congruence|].
  assert (H : In rc (rc :: t)) by now left.
  rewrite <- Hf in H. apply filter_In in H as [H1 H2].
  apply andb_true_iff in H2 as [_ H2]. apply Z.eqb_eq in H2.
  destruct (Hfk rc H1) as (p & Hp & Hid).
  exists p. split; [exact Hp|congruence].
Qed.

Lemma impact_rating_player_in_range : forall (skill_db : Db R) rr ir,
    In ir (impact_ratings skill_db rr) ->
    exists rc, In rc (rating_components skill_db)
               /\ in_range rr (rc_round_id rc) = true
               /\ rc_player_id rc = c_player_id (snd ir).
Proof.
  intros skill_db rr ir Hir.
  apply in_impact_ratings in Hir as [Hc _].
  apply in_components in Hc as [Hne _].
  destruct (player_rows skill_db rr (c_player_id (snd ir)))
    as [|rc t] eqn:Hf; [congruence|].
  assert (H : In rc (rc :: t)) by now left.
  rewrite <- Hf in H. apply filter_In in H as [H1 H2].
  apply andb_true_iff in H2 as [H2 H3]. apply Z.eqb_eq in H3.
  exists rc. repeat split; congruence.
Qed.

Lemma impact_ratings_nonempty : forall (skill_db : Db R) rr rc,
    In rc (rating_components skill_db) ->
    in_range rr (rc_round_id rc) = true ->
    exists ir, In ir (impact_ratings skill_db rr).
Proof.
  intros skill_db rr rc Hrc Hin.
  exists (rating_formula
            (components_of (rc_player_id rc)
               (player_rows skill_db rr (rc_player_id rc))),
          components_of (rc_player_id rc)
            (player_rows skill_db rr (rc_player_id rc))).
  apply in_impact_ratings. split; [|reflexivity]. simpl.
  apply in_components. split; [|reflexivity]. simpl.
  intro Hnil.
  assert (H : In rc (player_rows skill_db rr (rc_player_id rc))).
  { apply filter_In. split; [exact Hrc|].
    now rewrite Hin, Z.eqb_refl. }
  rewrite Hnil in H. destruct H.
Qed.
End Extremes.

(** C4: with [players] keyed by [player_id] and every rating-component row
    referring to a player, if some rating-component row lies in the range
    then the function returns a pair [(lowest, highest)]: the rating of
    [lowest] is one of the impact ratings of the grouped players and is
    below all of them, the rating of [highest] is one of them and above all
    of them, the rating of [lowest] is at most that of [highest], and when
    all the rows in the range belong to one player both entries are that
    player's record. *)
Theorem rating_extremes_are_min_and_max :
  forall (R : Type) (N : Num R) (NO : NumOrder R)
         (E : Engine) (EOk : EngineOk E) (C : Coefficients R)
         (skill_db : Db R) (rr : RoundRange) (log : list Statement),
    players_pk skill_db ->
    rating_components_fk skill_db ->
    (exists rc, In rc (rating_components skill_db)
                /\ in_range rr (rc_round_id rc) = true) ->
    exists lowest highest,
      get_rating_extremes_between_rounds skill_db rr log =
        (Returned (lowest, highest), log ++ [SelectRatingExtremes])
      /\ In (re_impact_rating lowest)
            (map fst (impact_ratings skill_db rr))
      /\ (forall r, In r (map fst (impact_ratings skill_db rr)) ->
                    nleb (re_impact_rating lowest) r = true)
      /\ In (re_impact_rating highest)
            (map fst (impact_ratings skill_db rr))
      /\ (forall r, In r (map fst (impact_ratings skill_db rr)) ->
                    nleb r (re_impact_rating highest) = true)
      /\ nleb (re_impact_rating lowest) (re_impact_rating highest) = true
      /\ (forall pid,
            (forall rc, In rc (rating_components skill_db) ->
                        in_range rr (rc_round_id rc) = true ->
                        rc_player_id rc = pid) ->
            lowest = highest /\ re_player_id lowest = pid).
Proof.
  intros R N NO E EOk C skill_db rr log Hpk Hfk (rc & Hrc & Hrange).
  set (IR := impact_ratings skill_db rr).
  set (extremes :=
         map rating_extreme_of_row (select_rating_extremes skill_db rr)).
  set (sorted := stable_sort by_impact_rating extremes).
  assert (Hperm : forall x, In x sorted <-> In x extremes).
  { intros x. split; apply Permutation_in;
      [apply Permutation_sym|]; apply stable_sort_perm. }
  assert (Hsorted : StronglySorted
                      (fun a b => by_impact_rating a b = true) sorted)
    by (apply stable_sort_sorted;
        [apply by_impact_rating_total|apply by_impact_rating_trans]).
  (* the least and the greatest rating of the grouped players *)
  edestruct impact_ratings_nonempty as [ir0 Hir0];
    [exact Hrc|exact Hrange|].
  assert (Hne : map fst IR <> []).
  { intro Hnil. apply map_eq_nil in Hnil. unfold IR in Hnil.
    rewrite Hnil in Hir0. destruct Hir0. }
  destruct (sql_min_nonempty nleb Hne) as [m Hm].
  destruct (sql_max_nonempty nleb Hne) as [M HM].
  destruct (sql_min_some _ nleb_total nleb_trans _ Hm) as [Hm_in Hm_le].
  destruct (sql_max_some _ nleb_total nleb_trans _ HM) as [HM_in HM_le].
  (* both are returned by the statement *)
  assert (Hlo : exists x, In x sorted /\ re_impact_rating x = m).
  { apply in_map_iff in Hm_in as (ir & Hfst & Hir).
    edestruct impact_rating_joins_player as (p & Hp & Hid);
      [exact Hfk|exact Hir|].
    exists (extreme_of p ir). split; [|exact Hfst].
    apply Hperm, in_rating_extremes. exists p, ir.
    repeat split; try assumption.
    fold IR. rewrite Hm, HM. unfold sql_in. simpl.
    now rewrite Hfst, neqb_refl. }
  assert (Hhi : exists x, In x sorted /\ re_impact_rating x = M).
  { apply in_map_iff in HM_in as (ir & Hfst & Hir).
    edestruct impact_rating_joins_player as (p & Hp & Hid);
      [exact Hfk|exact Hir|].
    exists (extreme_of p ir). split; [|exact Hfst].
    apply Hperm, in_rating_extremes. exists p, ir.
    repeat split; try assumption.
    fold IR. rewrite Hm, HM. unfold sql_in. simpl.
    rewrite Hfst, neqb_refl. now rewrite orb_true_r. }
  (* every returned rating is a rating of a grouped player *)
  assert (Hrated : forall x, In x sorted ->
                             In (re_impact_rating x) (map fst IR)).
  { intros x Hx. apply Hperm, in_rating_extremes in Hx
      as (p & ir & _ & Hir & _ & _ & ->).
    simpl. now apply in_map. }
  pose proof (get_rating_extremes_run skill_db rr log) as Hrun.
  fold extremes in Hrun. fold sorted in Hrun.
  destruct sorted as [|first rest] eqn:Hs.
  { destruct Hlo as (x & [] & _). }
  exists first, (last (first :: rest) first).
  assert (Hlast : In (last (first :: rest) first) (first :: rest))
    by (apply last_in; discriminate).
  destruct Hlo as (xm & Hxm & Hrm). destruct Hhi as (xM & HxM & HrM).
  assert (Hfirst_m : nleb (re_impact_rating first) m = true).
  { rewrite <- Hrm.
    apply (sorted_head_least _ by_impact_rating_total Hsorted Hxm). }
  assert (Hlast_M : nleb M (re_impact_rating (last (first :: rest) first))
                    = true).
  { rewrite <- HrM.
    apply (sorted_last_greatest _ by_impact_rating_total first xM
             Hsorted HxM). }
  split; [exact Hrun|].
  split; [apply Hrated; now left|].
  split; [intros r Hr; apply nleb_trans with m; auto|].
  split; [apply Hrated; exact Hlast|].
  split; [intros r Hr; apply nleb_trans with M; auto|].
  split; [apply (sorted_head_least _ by_impact_rating_total Hsorted Hlast)|].
  intros pid Hone.
  assert (Hsame : forall x y, In x (first :: rest) -> In y (first :: rest) ->
                              x = y /\ re_player_id x = pid).
  { intros x y Hx Hy.
    apply Hperm, in_rating_extremes in Hx
      as (p & ir & Hp & Hir & Hid & _ & ->).
    apply Hperm, in_rating_extremes in Hy
      as (p' & ir' & Hp' & Hir' & Hid' & _ & ->).
    edestruct impact_rating_player_in_range
      as (rc1 & Hrc1 & Hin1 & Hp1); [exact Hir|].
    edestruct impact_rating_player_in_range
      as (rc2 & Hrc2 & Hin2 & Hp2); [exact Hir'|].
    rewrite (Hone _ Hrc1 Hin1) in Hp1. rewrite (Hone _ Hrc2 Hin2) in Hp2.
    assert (Hireq : ir = ir').
    { apply in_impact_ratings in Hir as [Hc Hr].
      apply in_impact_ratings in Hir' as [Hc' Hr'].
      assert (Hceq : snd ir = snd ir')
        by (eapply components_same_player; try eassumption; congruence).
      destruct ir as [r c], ir' as [r' c']. simpl in *. congruence. }
    subst ir'.
    assert (Hpeq : p = p').
    { apply (nodup_key_injective players_player_id (players skill_db));
        try assumption. congruence. }
    subst p'. split; [reflexivity|]. simpl. congruence. }
  destruct (Hsame first (last (first :: rest) first)) as [Heq Hid];
    [now left|exact Hlast|].
  split; assumption.
Qed.

(** Rounds 1 to 3 of [Example.db]: bob is lowest and alice highest. *)
Lemma rating_extremes_are_min_and_max_witness :
  exists lowest highest,
    get_rating_extremes_between_rounds (E := sqlite_engine) Example.db
      (Some 1, Some 3) [] =
      (Returned (lowest, highest), [SelectRatingExtremes])
    /\ nleb (re_impact_rating lowest) (re_impact_rating highest) = true.
Proof.
  destruct (@rating_extremes_are_min_and_max Q Q_Num Q_NumOrder sqlite_engine
              sqlite_engine_ok Example.coefficients Example.db
              (Some 1, Some 3) [])
    as (lowest & highest & Hrun & _ & _ & _ & _ & Hle & _).
  - unfold players_pk. simpl.
    repeat constructor; simpl; intuition discriminate.
  - intros rc Hrc. simpl in Hrc.
    destruct Hrc as [<-|[<-|[<-|[<-|[]]]]]; simpl.
    + exists Example.alice. split; [now left|reflexivity].
    + exists Example.bob. split; [right; now left|reflexivity].
    + exists Example.alice. split; [now left|reflexivity].
    + exists Example.bob. split; [right; now left|reflexivity].
  - exists (Example.rc 1 1 (1#1) (1#2) (2#1) (1#1)).
    split; [now left|reflexivity].
  - exists lowest, highest. split; assumption.
Defined.

(** ** Joins on a key *)

Lemma filter_flat_map_single :
  forall (A B : Type) (f : A -> list B) (P : B -> bool) (l : list A) (a : A),
    NoDup l -> In a l ->
    (forall x, In x l -> x <> a -> forall b, In b (f x) -> P b = false) ->
    filter P (flat_map f l) = filter P (f a).
Proof.
  intros A B f P l a. induction l as [|x t IH]; intros Hnd Ha Hother.
  - destruct Ha.
  - inversion Hnd as [|? ? Hn Hnd']; subst. simpl. rewrite filter_app.
    destruct Ha as [->|Ha].
    + rewrite (filter_none P (flat_map f t)); [apply app_nil_r|].
      intros b Hb. apply in_flat_map in Hb as (y & Hy & Hb).
      apply (Hother y); [now right| |exact Hb].
      intros ->. contradiction.
    + rewrite (filter_none P (f x)).
      * simpl. apply IH; try assumption.
        intros y Hy. apply Hother. now right.
      * intros b Hb. apply (Hother x); [now left| |exact Hb].
        intros ->. contradiction.
Qed.

Lemma id_name_eqb_spec : forall a b : Z * string,
    id_name_eqb a b = true <-> a = b.
Proof.
  intros [i n] [j m]. unfold id_name_eqb. simpl.
  rewrite andb_true_iff, Z.eqb_eq, String.eqb_eq. split.
  - intros [-> ->]. reflexivity.
  - intros H. injection H as -> ->. tauto.
Qed.

Lemma count_desc_total : forall (K : Type) (a b : K * nat),
    count_desc a b = true \/ count_desc b a = true.
Proof. intros K a b. unfold count_desc. rewrite !Nat.leb_le. lia. Qed.

Lemma count_desc_trans : forall (K : Type) (a b c : K * nat),
    count_desc a b = true -> count_desc b c = true -> count_desc a c = true.
Proof. intros K a b c. unfold count_desc. rewrite !Nat.leb_le. lia. Qed.

(** ** The MVP Leader *)

Section MvpLeader.
Context {R : Type} {N : Num R} {E : Engine} {EOk : EngineOk E}.

Lemma in_players_join_rounds : forall (skill_db : Db R) rr p r,
    In (p, r) (players_join_rounds skill_db rr) <->
    In p (players skill_db) /\ In r (rounds skill_db)
    /\ mvp r = Some (players_player_id p)
    /\ in_range rr (round_id r) = true.
Proof.
  intros skill_db rr p r. unfold players_join_rounds.
  rewrite filter_In, in_flat_map. simpl. split.
  - intros [(p' & Hp & H) Hin].
    apply in_map_iff in H as (r' & Heq & Hr). injection Heq as -> ->.
    apply filter_In in Hr as [Hr Hm]. unfold mvp_is in Hm.
    destruct (mvp r) as [m|]; [|discriminate].
    apply Z.eqb_eq in Hm. subst m. tauto.
  - intros (Hp & Hr & Hm & Hin). split; [|exact Hin].
    exists p. split; [exact Hp|]. apply in_map. apply filter_In.
    split; [exact Hr|]. unfold mvp_is. rewrite Hm. apply Z.eqb_refl.
Qed.

(** Under the primary key, the group of a player holds one row per round
    in the range that names the player as MVP. *)
Lemma mvp_group_count : forall (skill_db : Db R) rr p,
    players_pk skill_db -> In p (players skill_db) ->
    length (filter (fun pr => id_name_eqb (players_player_id p,
                                           players_steam_name p)
                                (mvp_key pr))
              (players_join_rounds skill_db rr)) =
    mvp_count skill_db rr (players_player_id p).
Proof.
  intros skill_db rr p Hpk Hp. unfold players_join_rounds.
  rewrite filter_filter_and.
  rewrite (@filter_flat_map_single _ _ _ _ (players skill_db) p).
  - rewrite filter_map_swap, length_map, filter_filter_and.
    unfold mvp_count. f_equal. apply filter_ext. intros r.
    unfold mvp_is, mvp_key, id_name_eqb. simpl.
    rewrite Z.eqb_refl, String.eqb_refl.
    destruct (mvp r) as [m|]; simpl.
    + rewrite (Z.eqb_sym m). destruct (_ =? m), (in_range rr _); reflexivity.
    + now rewrite andb_false_r.
  - exact (NoDup_map_inv _ _ Hpk).
  - exact Hp.
  - intros x Hx Hne b Hb. apply in_map_iff in Hb as (r & <- & _).
    unfold mvp_key, id_name_eqb. simpl.
    destruct (players_player_id p =? players_player_id x) eqn:Heq.
    + apply Z.eqb_eq in Heq. exfalso. apply Hne.
      apply (nodup_key_injective players_player_id (players skill_db));
        auto.
    + simpl. apply andb_false_r.
Qed.

Lemma get_most_mvps_run : forall (skill_db : Db R) rr log,
    get_player_with_most_mvps_between_rounds skill_db rr log =
    match select_most_mvps skill_db rr with
    | [] => (Raised StopIteration, log ++ [SelectMostMvps])
    | (pid, name, n) :: _ =>
        (Returned {| mm_player_id := pid; mm_steam_name := name;
                     mm_mvps := n |},
         log ++ [SelectMostMvps])
    end.
Proof.
  intros skill_db rr log.
  unfold get_player_with_most_mvps_between_rounds, execute_one, execute,
    bind.
  destruct (select_most_mvps skill_db rr) as [|[[pid name] n] t];
    reflexivity.
Qed.

(** The rows of the statement: one per player named MVP in the range,
    with the player's count. *)
Lemma in_select_most_mvps : forall (skill_db : Db R) rr pid name n,
    players_pk skill_db ->
    (In (pid, name, n) (select_most_mvps skill_db rr) <->
     (exists p, In p (players skill_db) /\ players_player_id p = pid
                /\ players_steam_name p = name)
     /\ n = mvp_count skill_db rr pid /\ n <> 0%nat).
Proof.
  intros skill_db rr pid name n Hpk.
  unfold select_most_mvps. rewrite order_by_in, in_map_iff. split.
  - intros ([k g] & Heq & Hg). simpl in Heq. injection Heq as -> <-.
    apply group_order_in in Hg.
    apply (group_by_in _ _ id_name_eqb_spec) in Hg as [Hg Hne].
    assert (Hex : exists pr, In pr g)
      by (destruct g as [|pr t]; [congruence|exists pr; now left]).
    destruct Hex as [[p r] Hpr].
    rewrite Hg in Hpr. apply filter_In in Hpr as [Hpr Hk].
    apply id_name_eqb_spec in Hk. simpl in Hk. injection Hk as -> ->.
    apply in_players_join_rounds in Hpr as (Hp & _).
    split; [now exists p|]. split.
    + rewrite Hg. exact (mvp_group_count rr p Hpk Hp).
    + intro Hz. apply length_zero_iff_nil in Hz. contradiction.
  - intros ((p & Hp & <- & <-) & -> & Hne).
    rewrite <- (mvp_group_count rr p Hpk Hp) in *.
    set (grp := filter _ (players_join_rounds skill_db rr)) in *.
    assert (Hex : exists pr, In pr grp)
      by (destruct grp as [|pr t]; [simpl in Hne; congruence
                                   |exists pr; now left]).
    destruct Hex as [pr Hpr]. unfold grp in Hpr.
    apply filter_In in Hpr as [Hpr Hk].
    apply id_name_eqb_spec in Hk.
    destruct (group_by_complete id_name_eqb mvp_key id_name_eqb_spec
                _ _ Hpr) as [g Hg].
    exists (mvp_key pr, g). split; [|apply group_order_in; exact Hg].
    apply (group_by_in _ _ id_name_eqb_spec) in Hg as [-> _].
    simpl. rewrite <- Hk. reflexivity.
Qed.
End MvpLeader.

Section MvpCount.
Context {R : Type}.

Lemma mvp_count_pos : forall (skill_db : Db R) rr pid,
    mvp_count skill_db rr pid <> 0%nat <->
    exists r, In r (rounds skill_db)
              /\ in_range rr (round_id r) = true /\ mvp r = Some pid.
Proof.
  intros skill_db rr pid. unfold mvp_count.
  set (f := fun r : RoundRow => _).
  assert (Hf : forall r, f r = true <->
                 in_range rr (round_id r) = true /\ mvp r = Some pid).
  { intros r. unfold f. rewrite andb_true_iff.
    destruct (mvp r) as [m|].
    - rewrite Z.eqb_eq. split; intros [H1 H2]; split; congruence.
    - split; intros [H1 H2]; discriminate. }
  split.
  - intros Hne. destruct (filter f (rounds skill_db)) as [|r t] eqn:Hfl;
      [simpl in Hne; congruence|].
    assert (Hr : In r (filter f (rounds skill_db)))
      by (rewrite Hfl; now left).
    apply filter_In in Hr as [Hr Hfr]. apply Hf in Hfr.
    exists r. tauto.
  - intros (r & Hr & Hin & Hm) Hz. apply length_zero_iff_nil in Hz.
    assert (Hr' : In r (filter f (rounds skill_db)))
      by (apply filter_In; split; [exact Hr|apply Hf; tauto]).
    rewrite Hz in Hr'. destruct Hr'.
Qed.
End MvpCount.

(** C9: with [players] keyed by [player_id] and every recorded MVP
    referring to a player, if some round in the range has an MVP then the
    MVP Leader returns one entry, for a player of [players]; its [mvps] is
    the number of rounds in the range whose MVP is that player, and no
    player has more. *)
Theorem mvp_leader_has_max_count :
  forall (R : Type) (N : Num R) (E : Engine) (EOk : EngineOk E)
         (skill_db : Db R) (rr : RoundRange) (log : list Statement),
    players_pk skill_db ->
    rounds_mvp_fk skill_db ->
    (exists r pid, In r (rounds skill_db)
                   /\ in_range rr (round_id r) = true /\ mvp r = Some pid) ->
    exists entry,
      get_player_with_most_mvps_between_rounds skill_db rr log =
        (Returned entry, log ++ [SelectMostMvps])
      /\ (exists p, In p (players skill_db)
                    /\ players_player_id p = mm_player_id entry
                    /\ players_steam_name p = mm_steam_name entry)
      /\ mm_mvps entry = mvp_count skill_db rr (mm_player_id entry)
      /\ (forall pid, (mvp_count skill_db rr pid <= mm_mvps entry)%nat).
Proof.
  intros R N E EOk skill_db rr log Hpk Hfk Hsome.
  assert (Hrow : forall pid, mvp_count skill_db rr pid <> 0%nat ->
             exists name,
               In (pid, name, mvp_count skill_db rr pid)
                  (select_most_mvps skill_db rr)).
  { intros pid Hpos. pose proof Hpos as Hpos'.
    apply mvp_count_pos in Hpos' as (r & Hr & _ & Hm).
    destruct (Hfk r pid Hr Hm) as (p & Hp & Hid).
    exists (players_steam_name p).
    apply (in_select_most_mvps rr pid (players_steam_name p) _ Hpk).
    split; [now exists p|]. split; [reflexivity|exact Hpos]. }
  assert (Hsorted : StronglySorted (fun a b => count_desc a b = true)
                      (select_most_mvps skill_db rr)).
  { unfold select_most_mvps. apply order_by_sorted.
    - apply count_desc_total.
    - apply count_desc_trans. }
  pose proof (get_most_mvps_run skill_db rr log) as Hrun.
  destruct (select_most_mvps skill_db rr) as [|[[pid0 name0] n0] rest] eqn:Hs.
  { exfalso. destruct Hsome as (r & pid & Hr & Hin & Hm).
    destruct (Hrow pid) as [name []].
    apply mvp_count_pos. exists r. tauto. }
  eexists. split; [exact Hrun|]. simpl.
  assert (Hfirst : In (pid0, name0, n0) (select_most_mvps skill_db rr))
    by (rewrite Hs; now left).
  apply (in_select_most_mvps rr pid0 name0 n0 Hpk) in Hfirst
    as (Hp0 & Hn0 & _).
  split; [exact Hp0|]. split; [exact Hn0|].
  intros pid. destruct (Nat.eq_dec (mvp_count skill_db rr pid) 0) as [Hz|Hnz].
  - rewrite Hz. lia.
  - destruct (Hrow pid Hnz) as [name Hin].
    pose proof (sorted_head_least _ (@count_desc_total (Z * string))
                  Hsorted Hin) as Hle.
    unfold count_desc in Hle. simpl in Hle. now apply Nat.leb_le in Hle.
Qed.

(** Rounds 1 to 3 of [Example.db]: alice was MVP twice, bob once. *)
Lemma mvp_leader_has_max_count_witness :
  exists entry,
    get_player_with_most_mvps_between_rounds (R := Q) (E := sqlite_engine)
      Example.db (Some 1, Some 3) [] = (Returned entry, [SelectMostMvps])
    /\ mm_mvps entry = 2%nat.
Proof.
  destruct (@mvp_leader_has_max_count Q Q_Num sqlite_engine sqlite_engine_ok
              Example.db (Some 1, Some 3) [])
    as (entry & Hrun & _ & Hn & _).
  - unfold players_pk. simpl.
    repeat constructor; simpl; intuition discriminate.
  - intros r pid Hr Hm. simpl in Hr.
    destruct Hr as [<-|[<-|[<-|[]]]]; simpl in Hm; injection Hm as <-.
    + exists Example.alice. split; [now left|reflexivity].
    + exists Example.bob. split; [right; now left|reflexivity].
    + exists Example.alice. split; [now left|reflexivity].
  - eexists _, 1. split; [now left|]. split; reflexivity.
  - exists entry. split; [exact Hrun|].
    vm_compute in Hrun. injection Hrun as <-. reflexivity.
Defined.

(** ** Counting the rows of a join *)

Lemma length_filter_flat_map :
  forall (A B : Type) (f : A -> list B) (P : B -> bool) (l : list A),
    length (filter P (flat_map f l)) =
    list_sum (map (fun x => length (filter P (f x))) l).
Proof.
  intros A B f P l. induction l as [|x t IH]; simpl; [reflexivity|].
  now rewrite filter_app, length_app, IH.
Qed.

Lemma length_filter_indicator :
  forall (A : Type) (Q : A -> bool) (l : list A),
    length (filter Q l) =
    list_sum (map (fun x => if Q x then 1%nat else 0%nat) l).
Proof.
  intros A Q l. induction l as [|x t IH]; simpl; [reflexivity|].
  destruct (Q x); simpl; now rewrite IH.
Qed.

(** At most one row of a keyed table matches a given key. *)
Lemma keyed_match_count :
  forall (A : Type) (key : A -> Z) (P : A -> bool) (k : Z) (l : list A),
    NoDup (map key l) ->
    (forall m, In m l -> P m = true -> key m = k) ->
    length (filter P l) = if existsb P l then 1%nat else 0%nat.
Proof.
  intros A key P k l. induction l as [|m t IH]; simpl; intros Hnd Hk;
    [reflexivity|].
  inversion Hnd as [|? ? Hn Hnd']; subst.
  destruct (P m) eqn:Hm; simpl.
  - rewrite (filter_none P t); [reflexivity|].
    intros m' Hm'. destruct (P m') eqn:HP; [|reflexivity].
    exfalso. apply Hn.
    rewrite (Hk m (or_introl eq_refl) Hm), <- (Hk m' (or_intror Hm') HP).
    now apply in_map.
  - apply IH; [exact Hnd'|]. intros m' Hm'. apply Hk. now right.
Qed.

(** ** Python's [dict] on rows with distinct keys *)

Lemma dict_set_new : forall (V : Type) (k : string) (v : V) d,
    ~ In k (map fst d) -> dict_set k v d = d ++ [(k, v)].
Proof.
  intros V k v d. induction d as [|[k' v'] t IH]; simpl; intros Hn;
    [reflexivity|].
  destruct (String.eqb k' k) eqn:Hk.
  - apply String.eqb_eq in Hk. exfalso. apply Hn. now left.
  - f_equal. apply IH. tauto.
Qed.

Lemma dict_fold_distinct : forall (V : Type) (l d : list (string * V)),
    NoDup (map fst (d ++ l)) ->
    fold_left (fun d kv => dict_set (fst kv) (snd kv) d) l d = d ++ l.
Proof.
  intros V l. induction l as [|[k v] t IH]; intros d Hnd; simpl.
  - now rewrite app_nil_r.
  - rewrite dict_set_new.
    + rewrite IH; rewrite <- app_assoc; [reflexivity|exact Hnd].
    + rewrite map_app in Hnd. simpl in Hnd.
      apply NoDup_remove_2 in Hnd. intro Hin. apply Hnd.
      apply in_or_app. now left.
Qed.

Lemma dict_distinct : forall (V : Type) (l : list (string * V)),
    NoDup (map fst l) -> dict l = l.
Proof. intros V l H. unfold dict. now rewrite dict_fold_distinct. Qed.

(** ** The Map Popularity Counter *)

Section MapPopularity.
Context {R : Type} {N : Num R} {E : Engine} {EOk : EngineOk E}.

Lemma map_group_count : forall (skill_db : Db R) rr name,
    maps_pk skill_db ->
    length (filter (fun rm => String.eqb name (map_key rm))
              (rounds_join_maps skill_db rr)) =
    rounds_on_map skill_db rr name.
Proof.
  intros skill_db rr name Hpk. unfold rounds_join_maps, rounds_on_map.
  rewrite filter_filter_and, length_filter_flat_map,
    length_filter_indicator.
  f_equal. apply map_ext. intros r.
  rewrite filter_map_swap, length_map, filter_filter_and.
  unfold map_key. simpl.
  destruct (in_range rr (round_id r)); simpl.
  - apply keyed_match_count with (key := maps_map_id) (k := map_id r);
      [exact Hpk|].
    intros m _ Hm. apply andb_true_iff in Hm as [Hm _].
    apply Z.eqb_eq in Hm. congruence.
  - rewrite filter_none; [reflexivity|].
    intros m _. apply andb_false_r.
Qed.
End MapPopularity.

Section MapPopularityRows.
Context {R : Type} {N : Num R} {E : Engine} {EOk : EngineOk E}.

Lemma in_select_most_played_maps : forall (skill_db : Db R) rr name n,
    maps_pk skill_db ->
    (In (name, n) (select_most_played_maps skill_db rr) <->
     n = rounds_on_map skill_db rr name /\ n <> 0%nat).
Proof.
  intros skill_db rr name n Hpk.
  unfold select_most_played_maps. rewrite order_by_in, in_map_iff.
  rewrite <- (map_group_count rr name Hpk). split.
  - intros ([k g] & Heq & Hg). simpl in Heq. injection Heq as -> <-.
    apply group_order_in in Hg.
    apply (group_by_in _ _ String.eqb_eq) in Hg as [Hg Hne].
    split; [now rewrite Hg|].
    intro Hz. apply length_zero_iff_nil in Hz. contradiction.
  - intros [-> Hne].
    set (grp := filter _ (rounds_join_maps skill_db rr)) in *.
    assert (Hex : exists rm, In rm grp)
      by (destruct grp as [|rm t]; [simpl in Hne; congruence
                                   |exists rm; now left]).
    destruct Hex as [rm Hrm]. unfold grp in Hrm.
    apply filter_In in Hrm as [Hrm Hk]. apply String.eqb_eq in Hk.
    destruct (group_by_complete String.eqb map_key String.eqb_eq _ _ Hrm)
      as [g Hg].
    exists (map_key rm, g). split; [|apply group_order_in; exact Hg].
    apply (group_by_in _ _ String.eqb_eq) in Hg as [-> _].
    simpl. rewrite <- Hk. reflexivity.
Qed.

Lemma select_most_played_maps_keys : forall (skill_db : Db R) rr,
    NoDup (map fst (select_most_played_maps skill_db rr)).
Proof.
  intros skill_db rr. unfold select_most_played_maps.
  eapply Permutation_NoDup.
  - apply Permutation_map. apply order_by_perm.
  - rewrite map_map. simpl.
    eapply Permutation_NoDup;
      [apply Permutation_map; apply group_order_perm|].
    apply (group_by_keys_nodup String.eqb _ String.eqb_eq).
Qed.
End MapPopularityRows.

Section MapPopularityOrder.
Context {R : Type} {N : Num R}.




End MapPopularityOrder.



(** * Further properties of [highlights.py] *)

(** ** [get_highlights], all paths *)

Section AssemblerPaths.
Context {R : Type} {N : Num R} {E : Engine} {EOk : EngineOk E}
        {C : Coefficients R} {S : SkillModel R}
        {Dt : Type} {D : PyDatetime Dt}.

Lemma get_highlights_returns :
  forall (skill_db : Db R) day log rr n log1 lowest highest log2,
    get_round_range_for_day skill_db day log = (Returned (rr, n), log1) ->
    n <> 0%nat ->
    get_rating_extremes_between_rounds skill_db rr log1 =
      (Returned (lowest, highest), log2) ->
    get_highlights skill_db day log =
    (Returned
       {| time_window := (isoformat day, isoformat (plus_one_day day));
          rounds_played := n;
          lowest_rating := lowest;
          highest_rating := highest;
          season_skill_group_changes :=
            map shape_skill_change
              (filter skill_group_differs
                 (stable_sort by_neg_later_mmr
                    (map skill_change_of_row
                       (select_skill_changes skill_db rr))));
          most_played_maps := dict (select_most_played_maps skill_db rr);
          most_mvps := most_mvps_of_rows (select_most_mvps skill_db rr) |},
     log2 ++ [SelectMostMvps; SelectSkillChanges; SelectMostPlayedMaps]).
Proof.
  intros skill_db day log rr n log1 lowest highest log2 H Hn He.
  unfold get_highlights, bind. rewrite H.
  apply Nat.eqb_neq in Hn. rewrite Hn. rewrite He.
  unfold try_except_StopIteration, bind.
  rewrite (get_most_mvps_run skill_db rr log2).
  destruct (select_most_mvps skill_db rr) as [|[[pid name] k] t];
    unfold ret; cbv beta iota;
    rewrite get_skill_changes_run, get_most_played_maps_run;
    rewrite <- !app_assoc; reflexivity.
Qed.

Lemma get_rating_extremes_log : forall (skill_db : Db R) rr log out log',
    get_rating_extremes_between_rounds skill_db rr log = (out, log') ->
    log' = log ++ [SelectRatingExtremes]
    /\ (forall e, out = Raised e -> e = IndexError).
Proof.
  intros skill_db rr log out log' H.
  unfold get_rating_extremes_between_rounds, execute, bind in H.
  destruct (stable_sort _ _) in H; injection H as <- <-;
    (split; [reflexivity|]); intros e He; congruence.
Qed.

(** The three ways [get_highlights] can end. *)
Lemma get_highlights_paths : forall (skill_db : Db R) day log,
    exists rr n,
      get_round_range_for_day skill_db day log =
        (Returned (rr, n), log ++ [SelectRoundRange])
      /\ ((n = 0%nat
           /\ get_highlights skill_db day log =
              (Raised StopIteration, log ++ [SelectRoundRange]))
          \/ (n <> 0%nat
              /\ select_rating_extremes skill_db rr = []
              /\ get_highlights skill_db day log =
                 (Raised IndexError,
                  log ++ [SelectRoundRange; SelectRatingExtremes]))
          \/ (n <> 0%nat
              /\ select_rating_extremes skill_db rr <> []
              /\ exists lowest highest,
                   get_rating_extremes_between_rounds skill_db rr
                     (log ++ [SelectRoundRange]) =
                     (Returned (lowest, highest),
                      (log ++ [SelectRoundRange]) ++ [SelectRatingExtremes])
                   /\ get_highlights skill_db day log =
                      (Returned
                         {| time_window := (isoformat day, isoformat (plus_one_day day));
                            rounds_played := n;
                            lowest_rating := lowest;
                            highest_rating := highest;
                            season_skill_group_changes :=
                              map shape_skill_change
                                (filter skill_group_differs
                                   (stable_sort by_neg_later_mmr
                                      (map skill_change_of_row
                                         (select_skill_changes skill_db rr))));
                            most_played_maps :=
                              dict (select_most_played_maps skill_db rr);
                            most_mvps :=
                              most_mvps_of_rows
                                (select_most_mvps skill_db rr) |},
                       log ++ digest_statements))).
Proof.
  intros skill_db day log.
  pose proof (get_round_range_for_day_run skill_db day log) as Hrun.
  cbv zeta in Hrun. eexists _, _. split; [exact Hrun|].
  set (w := filter (created_in day (plus_one_day day)) (rounds skill_db)) in *.
  set (rr := (sql_min Z.leb (map round_id w),
              sql_max Z.leb (map round_id w))) in *.
  set (n := length w) in *.
  destruct (Nat.eq_dec n 0) as [Hz|Hnz].
  - left. split; [exact Hz|].
    eapply get_highlights_no_rounds. rewrite Hrun, Hz. reflexivity.
  - right.
    destruct (get_rating_extremes_between_rounds skill_db rr
                (log ++ [SelectRoundRange])) as [[[lowest highest]|e] log2]
      eqn:He.
    + right. destruct (get_rating_extremes_log _ _ _ He) as [-> _].
      split; [exact Hnz|]. split.
      * intro Hnil.
        rewrite (get_rating_extremes_no_rows skill_db rr _ Hnil) in He.
        discriminate.
      * exists lowest, highest. split; [reflexivity|].
        rewrite (get_highlights_returns _ _ _ Hrun Hnz He).
        unfold digest_statements. rewrite <- !app_assoc. reflexivity.
    + left. destruct (get_rating_extremes_log _ _ _ He) as [-> Hexn].
      rewrite (Hexn e eq_refl) in He.
      split; [exact Hnz|]. split.
      * rewrite get_rating_extremes_run in He.
        pose proof (stable_sort_perm by_impact_rating
                      (map rating_extreme_of_row
                         (select_rating_extremes skill_db rr))) as Hp.
        destruct (stable_sort by_impact_rating _) as [|x l];
          [|discriminate].
        apply Permutation_sym, Permutation_nil in Hp.
        now apply map_eq_nil in Hp.
      * rewrite (get_highlights_extremes_raise _ _ _ Hrun Hnz He).
        rewrite <- app_assoc. reflexivity.
Qed.
End AssemblerPaths.

(** X1: [get_highlights] ends in one of three ways and has then sent a
    fixed prefix of the five statements, in order: [StopIteration] after
    the round-range statement alone, [IndexError] after the round-range and
    rating statements, or a digest after all five; a digest has a
    non-zero [rounds_played] and the window [(day, day + 1 day)]. *)
Theorem get_highlights_three_outcomes :
  forall (R : Type) (N : Num R) (E : Engine) (EOk : EngineOk E)
         (C : Coefficients R) (S : SkillModel R)
         (Dt : Type) (D : PyDatetime Dt)
         (skill_db : Db R) (day : Dt) (log : list Statement),
    get_highlights skill_db day log =
      (Raised StopIteration, log ++ [SelectRoundRange])
    \/ get_highlights skill_db day log =
      (Raised IndexError, log ++ [SelectRoundRange; SelectRatingExtremes])
    \/ exists d,
         get_highlights skill_db day log =
           (Returned d, log ++ digest_statements)
         /\ rounds_played d <> 0%nat
         /\ time_window d = (isoformat day, isoformat (plus_one_day day)).
Proof.
  intros R N E EOk C S Dt D skill_db day log.
  destruct (get_highlights_paths skill_db day log)
    as (rr & n & _ & [[_ H]|[(_ & _ & H)|(Hn & _ & lo & hi & _ & H)]]).
  - now left.
  - right. now left.
  - right. right. eexists. split; [exact H|]. split; [exact Hn|reflexivity].
Qed.

(** Day 0 of [Example.db] gives a digest after the five statements. *)
Lemma get_highlights_three_outcomes_witness :
  exists d,
    get_highlights (E := sqlite_engine) Example.db Example.day0 [] =
      (Returned d, digest_statements)
    /\ rounds_played d = 3%nat.
Proof.
  destruct (@get_highlights_three_outcomes Q Q_Num sqlite_engine
              sqlite_engine_ok Example.coefficients Example.skill_model
              Datetime.t Datetime.py Example.db Example.day0 []) as [H|[H|(d & H & _)]].
  - vm_compute in H. discriminate.
  - vm_compute in H. discriminate.
  - exists d. split; [exact H|].
    vm_compute in H. injection H as <-. reflexivity.
Defined.

(** X2: [get_highlights] raises [StopIteration] exactly when the
    round-range statement selects no round, that is when no round's stored
    creation text lies between the texts bound for [day] and for
    [day + 1 day]; in particular the [StopIteration] of an empty MVP
    statement never leaves [get_highlights]. *)
Theorem stop_iteration_iff_no_round :
  forall (R : Type) (N : Num R) (E : Engine) (EOk : EngineOk E)
         (C : Coefficients R) (S : SkillModel R)
         (Dt : Type) (D : PyDatetime Dt)
         (skill_db : Db R) (day : Dt) (log : list Statement),
    fst (get_highlights skill_db day log) = Raised StopIteration <->
    (forall r, In r (rounds skill_db) ->
               created_in day (plus_one_day day) r = false).
Proof.
  intros R N E EOk C S Dt D skill_db day log.
  pose proof (get_round_range_for_day_run skill_db day log) as Hrun.
  cbv zeta in Hrun.
  destruct (get_highlights_paths skill_db day log)
    as (rr & n & Hrun' & Hcases).
  rewrite Hrun in Hrun'. injection Hrun' as _ Hn.
  split.
  - intros Hstop r Hr.
    destruct Hcases as [[Hz _]|[(_ & _ & H)|(_ & _ & lo & hi & _ & H)]].
    + rewrite <- Hn in Hz. apply length_zero_iff_nil in Hz.
      destruct (created_in day (plus_one_day day) r) eqn:Hin; [|reflexivity].
      assert (Hw : In r (filter (created_in day (plus_one_day day))
                           (rounds skill_db)))
        by (apply filter_In; tauto).
      rewrite Hz in Hw. destruct Hw.
    + rewrite H in Hstop. discriminate.
    + rewrite H in Hstop. discriminate.
  - intros Hnone.
    destruct Hcases as [[_ H]|[(Hnz & _)|(Hnz & _)]].
    + now rewrite H.
    + exfalso. apply Hnz. rewrite <- Hn.
      now rewrite (filter_none _ _ Hnone).
    + exfalso. apply Hnz. rewrite <- Hn.
      now rewrite (filter_none _ _ Hnone).
Qed.

(** Day 0 of [Example.no_mvp_db]: rounds without MVP, no [StopIteration]. *)
Lemma stop_iteration_iff_no_round_witness :
  fst (get_highlights (E := sqlite_engine) Example.no_mvp_db Example.day0 [])
  <> Raised StopIteration.
Proof.
  intro H.
  apply (proj1 (@stop_iteration_iff_no_round Q Q_Num sqlite_engine
                  sqlite_engine_ok Example.coefficients Example.skill_model
                  Datetime.t Datetime.py Example.no_mvp_db Example.day0 [])) with
    (r := {| round_id := 1; created_at := "1970-01-01 00:16:40";
             map_id := 10; mvp := None |})
    in H.
  - discriminate.
  - now left.
Defined.

(** ** More on the rating extremes *)

Section ExtremesReturned.
Context {R : Type} {N : Num R} {E : Engine} {EOk : EngineOk E}
        {C : Coefficients R}.

(** Both returned records are rows of the statement. *)
Lemma returned_extremes_are_rows :
  forall (skill_db : Db R) rr log lowest highest log',
    get_rating_extremes_between_rounds skill_db rr log =
      (Returned (lowest, highest), log') ->
    forall x, x = lowest \/ x = highest ->
      In x (stable_sort by_impact_rating
              (map rating_extreme_of_row
                 (select_rating_extremes skill_db rr)))
      /\ In x (map rating_extreme_of_row
                 (select_rating_extremes skill_db rr)).
Proof.
  intros skill_db rr log lowest highest log' H x Hx.
  rewrite get_rating_extremes_run in H.
  pose proof (stable_sort_perm by_impact_rating
                (map rating_extreme_of_row
                   (select_rating_extremes skill_db rr))) as Hp.
  destruct (stable_sort by_impact_rating _) as [|first rest] eqn:Hs;
    [discriminate|].
  injection H as <- <- _.
  assert (Hin : In x (first :: rest)).
  { destruct Hx as [->| ->]; [now left|].
    change (In (last (first :: rest) first) (first :: rest)).
    apply last_in. discriminate. }
  split; [exact Hin|].
  exact (Permutation_in _ (Permutation_sym Hp) Hin).
Qed.

Lemma select_rating_extremes_nonempty :
  forall (NO : NumOrder R) (skill_db : Db R) rr rc,
    rating_components_fk skill_db ->
    In rc (rating_components skill_db) ->
    in_range rr (rc_round_id rc) = true ->
    select_rating_extremes skill_db rr <> [].
Proof.
  intros NO skill_db rr rc Hfk Hrc Hrange Hnil.
  edestruct impact_ratings_nonempty as [ir0 Hir0];
    [exact Hrc|exact Hrange|].
  assert (Hne : map fst (impact_ratings skill_db rr) <> []).
  { intro H0. apply map_eq_nil in H0. rewrite H0 in Hir0. destruct Hir0. }
  destruct (sql_min_nonempty nleb Hne) as [m Hm].
  destruct (sql_min_some _ nleb_total nleb_trans _ Hm) as [Hm_in _].
  apply in_map_iff in Hm_in as (ir & Hfst & Hir).
  edestruct impact_rating_joins_player as (p & Hp & Hid);
    [exact Hfk|exact Hir|].
  assert (Hin : In (extreme_of p ir)
                   (map rating_extreme_of_row
                      (select_rating_extremes skill_db rr))).
  { apply in_rating_extremes. exists p, ir.
    repeat split; try assumption.
    rewrite Hm. unfold sql_in. simpl. now rewrite Hfst, neqb_refl. }
  rewrite Hnil in Hin. destruct Hin.
Qed.
End ExtremesReturned.

(** X3: with every rating-component row referring to a player, and the
    resolver having returned range [rr] and count [n], [get_highlights]
    returns a digest exactly when [n] is not zero and some
    rating-component row lies in [rr]. *)
Theorem digest_iff_rounds_and_ratings :
  forall (R : Type) (N : Num R) (NO : NumOrder R)
         (E : Engine) (EOk : EngineOk E)
         (C : Coefficients R) (S : SkillModel R)
         (Dt : Type) (D : PyDatetime Dt)
         (skill_db : Db R) (day : Dt) (log log1 : list Statement)
         (rr : RoundRange) (n : nat),
    rating_components_fk skill_db ->
    get_round_range_for_day skill_db day log = (Returned (rr, n), log1) ->
    ((exists d log', get_highlights skill_db day log = (Returned d, log'))
     <->
     n <> 0%nat
     /\ exists rc, In rc (rating_components skill_db)
                   /\ in_range rr (rc_round_id rc) = true).
Proof.
  intros R N NO E EOk C S Dt D skill_db day log log1 rr n Hfk Hrun.
  destruct (get_highlights_paths skill_db day log)
    as (rr' & n' & Hrun' & Hcases).
  rewrite Hrun in Hrun'. injection Hrun' as <- <- _.
  split.
  - intros (d & log' & Hd).
    destruct Hcases as [[_ H]|[(_ & _ & H)|(Hn & Hne & _)]];
      try (rewrite H in Hd; discriminate).
    split; [exact Hn|].
    now apply select_rating_extremes_some_components.
  - intros (Hn & rc & Hrc & Hin).
    destruct Hcases as [[Hz _]|[(_ & Hnil & _)|(_ & _ & lo & hi & _ & H)]].
    + contradiction.
    + exfalso. revert Hnil.
      eapply select_rating_extremes_nonempty; eassumption.
    + eexists _, _. exact H.
Qed.

(** Day 0 of [Example.db]. *)
Lemma digest_iff_rounds_and_ratings_witness :
  exists d log',
    get_highlights (E := sqlite_engine) Example.db Example.day0 [] = (Returned d, log').
Proof.
  refine (proj2 (@digest_iff_rounds_and_ratings Q Q_Num Q_NumOrder
                   sqlite_engine sqlite_engine_ok Example.coefficients
                   Example.skill_model Datetime.t Datetime.py Example.db Example.day0 [] [SelectRoundRange]
                   (Some 1, Some 3) 3%nat _ _) _).
  - intros rc Hrc. simpl in Hrc.
    destruct Hrc as [<-|[<-|[<-|[<-|[]]]]]; simpl.
    + exists Example.alice. split; [now left|reflexivity].
    + exists Example.bob. split; [right; now left|reflexivity].
    + exists Example.alice. split; [now left|reflexivity].
    + exists Example.bob. split; [right; now left|reflexivity].
  - reflexivity.
  - split; [discriminate|].
    exists (Example.rc 1 1 (1#1) (1#2) (2#1) (1#1)).
    split; [now left|reflexivity].
Defined.

(** X4: each record returned by the rating extremes belongs to a row of
    [players] that has rating-component rows in the range: its
    [rounds_played] is the (non-zero) number of those rows, its averages
    are theirs, its [impact_rating] is the formula on those averages, and
    its [average_deaths] is the negated average death rating. *)
Theorem rating_extreme_record_fields :
  forall (R : Type) (N : Num R) (E : Engine) (EOk : EngineOk E)
         (C : Coefficients R)
         (skill_db : Db R) (rr : RoundRange) (log log' : list Statement)
         (lowest highest : RatingExtreme R),
    get_rating_extremes_between_rounds skill_db rr log =
      (Returned (lowest, highest), log') ->
    forall x, x = lowest \/ x = highest ->
      let rows := player_rows skill_db rr (re_player_id x) in
      (exists p, In p (players skill_db)
                 /\ players_player_id p = re_player_id x
                 /\ players_steam_name p = re_steam_name x)
      /\ rows <> []
      /\ re_rounds_played x = length rows
      /\ re_average_kills x = sql_avg (@kill_rating R) rows
      /\ re_average_deaths x = nopp (sql_avg (@death_rating R) rows)
      /\ re_average_damage x = sql_avg (@damage_rating R) rows
      /\ re_average_kas x = sql_avg (@kas_rating R) rows
      /\ re_impact_rating x =
           rating_formula (components_of (re_player_id x) rows).
Proof.
  intros R N E EOk C skill_db rr log log' lowest highest H x Hx rows.
  edestruct returned_extremes_are_rows as [_ Hin]; [exact H|exact Hx|].
  apply in_rating_extremes in Hin as (p & [r c] & Hp & Hir & Hid & _ & ->).
  apply in_impact_ratings in Hir as [Hc Hr]. simpl in Hc, Hr, Hid.
  apply in_components in Hc as [Hne Hc].
  unfold rows. simpl. rewrite Hid.
  split; [now exists p|]. split; [exact Hne|].
  split; [exact (f_equal (@c_rounds_played R) Hc)|].
  split; [exact (f_equal (@average_kills R) Hc)|].
  split; [exact (f_equal (fun c => nopp (average_deaths c)) Hc)|].
  split; [exact (f_equal (@average_damage R) Hc)|].
  split; [exact (f_equal (@average_kas R) Hc)|].
  rewrite Hr. exact (f_equal rating_formula Hc).
Qed.

(** The lowest record of rounds 1 to 3 of [Example.db] is bob's: deaths
    1 and 1, shown as -1. *)
Lemma rating_extreme_record_fields_witness :
  exists lowest highest,
    get_rating_extremes_between_rounds (E := sqlite_engine) Example.db
      (Some 1, Some 3) [] =
      (Returned (lowest, highest), [SelectRatingExtremes])
    /\ re_rounds_played lowest = 2%nat
    /\ re_average_deaths lowest = (- ((0 + 1 + 1) / inject_Z 2))%Q.
Proof.
  eexists _, _. split; [vm_compute; reflexivity|].
  edestruct (@rating_extreme_record_fields Q Q_Num sqlite_engine
               sqlite_engine_ok Example.coefficients Example.db
               (Some 1, Some 3) [] [SelectRatingExtremes])
    as (_ & _ & Hn & _ & Hd & _).
  - vm_compute. reflexivity.
  - left. reflexivity.
  - split; [exact Hn|exact Hd].
Defined.

(** X5: whatever the tables hold, when the rating extremes are returned the
    rating of [lowest] is at most that of [highest], and each of the two
    ratings is SQL-equal to the least or to the greatest impact rating of
    the grouped players. *)
Theorem returned_extremes_are_ordered :
  forall (R : Type) (N : Num R) (NO : NumOrder R)
         (E : Engine) (EOk : EngineOk E) (C : Coefficients R)
         (skill_db : Db R) (rr : RoundRange) (log log' : list Statement)
         (lowest highest : RatingExtreme R),
    get_rating_extremes_between_rounds skill_db rr log =
      (Returned (lowest, highest), log') ->
    nleb (re_impact_rating lowest) (re_impact_rating highest) = true
    /\ exists m M,
         sql_min nleb (map fst (impact_ratings skill_db rr)) = Some m
         /\ sql_max nleb (map fst (impact_ratings skill_db rr)) = Some M
         /\ forall x, x = lowest \/ x = highest ->
              neqb (re_impact_rating x) m = true
              \/ neqb (re_impact_rating x) M = true.
Proof.
  intros R N NO E EOk C skill_db rr log log' lowest highest H.
  assert (Hrows : forall x, x = lowest \/ x = highest ->
            In x (map rating_extreme_of_row
                    (select_rating_extremes skill_db rr)))
    by (intros x Hx; eapply proj2, returned_extremes_are_rows; eassumption).
  split.
  - pose proof H as H'. rewrite get_rating_extremes_run in H'.
    pose proof (stable_sort_sorted _ by_impact_rating_total
                  by_impact_rating_trans
                  (map rating_extreme_of_row
                     (select_rating_extremes skill_db rr))) as Hs.
    destruct (stable_sort by_impact_rating _) as [|first rest];
      [discriminate|].
    injection H' as <- <- _.
    apply (sorted_head_least _ by_impact_rating_total Hs).
    change (In (last (first :: rest) first) (first :: rest)).
    apply last_in. discriminate.
  - pose proof (Hrows lowest (or_introl eq_refl)) as Hin.
    apply in_rating_extremes in Hin as (p & ir & _ & Hir & _ & _ & _).
    assert (Hne : map fst (impact_ratings skill_db rr) <> []).
    { intro H0. apply map_eq_nil in H0. rewrite H0 in Hir. destruct Hir. }
    destruct (sql_min_nonempty nleb Hne) as [m Hm].
    destruct (sql_max_nonempty nleb Hne) as [M HM].
    exists m, M. split; [exact Hm|]. split; [exact HM|].
    intros x Hx. pose proof (Hrows x Hx) as Hin.
    apply in_rating_extremes in Hin as (p' & ir' & _ & _ & _ & Hsql & ->).
    rewrite Hm, HM in Hsql. unfold sql_in in Hsql. simpl in Hsql.
    rewrite orb_false_r in Hsql. apply orb_true_iff in Hsql. exact Hsql.
Qed.

(** Rounds 1 to 3 of [Example.db]. *)
Lemma returned_extremes_are_ordered_witness :
  exists lowest highest,
    get_rating_extremes_between_rounds (E := sqlite_engine) Example.db
      (Some 1, Some 3) [] =
      (Returned (lowest, highest), [SelectRatingExtremes])
    /\ nleb (re_impact_rating lowest) (re_impact_rating highest) = true.
Proof.
  eexists _, _. split; [vm_compute; reflexivity|].
  refine (proj1 (@returned_extremes_are_ordered Q Q_Num Q_NumOrder
                   sqlite_engine sqlite_engine_ok Example.coefficients
                   Example.db (Some 1, Some 3) [] [SelectRatingExtremes]
                   _ _ _)).
  vm_compute. reflexivity.
Defined.

(** ** The round range as a stand-in for the day *)

Section RangeAndWindow.
Context {R : Type} {N : Num R} {E : Engine} {EOk : EngineOk E}
        {Dt : Type} {D : PyDatetime Dt}.

Lemma range_is_window :
  forall (skill_db : Db R) day log rr n log1,
    round_ids_follow_time skill_db ->
    get_round_range_for_day skill_db day log = (Returned (rr, n), log1) ->
    forall r, In r (rounds skill_db) ->
      in_range rr (round_id r) = created_in day (plus_one_day day) r.
Proof.
  intros skill_db day log rr n log1 Hmono Hrun r Hr.
  destruct (round_window_spec skill_db day log)
    as (first & last & n' & Hrun' & _ & _ & Hin & Hfirst & Hlast).
  rewrite Hrun in Hrun'. injection Hrun' as -> _ _.
  destruct (created_in day (plus_one_day day) r) eqn:Hc.
  - apply created_in_closed_day in Hc.
    destruct (Hin r Hr Hc) as (f & l & -> & -> & Hfl & _).
    unfold in_range, sql_between. simpl.
    apply andb_true_iff. rewrite !Z.leb_le. exact Hfl.
  - destruct (in_range (first, last) (round_id r)) eqn:Hrange;
      [|reflexivity].
    exfalso. unfold in_range, sql_between in Hrange. simpl in Hrange.
    destruct first as [f|]; [|discriminate].
    destruct last as [l|]; [|discriminate].
    apply andb_true_iff in Hrange. rewrite !Z.leb_le in Hrange.
    destruct (Hfirst f eq_refl) as (rf & Hrf & Hdf & Hidf).
    destruct (Hlast l eq_refl) as (rl & Hrl & Hdl & Hidl).
    assert (H1 : String.leb (created_at rf) (created_at r) = true)
      by (apply Hmono; try assumption; lia).
    assert (H2 : String.leb (created_at r) (created_at rl) = true)
      by (apply Hmono; try assumption; lia).
    assert (Hd : in_closed_day day r).
    { destruct Hdf as [Hdf _]. destruct Hdl as [_ Hdl]. split.
      - exact (string_leb_trans _ _ _ Hdf H1).
      - exact (string_leb_trans _ _ _ H2 Hdl). }
    apply created_in_closed_day in Hd. congruence.
Qed.

Lemma rounds_in_range_count :
  forall (skill_db : Db R) day log rr n log1,
    round_ids_follow_time skill_db ->
    get_round_range_for_day skill_db day log = (Returned (rr, n), log1) ->
    length (filter (fun r => in_range rr (round_id r)) (rounds skill_db)) = n.
Proof.
  intros skill_db day log rr n log1 Hmono Hrun.
  rewrite (filter_ext_in _ (created_in day (plus_one_day day))).
  - pose proof (get_round_range_for_day_run skill_db day log) as Hrun'.
    cbv zeta in Hrun'. rewrite Hrun in Hrun'. now injection Hrun'.
  - intros r Hr. eapply range_is_window; eassumption.
Qed.
End RangeAndWindow.

(** X6: when round identifiers follow creation time, the identifier range
    returned by the resolver selects exactly the rounds created in the
    day's window, and the count it returns is the number of rounds in the
    range; so the statements that filter on [round_id BETWEEN first AND
    last] read the rounds of that day and no other. *)
Theorem round_range_selects_the_window :
  forall (R : Type) (N : Num R) (E : Engine) (EOk : EngineOk E)
         (Dt : Type) (D : PyDatetime Dt)
         (skill_db : Db R) (day : Dt) (log log1 : list Statement)
         (rr : RoundRange) (n : nat),
    round_ids_follow_time skill_db ->
    get_round_range_for_day skill_db day log = (Returned (rr, n), log1) ->
    (forall r, In r (rounds skill_db) ->
               (in_range rr (round_id r) = true <->
                created_in day (plus_one_day day) r = true))
    /\ length (filter (fun r => in_range rr (round_id r))
                 (rounds skill_db)) = n.
Proof.
  intros R N E EOk Dt D skill_db day log log1 rr n Hmono Hrun. split.
  - intros r Hr. now rewrite (range_is_window _ _ Hmono Hrun r Hr).
  - eapply rounds_in_range_count; eassumption.
Qed.

(** Day 0 of [Example.db]: rounds 1 to 3. *)
Lemma round_range_selects_the_window_witness :
  length (filter (fun r => in_range (Some 1, Some 3) (round_id r))
            (rounds Example.db)) = 3%nat.
Proof.
  refine (proj2 (@round_range_selects_the_window Q Q_Num sqlite_engine
                   sqlite_engine_ok Datetime.t Datetime.py Example.db Example.day0 [] [SelectRoundRange]
                   (Some 1, Some 3) 3%nat _ _)).
  - intros r1 r2 H1 H2. simpl in H1, H2.
    destruct H1 as [<-|[<-|[<-|[]]]], H2 as [<-|[<-|[<-|[]]]];
      simpl round_id; intros Hle; first [reflexivity|lia].
  - reflexivity.
Defined.

(** ** Group sizes add up *)

Lemma list_sum_permutation : forall l l' : list nat,
    Permutation l l' -> list_sum l = list_sum l'.
Proof.
  intros l l' H. induction H; simpl; lia.
Qed.

Section GroupSizes.
Variables (K A : Type) (keqb : K -> K -> bool) (key : A -> K).

Lemma add_to_group_sizes : forall k (a : A) gs,
    list_sum (map (fun kg => length (snd kg)) (add_to_group keqb k a gs)) =
    Datatypes.S (list_sum (map (fun kg : K * list A => length (snd kg)) gs)).
Proof.
  intros k a gs. induction gs as [|[k' g] gs IH]; simpl; [reflexivity|].
  destruct (keqb k' k); simpl.
  - rewrite length_app. simpl. lia.
  - rewrite IH. lia.
Qed.

Lemma group_by_sizes : forall l,
    list_sum (map (fun kg => length (snd kg)) (group_by keqb key l)) =
    length l.
Proof.
  intros l. induction l as [|a l IH] using rev_ind; [reflexivity|].
  unfold group_by in *. rewrite fold_left_app. simpl.
  rewrite add_to_group_sizes, IH, length_app. simpl. lia.
Qed.
End GroupSizes.

Section MapCounts.
Context {R : Type} {N : Num R} {E : Engine} {EOk : EngineOk E}.

Lemma select_most_played_maps_sum : forall (skill_db : Db R) rr,
    list_sum (map snd (select_most_played_maps skill_db rr)) =
    length (rounds_join_maps skill_db rr).
Proof.
  intros skill_db rr. unfold select_most_played_maps.
  rewrite <- (list_sum_permutation
                (Permutation_map snd (order_by_perm count_desc _))).
  rewrite map_map. simpl.
  rewrite <- (list_sum_permutation
                (Permutation_map (fun kg => length (snd kg))
                   (group_order_perm String.leb true _))).
  apply group_by_sizes.
Qed.

Lemma rounds_join_maps_length : forall (skill_db : Db R) rr,
    maps_pk skill_db -> rounds_map_fk skill_db ->
    length (rounds_join_maps skill_db rr) =
    length (filter (fun r => in_range rr (round_id r)) (rounds skill_db)).
Proof.
  intros skill_db rr Hpk Hfk. unfold rounds_join_maps.
  rewrite length_filter_flat_map, length_filter_indicator.
  f_equal. apply map_ext_in. intros r Hr.
  rewrite filter_map_swap, length_map, filter_filter_and. simpl.
  destruct (in_range rr (round_id r)).
  - rewrite (filter_ext _ (fun m => map_id r =? maps_map_id m))
      by (intros m; apply andb_true_r).
    rewrite keyed_match_count with (key := maps_map_id) (k := map_id r);
      [|exact Hpk|intros m _ Hm; apply Z.eqb_eq in Hm; congruence].
    destruct (Hfk r Hr) as (m & Hm & Hid).
    assert (Hex : existsb (fun m => map_id r =? maps_map_id m)
                    (maps skill_db) = true).
    { apply existsb_exists. exists m. split; [exact Hm|].
      apply Z.eqb_eq. congruence. }
    now rewrite Hex.
  - rewrite filter_none; [reflexivity|]. intros m _. apply andb_false_r.
Qed.

Lemma most_played_maps_dict : forall (skill_db : Db R) rr,
    dict (select_most_played_maps skill_db rr) =
    select_most_played_maps skill_db rr.
Proof.
  intros skill_db rr. apply dict_distinct.
  apply select_most_played_maps_keys.
Qed.
End MapCounts.

(** X7: with [maps] keyed by [map_id] and every round referring to a map,
    the counts returned by the Map Popularity Counter add up to the number
    of rounds whose identifier lies in the range: every round is counted
    once, under one name. *)
Theorem most_played_maps_counts_add_up :
  forall (R : Type) (N : Num R) (E : Engine) (EOk : EngineOk E)
         (skill_db : Db R) (rr : RoundRange) (log : list Statement),
    maps_pk skill_db ->
    rounds_map_fk skill_db ->
    exists result,
      get_most_played_maps_between_rounds skill_db rr log =
        (Returned result, log ++ [SelectMostPlayedMaps])
      /\ list_sum (map snd result) =
         length (filter (fun r => in_range rr (round_id r))
                   (rounds skill_db)).
Proof.
  intros R N E EOk skill_db rr log Hpk Hfk.
  exists (select_most_played_maps skill_db rr). split.
  - rewrite get_most_played_maps_run. now rewrite most_played_maps_dict.
  - rewrite select_most_played_maps_sum.
    now apply rounds_join_maps_length.
Qed.

(** Rounds 1 to 3 of [Example.db]: 2 + 1 = 3. *)
Lemma most_played_maps_counts_add_up_witness :
  exists result,
    get_most_played_maps_between_rounds (R := Q) (E := sqlite_engine)
      Example.db (Some 1, Some 3) [] =
      (Returned result, [SelectMostPlayedMaps])
    /\ list_sum (map snd result) = 3%nat.
Proof.
  destruct (@most_played_maps_counts_add_up Q Q_Num sqlite_engine
              sqlite_engine_ok Example.db (Some 1, Some 3) [])
    as (result & Hrun & Hsum).
  - unfold maps_pk. simpl.
    repeat constructor; simpl; intuition discriminate.
  - intros r Hr. simpl in Hr. destruct Hr as [<-|[<-|[<-|[]]]]; simpl.
    + exists Example.dust2. split; [now left|reflexivity].
    + exists Example.mirage. split; [right; now left|reflexivity].
    + exists Example.dust2. split; [now left|reflexivity].
  - exists result. split; [exact Hrun|exact Hsum].
Defined.

(** X8: with [maps] keyed by [map_id], every round referring to a map and
    round identifiers following creation time, the [most_played_maps]
    counts of a returned digest add up to its [rounds_played]. *)
Theorem digest_map_counts_equal_rounds_played :
  forall (R : Type) (N : Num R) (E : Engine) (EOk : EngineOk E)
         (C : Coefficients R) (S : SkillModel R)
         (Dt : Type) (D : PyDatetime Dt)
         (skill_db : Db R) (day : Dt) (log log' : list Statement)
         (d : Digest R),
    maps_pk skill_db ->
    rounds_map_fk skill_db ->
    round_ids_follow_time skill_db ->
    get_highlights skill_db day log = (Returned d, log') ->
    list_sum (map snd (most_played_maps d)) = rounds_played d.
Proof.
  intros R N E EOk C S Dt D skill_db day log log' d Hpk Hfk Hmono Hd.
  destruct (get_highlights_paths skill_db day log)
    as (rr & n & Hrun & [[_ H]|[(_ & _ & H)|(_ & _ & lo & hi & _ & H)]]);
    rewrite H in Hd; try discriminate.
  injection Hd as <- _. simpl.
  rewrite most_played_maps_dict, select_most_played_maps_sum.
  rewrite rounds_join_maps_length by assumption.
  eapply rounds_in_range_count; eassumption.
Qed.

(** Day 0 of [Example.db]. *)
Lemma digest_map_counts_equal_rounds_played_witness :
  exists d log',
    get_highlights (E := sqlite_engine) Example.db Example.day0 [] = (Returned d, log')
    /\ list_sum (map snd (most_played_maps d)) = rounds_played d.
Proof.
  eexists _, _. split; [vm_compute; reflexivity|].
  eapply (@digest_map_counts_equal_rounds_played Q Q_Num sqlite_engine
            sqlite_engine_ok Example.coefficients Example.skill_model
            Datetime.t Datetime.py Example.db Example.day0 []).
  - unfold maps_pk. simpl.
    repeat constructor; simpl; intuition discriminate.
  - intros r Hr. simpl in Hr. destruct Hr as [<-|[<-|[<-|[]]]]; simpl.
    + exists Example.dust2. split; [now left|reflexivity].
    + exists Example.mirage. split; [right; now left|reflexivity].
    + exists Example.dust2. split; [now left|reflexivity].
  - intros r1 r2 H1 H2. simpl in H1, H2.
    destruct H1 as [<-|[<-|[<-|[]]]], H2 as [<-|[<-|[<-|[]]]];
      simpl round_id; intros Hle; first [reflexivity|lia].
  - vm_compute. reflexivity.
Defined.

(** ** The optional MVP field *)

Section MvpField.
Context {R : Type} {N : Num R} {E : Engine} {EOk : EngineOk E}.

Lemma select_most_mvps_some_mvp : forall (skill_db : Db R) rr r pid,
    rounds_mvp_fk skill_db ->
    In r (rounds skill_db) -> in_range rr (round_id r) = true ->
    mvp r = Some pid ->
    select_most_mvps skill_db rr <> [].
Proof.
  intros skill_db rr r pid Hfk Hr Hin Hm Hnil.
  destruct (Hfk r pid Hr Hm) as (p & Hp & Hid).
  assert (Hpr : In (p, r) (players_join_rounds skill_db rr)).
  { apply in_players_join_rounds. rewrite Hid. tauto. }
  destruct (group_by_complete id_name_eqb mvp_key id_name_eqb_spec _ _ Hpr)
    as [g Hg].
  assert (Hrow : In (mvp_key (p, r), length g)
                    (select_most_mvps skill_db rr)).
  { unfold select_most_mvps. apply order_by_in. apply in_map_iff.
    exists (mvp_key (p, r), g).
    split; [reflexivity|apply group_order_in; exact Hg]. }
  rewrite Hnil in Hrow. destruct Hrow.
Qed.

Lemma most_mvps_of_rows_none : forall rows,
    most_mvps_of_rows rows = None <-> rows = [].
Proof.
  intros [|[[pid name] n] t]; simpl; split; congruence.
Qed.
End MvpField.

(** X9: with every recorded MVP referring to a player, the [most_mvps]
    field of a returned digest is absent exactly when no round of the
    resolved range has an MVP. *)
Theorem most_mvps_absent_iff_no_mvp :
  forall (R : Type) (N : Num R) (E : Engine) (EOk : EngineOk E)
         (C : Coefficients R) (S : SkillModel R)
         (Dt : Type) (D : PyDatetime Dt)
         (skill_db : Db R) (day : Dt) (log log1 log' : list Statement)
         (rr : RoundRange) (n : nat) (d : Digest R),
    rounds_mvp_fk skill_db ->
    get_round_range_for_day skill_db day log = (Returned (rr, n), log1) ->
    get_highlights skill_db day log = (Returned d, log') ->
    (most_mvps d = None <->
     forall r, In r (rounds skill_db) ->
               in_range rr (round_id r) = true -> mvp r = None).
Proof.
  intros R N E EOk C S Dt D skill_db day log log1 log' rr n d Hfk Hrun Hd.
  destruct (get_highlights_paths skill_db day log)
    as (rr' & n' & Hrun' & [[_ H]|[(_ & _ & H)|(_ & _ & lo & hi & _ & H)]]);
    rewrite H in Hd; try discriminate.
  rewrite Hrun in Hrun'. injection Hrun' as <- <- _.
  injection Hd as <- _. simpl. rewrite most_mvps_of_rows_none. split.
  - intros Hnil r Hr Hin. destruct (mvp r) as [pid|] eqn:Hm; [|reflexivity].
    exfalso. revert Hnil.
    eapply select_most_mvps_some_mvp; eassumption.
  - intros Hnone. now apply select_most_mvps_no_mvp.
Qed.

(** Day 0 of [Example.no_mvp_db]. *)
Lemma most_mvps_absent_iff_no_mvp_witness :
  exists d log',
    get_highlights (E := sqlite_engine) Example.no_mvp_db Example.day0 [] =
      (Returned d, log')
    /\ most_mvps d = None.
Proof.
  eexists _, _. split; [vm_compute; reflexivity|].
  refine (proj2 (@most_mvps_absent_iff_no_mvp Q Q_Num sqlite_engine
                   sqlite_engine_ok Example.coefficients Example.skill_model
                   Datetime.t Datetime.py Example.no_mvp_db Example.day0 [] [SelectRoundRange] _
                   (Some 1, Some 2) 2%nat _ _ _ _) _).
  - intros r pid Hr Hm. simpl in Hr.
    destruct Hr as [<-|[<-|[]]]; discriminate.
  - reflexivity.
  - vm_compute. reflexivity.
  - intros r Hr _. simpl in Hr. destruct Hr as [<-|[<-|[]]]; reflexivity.
Defined.

Lemma mvp_first_row_bounds :
  forall (R : Type) (N : Num R) (E : Engine) (EOk : EngineOk E)
         (skill_db : Db R) (rr : RoundRange) pid name k t,
    players_pk skill_db ->
    select_most_mvps skill_db rr = (pid, name, k) :: t ->
    (1 <= k)%nat
    /\ (k <= length (filter (fun r => in_range rr (round_id r))
                       (rounds skill_db)))%nat.
Proof.
  intros R N E EOk skill_db rr pid name k t Hpk Hs.
  assert (Hin : In (pid, name, k) (select_most_mvps skill_db rr))
    by (rewrite Hs; now left).
  apply (in_select_most_mvps rr pid name k Hpk) in Hin as (_ & -> & Hne).
  split; [lia|]. unfold mvp_count.
  rewrite <- filter_filter_and. apply filter_length_le.
Qed.

(** X10: when the MVP Leader returns an entry, with [players] keyed by
    [player_id], its [mvps] is at least one and at most the number of
    rounds whose identifier lies in the range. *)
Theorem mvp_leader_count_bounds :
  forall (R : Type) (N : Num R) (E : Engine) (EOk : EngineOk E)
         (skill_db : Db R) (rr : RoundRange) (log log' : list Statement)
         (entry : MostMvps),
    players_pk skill_db ->
    get_player_with_most_mvps_between_rounds skill_db rr log =
      (Returned entry, log') ->
    (1 <= mm_mvps entry)%nat
    /\ (mm_mvps entry <=
        length (filter (fun r => in_range rr (round_id r))
                  (rounds skill_db)))%nat.
Proof.
  intros R N E EOk skill_db rr log log' entry Hpk H.
  rewrite get_most_mvps_run in H.
  destruct (select_most_mvps skill_db rr) as [|[[pid name] k] t] eqn:Hs;
    [discriminate|].
  injection H as <- _. simpl.
  eapply mvp_first_row_bounds; eassumption.
Qed.

(** Rounds 1 to 3 of [Example.db]: alice, twice. *)
Lemma mvp_leader_count_bounds_witness :
  exists entry,
    get_player_with_most_mvps_between_rounds (R := Q) (E := sqlite_engine)
      Example.db (Some 1, Some 3) [] = (Returned entry, [SelectMostMvps])
    /\ (1 <= mm_mvps entry <= 3)%nat.
Proof.
  eexists. split; [vm_compute; reflexivity|].
  refine (@mvp_leader_count_bounds Q Q_Num sqlite_engine sqlite_engine_ok
            Example.db (Some 1, Some 3) [] [SelectMostMvps] _ _ _).
  - unfold players_pk. simpl.
    repeat constructor; simpl; intuition discriminate.
  - vm_compute. reflexivity.
Defined.

(** ** The shaped skill-group changes *)

Lemma nodup_map_filter :
  forall (A B : Type) (f : A -> B) (P : A -> bool) (l : list A),
    NoDup (map f l) -> NoDup (map f (filter P l)).
Proof.
  intros A B f P l. induction l as [|x t IH]; simpl; intros H; [exact H|].
  inversion H as [|? ? Hn Hnd]; subst.
  destruct (P x); simpl; [|now apply IH].
  constructor; [|now apply IH].
  intro Hin. apply Hn. apply in_map_iff in Hin as (y & Hy & Hin).
  apply filter_In in Hin as [Hin _]. rewrite <- Hy. now apply in_map.
Qed.

Lemma nodup_same_short : forall (A : Type) (l : list A),
    NoDup l -> (forall x y, In x l -> In y l -> x = y) ->
    (length l <= 1)%nat.
Proof.
  intros A [|x [|y t]] Hnd Hsame; simpl; try lia.
  exfalso. inversion Hnd as [|? ? Hn _]; subst. apply Hn.
  rewrite (Hsame x y); [now left|now left|right; now left].
Qed.

Lemma nodup_flat_map_keyed :
  forall (A B K : Type) (key : A -> K) (g : B -> K) (F : A -> list B)
         (l : list A),
    NoDup (map key l) ->
    (forall a, In a l -> (length (F a) <= 1)%nat) ->
    (forall a x, In a l -> In x (F a) -> g x = key a) ->
    NoDup (map g (flat_map F l)).
Proof.
  intros A B K key g F l. induction l as [|a t IH]; simpl;
    intros Hnd Hlen Hkey; [constructor|].
  inversion Hnd as [|? ? Hn Hnd']; subst.
  assert (IH' : NoDup (map g (flat_map F t))).
  { apply IH; [exact Hnd'| |]; intros; [apply Hlen|apply Hkey]; auto. }
  pose proof (Hlen a (or_introl eq_refl)) as Hla.
  pose proof (Hkey a) as Hka.
  destruct (F a) as [|x [|y r]]; simpl in *; [exact IH'| |lia].
  constructor; [|exact IH'].
  intro Hin. apply Hn. rewrite (Hka x (or_introl eq_refl) (or_introl eq_refl))
    in Hin.
  apply in_map_iff in Hin as (z & Hz & Hin).
  apply in_flat_map in Hin as (a' & Ha' & Hin).
  rewrite <- Hz, (Hkey a' z (or_intror Ha') Hin). now apply in_map.
Qed.

Section SkillChangeRows.
Context {R : Type} {N : Num R} {E : Engine} {EOk : EngineOk E}
        {S : SkillModel R}.

(** Every row of the statement carries the identifier and the name of a
    row of [players]. *)
Lemma select_skill_changes_player :
  forall (skill_db : Db R) rr pid name em es lm ls,
    In (pid, name, em, es, lm, ls) (select_skill_changes skill_db rr) ->
    exists p, In p (players skill_db)
              /\ players_player_id p = pid /\ players_steam_name p = name.
Proof.
  intros skill_db rr pid name em es lm ls H.
  unfold select_skill_changes in H. rewrite fetch_in, in_flat_map in H.
  destruct H as (p & Hp & H). apply in_flat_map in H as (e & _ & H).
  apply in_map_iff in H as (l & Heq & _). injection Heq as <- <- _ _ _ _.
  now exists p.
Qed.

Lemma skill_changes_sorted : forall (skill_db : Db R) rr,
    StronglySorted (fun a b => mmr (snd b) <= mmr (snd a))
      (filter skill_group_differs
         (stable_sort by_neg_later_mmr
            (map skill_change_of_row (select_skill_changes skill_db rr)))).
Proof.
  intros skill_db rr. apply filter_strongly_sorted.
  pose proof (stable_sort_sorted _ by_neg_later_mmr_total
                by_neg_later_mmr_trans
                (map skill_change_of_row
                   (select_skill_changes skill_db rr))) as Hs.
  induction Hs as [|a l Hs IH Hall]; constructor; [exact IH|].
  rewrite Forall_forall in *. intros b Hb.
  specialize (Hall b Hb). unfold by_neg_later_mmr in Hall.
  apply Z.leb_le in Hall. lia.
Qed.

Lemma in_skill_changes : forall (skill_db : Db R) rr c,
    In c (filter skill_group_differs
            (stable_sort by_neg_later_mmr
               (map skill_change_of_row
                  (select_skill_changes skill_db rr)))) <->
    In c (map skill_change_of_row (select_skill_changes skill_db rr))
    /\ skill_group (fst c) <> skill_group (snd c).
Proof.
  intros skill_db rr c. rewrite filter_In, skill_group_differs_spec.
  pose proof (stable_sort_perm by_neg_later_mmr
                (map skill_change_of_row
                   (select_skill_changes skill_db rr))) as Hp.
  split; intros [Hin Hd]; (split; [|exact Hd]).
  - exact (Permutation_in _ (Permutation_sym Hp) Hin).
  - exact (Permutation_in _ Hp Hin).
Qed.
End SkillChangeRows.

(** X11: in a returned digest every [season_skill_group_changes] entry
    names a row of [players], its previous and next skill groups differ,
    and the entries come by non-increasing [mmr] of the next skill. *)
Theorem digest_skill_changes_shape :
  forall (R : Type) (N : Num R) (E : Engine) (EOk : EngineOk E)
         (C : Coefficients R) (S : SkillModel R)
         (Dt : Type) (D : PyDatetime Dt)
         (skill_db : Db R) (day : Dt) (log log' : list Statement)
         (d : Digest R),
    get_highlights skill_db day log = (Returned d, log') ->
    (forall c, In c (season_skill_group_changes d) ->
       sk_skill_group (sgc_previous_skill c)
         <> sk_skill_group (sgc_next_skill c)
       /\ exists p, In p (players skill_db)
                    /\ players_player_id p = sgc_player_id c
                    /\ players_steam_name p = sgc_steam_name c)
    /\ StronglySorted
         (fun a b => sk_mmr (sgc_next_skill b) <= sk_mmr (sgc_next_skill a))
         (season_skill_group_changes d).
Proof.
  intros R N E EOk C S Dt D skill_db day log log' d Hd.
  destruct (get_highlights_paths skill_db day log)
    as (rr & n & _ & [[_ H]|[(_ & _ & H)|(_ & _ & lo & hi & _ & H)]]);
    rewrite H in Hd; try discriminate.
  injection Hd as <- _. simpl. split.
  - intros c Hc. apply in_map_iff in Hc as ([prev next] & <- & Hc).
    apply in_skill_changes in Hc as [Hc Hdiff]. simpl in *.
    split; [exact Hdiff|].
    apply in_map_iff in Hc as ([[[[[pid name] em] es] lm] ls] & Heq & Hrow).
    injection Heq as <- _. simpl.
    eapply select_skill_changes_player; eassumption.
  - apply strongly_sorted_map.
    eapply strongly_sorted_impl; [|apply skill_changes_sorted].
    intros [p1 n1] [p2 n2] Hle. exact Hle.
Qed.

(** Day 0 of [Example.db]: alice, from Silver to Gold. *)
Lemma digest_skill_changes_shape_witness :
  exists d log',
    get_highlights (E := sqlite_engine) Example.db Example.day0 [] = (Returned d, log')
    /\ forall c, In c (season_skill_group_changes d) ->
         sk_skill_group (sgc_previous_skill c)
           <> sk_skill_group (sgc_next_skill c).
Proof.
  eexists _, _. split; [vm_compute; reflexivity|].
  intros c Hc.
  refine (proj1 (proj1 (@digest_skill_changes_shape Q Q_Num sqlite_engine
                          sqlite_engine_ok Example.coefficients
                          Example.skill_model Datetime.t Datetime.py Example.db Example.day0 [] _ _ _) c Hc)).
  vm_compute. reflexivity.
Defined.

Section OneChangePerPlayer.
Context {R : Type} {N : Num R} {E : Engine} {EOk : EngineOk E}
        {S : SkillModel R}.

Lemma earlier_ssh_short : forall (skill_db : Db R) rr p,
    skill_history_pk skill_db ->
    (length (earlier_ssh_of skill_db rr p) <= 1)%nat.
Proof.
  intros skill_db rr p Hpk. apply nodup_same_short.
  - apply NoDup_filter. exact (NoDup_map_inv _ _ Hpk).
  - intros x y Hx Hy. unfold earlier_ssh_of in Hx, Hy.
    apply filter_In in Hx as [Hx Hbx]. apply filter_In in Hy as [Hy Hby].
    apply andb_true_iff in Hbx as [Hpx Hrx].
    apply andb_true_iff in Hby as [Hpy Hry].
    apply Z.eqb_eq in Hpx. apply Z.eqb_eq in Hpy.
    destruct (ssh_before skill_db (fst rr) (players_player_id p)) as [v|];
      [|discriminate].
    simpl in Hrx, Hry. apply Z.eqb_eq in Hrx. apply Z.eqb_eq in Hry.
    apply (nodup_key_injective ssh_key (season_skill_history skill_db));
      try assumption.
    unfold ssh_key. congruence.
Qed.

Lemma later_ssh_short : forall (skill_db : Db R) rr p,
    skill_history_pk skill_db ->
    (length (later_ssh_of skill_db rr p) <= 1)%nat.
Proof.
  intros skill_db rr p Hpk. apply nodup_same_short.
  - apply NoDup_filter. exact (NoDup_map_inv _ _ Hpk).
  - intros x y Hx Hy. unfold later_ssh_of in Hx, Hy.
    apply filter_In in Hx as [Hx Hbx]. apply filter_In in Hy as [Hy Hby].
    apply andb_true_iff in Hbx as [Hpx Hrx].
    apply andb_true_iff in Hby as [Hpy Hry].
    apply Z.eqb_eq in Hpx. apply Z.eqb_eq in Hpy.
    destruct (ssh_after skill_db (snd rr) (players_player_id p)) as [v|];
      [|discriminate].
    simpl in Hrx, Hry. apply Z.eqb_eq in Hrx. apply Z.eqb_eq in Hry.
    apply (nodup_key_injective ssh_key (season_skill_history skill_db));
      try assumption.
    unfold ssh_key. congruence.
Qed.

Lemma select_skill_changes_one_per_player : forall (skill_db : Db R) rr,
    players_pk skill_db -> skill_history_pk skill_db ->
    NoDup (map row_player_id (select_skill_changes skill_db rr)).
Proof.
  intros skill_db rr Hpk Hspk. unfold select_skill_changes.
  eapply Permutation_NoDup;
    [apply Permutation_map, fetch_perm|].
  apply nodup_flat_map_keyed with (key := players_player_id).
  - exact Hpk.
  - intros p _.
    pose proof (earlier_ssh_short rr p Hspk) as He.
    pose proof (later_ssh_short rr p Hspk) as Hl.
    destruct (earlier_ssh_of skill_db rr p) as [|e [|e' t]]; simpl in *;
      [lia| |lia].
    now rewrite app_nil_r, length_map.
  - intros p row _ Hrow. apply in_flat_map in Hrow as (e & _ & Hrow).
    apply in_map_iff in Hrow as (l & <- & _). reflexivity.
Qed.
End OneChangePerPlayer.

(** X12: with [players] keyed by [player_id] and the skill history keyed
    by player and round, the Skill Group Transition Detector returns at
    most one pair per player. *)
Theorem skill_changes_one_per_player :
  forall (R : Type) (N : Num R) (E : Engine) (EOk : EngineOk E)
         (S : SkillModel R)
         (skill_db : Db R) (rr : RoundRange) (log log' : list Statement)
         (changes : list (Player R * Player R)),
    players_pk skill_db ->
    skill_history_pk skill_db ->
    get_skill_changes_between_rounds skill_db rr log =
      (Returned changes, log') ->
    NoDup (map (fun c => player_id (fst c)) changes).
Proof.
  intros R N E EOk S skill_db rr log log' changes Hpk Hspk H.
  rewrite get_skill_changes_run in H. injection H as <- _.
  apply nodup_map_filter.
  eapply Permutation_NoDup;
    [apply Permutation_map, stable_sort_perm|].
  rewrite map_map.
  rewrite (map_ext _ (@row_player_id R)).
  - now apply select_skill_changes_one_per_player.
  - intros [[[[[pid name] em] es] lm] ls]. reflexivity.
Qed.

(** Rounds 1 to 3 of [Example.db]. *)
Lemma skill_changes_one_per_player_witness :
  exists changes,
    get_skill_changes_between_rounds (E := sqlite_engine) Example.db
      (Some 1, Some 3) [] = (Returned changes, [SelectSkillChanges])
    /\ NoDup (map (fun c => player_id (fst c)) changes).
Proof.
  eexists. split; [vm_compute; reflexivity|].
  refine (@skill_changes_one_per_player Q Q_Num sqlite_engine sqlite_engine_ok
            Example.skill_model Example.db (Some 1, Some 3) []
            [SelectSkillChanges] _ _ _ _).
  - unfold players_pk. simpl.
    repeat constructor; simpl; intuition discriminate.
  - unfold skill_history_pk. simpl.
    repeat constructor; simpl; intuition discriminate.
  - vm_compute. reflexivity.
Defined.

(** X13: the resolver returns no bounds exactly when its count is zero;
    otherwise it returns both, and the first is at most the last. *)
Theorem round_range_bounds :
  forall (R : Type) (N : Num R) (E : Engine) (EOk : EngineOk E)
         (Dt : Type) (D : PyDatetime Dt)
         (skill_db : Db R) (day : Dt) (log log1 : list Statement)
         (first last : option Z) (n : nat),
    get_round_range_for_day skill_db day log =
      (Returned ((first, last), n), log1) ->
    (n = 0%nat <-> first = None)
    /\ (n = 0%nat <-> last = None)
    /\ (forall f l, first = Some f -> last = Some l -> f <= l).
Proof.
  intros R N E EOk Dt D skill_db day log log1 first last n H.
  pose proof (get_round_range_for_day_run skill_db day log) as Hrun.
  cbv zeta in Hrun. rewrite H in Hrun. injection Hrun as -> -> -> _.
  set (w := filter (created_in day (plus_one_day day)) (rounds skill_db)).
  assert (Hw : length w = 0%nat <-> map round_id w = []).
  { rewrite length_zero_iff_nil. split; [now intros ->|apply map_eq_nil]. }
  split; [|split].
  - now rewrite sql_min_none.
  - now rewrite sql_max_none.
  - intros f l Hf Hl.
    apply (sql_min_some _ Zleb_total Zleb_trans) in Hf as [Hf _].
    apply (sql_max_some _ Zleb_total Zleb_trans) in Hl as [_ Hl].
    apply Z.leb_le. now apply Hl.
Qed.

(** Day 5 of [Example.db]: no round, no bounds. *)
Lemma round_range_bounds_witness :
  exists first last log1,
    get_round_range_for_day (E := sqlite_engine) Example.db Example.day5 [] =
      (Returned ((first, last), 0%nat), log1)
    /\ first = None /\ last = None.
Proof.
  eexists _, _, _. split; [vm_compute; reflexivity|].
  destruct (@round_range_bounds Q Q_Num sqlite_engine sqlite_engine_ok
              Datetime.t Datetime.py Example.db Example.day5 [] [SelectRoundRange]
              None None 0%nat) as (H1 & H2 & _).
  - vm_compute. reflexivity.
  - split; [now apply H1|now apply H2].
Defined.

(** X14: with [players] keyed by [player_id] and round identifiers
    following creation time, the [mvps] of the [most_mvps] entry of a
    returned digest is at least one and at most the digest's
    [rounds_played]. *)
Theorem digest_mvps_at_most_rounds_played :
  forall (R : Type) (N : Num R) (E : Engine) (EOk : EngineOk E)
         (C : Coefficients R) (S : SkillModel R)
         (Dt : Type) (D : PyDatetime Dt)
         (skill_db : Db R) (day : Dt) (log log' : list Statement)
         (d : Digest R) (m : MostMvps),
    players_pk skill_db ->
    round_ids_follow_time skill_db ->
    get_highlights skill_db day log = (Returned d, log') ->
    most_mvps d = Some m ->
    (1 <= mm_mvps m <= rounds_played d)%nat.
Proof.
  intros R N E EOk C S Dt D skill_db day log log' d m Hpk Hmono Hd Hm.
  destruct (get_highlights_paths skill_db day log)
    as (rr & n & Hrun & [[_ H]|[(_ & _ & H)|(_ & _ & lo & hi & _ & H)]]);
    rewrite H in Hd; try discriminate.
  injection Hd as <- _. simpl in *.
  destruct (select_most_mvps skill_db rr) as [|[[pid name] k] t] eqn:Hs;
    [discriminate|].
  simpl in Hm. injection Hm as <-. simpl.
  rewrite <- (rounds_in_range_count _ _ Hmono Hrun).
  eapply mvp_first_row_bounds; eassumption.
Qed.

(** Day 0 of [Example.db]: alice was MVP in 2 of the 3 rounds. *)
Lemma digest_mvps_at_most_rounds_played_witness :
  exists d log' m,
    get_highlights (E := sqlite_engine) Example.db Example.day0 [] = (Returned d, log')
    /\ most_mvps d = Some m
    /\ (1 <= mm_mvps m <= rounds_played d)%nat.
Proof.
  eexists _, _, _. split; [vm_compute; reflexivity|].
  split; [reflexivity|].
  eapply (@digest_mvps_at_most_rounds_played Q Q_Num sqlite_engine
            sqlite_engine_ok Example.coefficients Example.skill_model
            Datetime.t Datetime.py Example.db Example.day0 []).
  - unfold players_pk. simpl.
    repeat constructor; simpl; intuition discriminate.
  - intros r1 r2 H1 H2. simpl in H1, H2.
    destruct H1 as [<-|[<-|[<-|[]]]], H2 as [<-|[<-|[<-|[]]]];
      simpl round_id; intros Hle; first [reflexivity|lia].
  - vm_compute. reflexivity.
  - reflexivity.
Defined.

(** ** The Map Popularity Counter on any engine *)

(** X15: on every engine that returns the rows of the statement and honours
    its [ORDER BY], with [maps] keyed by [map_id], the counter returns one
    entry for each map name that has a round in the range, its count is the
    number of rounds in the range played on a map of that name, and the
    entries come by non-increasing count. *)
Theorem most_played_maps_counts_descending :
  forall (R : Type) (N : Num R) (E : Engine) (EOk : EngineOk E)
         (skill_db : Db R) (rr : RoundRange) (log : list Statement),
    maps_pk skill_db ->
    exists result,
      get_most_played_maps_between_rounds skill_db rr log =
        (Returned result, log ++ [SelectMostPlayedMaps])
      /\ NoDup (map fst result)
      /\ (forall name n,
            In (name, n) result <->
            n = rounds_on_map skill_db rr name /\ n <> 0%nat)
      /\ StronglySorted (fun a b => (snd b <= snd a)%nat) result.
Proof.
  intros R N E EOk skill_db rr log Hpk.
  exists (select_most_played_maps skill_db rr).
  pose proof (select_most_played_maps_keys skill_db rr) as Hnd.
  split; [|split; [exact Hnd|split]].
  - rewrite get_most_played_maps_run. now rewrite dict_distinct.
  - intros name n. now apply in_select_most_played_maps.
  - assert (Hs : StronglySorted (fun a b => count_desc a b = true)
                   (select_most_played_maps skill_db rr)).
    { unfold select_most_played_maps. apply order_by_sorted.
      - apply count_desc_total.
      - apply count_desc_trans. }
    induction Hs as [|a l Hs IH Hall]; constructor.
    + apply IH. now inversion Hnd.
    + rewrite Forall_forall in *. intros b Hb.
      specialize (Hall b Hb). unfold count_desc in Hall.
      now apply Nat.leb_le in Hall.
Qed.

(** Rounds 1 to 3 of [Example.db]: two rounds on de_dust2, one on
    de_mirage. *)
Lemma most_played_maps_counts_descending_witness :
  get_most_played_maps_between_rounds (R := Q) (E := sqlite_engine)
    Example.db (Some 1, Some 3) [] =
  (Returned [("de_dust2"%string, 2%nat); ("de_mirage"%string, 1%nat)],
   [SelectMostPlayedMaps]).
Proof.
  destruct (@most_played_maps_counts_descending Q Q_Num sqlite_engine
              sqlite_engine_ok Example.db (Some 1, Some 3) [])
    as (result & Hrun & _).
  - unfold maps_pk. simpl.
    repeat constructor; simpl; intuition discriminate.
  - rewrite Hrun. vm_compute in Hrun. injection Hrun as <-. reflexivity.
Defined.

(** ** Days with a UTC offset *)

Lemma string_append_assoc : forall a b c : string,
    ((a ++ b) ++ c = a ++ (b ++ c))%string.
Proof.
  induction a as [|x a IH]; intros b c; simpl; [reflexivity|].
  now rewrite IH.
Qed.

Lemma string_append_empty : forall a : string, (a ++ "" = a)%string.
Proof. induction a as [|x a IH]; simpl; [reflexivity|now rewrite IH]. Qed.

(** The text bound for an aware day is the text of the same date and time
    without offset, followed by the offset. *)
Lemma adapt_datetime_aware : forall (d : Datetime.t) (o : string),
    Datetime.utcoffset d = Some o ->
    adapt_datetime d = (adapt_datetime (Datetime.as_naive d) ++ o)%string.
Proof.
  intros d o Ho. simpl. unfold Datetime.isoformat_sep. rewrite Ho. simpl.
  rewrite string_append_empty.
  repeat (rewrite string_append_assoc; cbn [append]). reflexivity.
Qed.

(** X16: the parameter bound for a day with a UTC offset is text that ends
    in the offset, and SQLite orders a text before its extensions; so a
    round stored as the text of the day's own date and time without offset
    is below the lower bound and is not selected, whatever the upper bound
    is. *)
Theorem aware_day_leaves_out_naive_text :
  forall (day next_day : Datetime.t) (o : string) (r : RoundRow),
    Datetime.utcoffset day = Some o -> o <> EmptyString ->
    created_at r = adapt_datetime (Datetime.as_naive day) ->
    created_in day next_day r = false.
Proof.
  intros day next_day o r Ho Hne Hat.
  unfold created_in, sql_text_between.
  rewrite Hat, (adapt_datetime_aware day Ho).
  now rewrite (string_leb_extension _ Hne).
Qed.

(** The round of [Example.boundary_db], stored as "1970-01-02 00:00:00",
    and the day 2 January 1970 at UTC: no round is selected. *)
Lemma aware_day_leaves_out_naive_text_witness :
  created_in (Datetime.midnight_utc 1970 1 2)
    (plus_one_day (Datetime.midnight_utc 1970 1 2))
    {| round_id := 7; created_at := "1970-01-02 00:00:00"; map_id := 10;
       mvp := None |} = false
  /\ get_round_range_for_day (E := sqlite_engine) Example.boundary_db
       (Datetime.midnight_utc 1970 1 2) [] =
     (Returned ((None, None), 0%nat), [SelectRoundRange]).
Proof.
  split.
  - apply (@aware_day_leaves_out_naive_text
             (Datetime.midnight_utc 1970 1 2)
             (plus_one_day (Datetime.midnight_utc 1970 1 2))
             "+00:00"%string).
    + reflexivity.
    + discriminate.
    + reflexivity.
  - vm_compute. reflexivity.
Defined.
